(** * Cleaning agents in a room: the simulation core of [agent_clean.py]

    A shallow embedding of [CeldaAgent], [LimpiadorAgent] and
    [HabitacionModel], together with the parts of the Mesa grid, the Mesa
    scheduler and Python's [random] module that the program calls.

    Conventions.
    - Python integers are [Z]; a grid coordinate is a pair of [Z].
    - A Python exception is a value [Raise e] of the type [result].
    - The random generator is an explicit list of raw draws stored in the
      model (the attribute [self.random]); each call of [_randbelow]
      consumes one draw.
    - The grid and the scheduler behave as in Mesa 2.x, the generator as in
      CPython 3; console output ([print]) is left out.
    - The percentage returned by [contar_celdas_limpias] is the exact
      rational; Python rounds it to a double.  Rounding is monotone and 0, 1
      and 100 are doubles, so the comparisons made below ([== 0], [>= 100],
      [<=] between two rounds) come out the same on the rounded value for
      every grid that fits in memory. *)

From Stdlib Require Import ZArith QArith Lia.
From stdpp Require Import base tactics option numbers strings list.

Open Scope Z_scope.

(** ** Exceptions *)

Inductive exn : Set :=
  | ValueError
  | IndexError
  | KeyError
  | ZeroDivisionError
  | Exception.

Inductive result (A : Type) : Type :=
  | Ok (a : A)
  | Raise (e : exn).

Arguments Ok {A} a.
Arguments Raise {A} e.

#[global] Instance result_ret : MRet result := fun A a => Ok a.
#[global] Instance result_bind : MBind result := fun A B f r =>
  match r with
  | Ok a => f a
  | Raise e => Raise e
  end.

Definition is_ok {A} (r : result A) : bool :=
  match r with Ok _ => true | Raise _ => false end.

(** A [for] loop whose body may raise. *)
Fixpoint foldM {A B} (f : B → A → result B) (l : list A) (b : B) : result B :=
  match l with
  | [] => Ok b
  | a :: l' => b' ← f b a; foldM f l' b'
  end.

(** A list comprehension [[x for x in l if p(x)]] whose test may raise. *)
Fixpoint filterM {A} (p : A → result bool) (l : list A) : result (list A) :=
  match l with
  | [] => Ok []
  | a :: l' =>
      b ← p a;
      r ← filterM p l';
      Ok (if b : bool then a :: r else r)
  end.

(** [range(n)] *)
Definition range (n : Z) : list Z := seqZ 0 n.

(** Python's index normalisation for a sequence of length [n]: a negative
    index counts from the end, anything outside raises [IndexError]. *)
Definition py_index (n : nat) (i : Z) : option nat :=
  let i' := if i <? 0 then i + Z.of_nat n else i in
  if (i' <? 0) || (Z.of_nat n <=? i') then None else Some (Z.to_nat i').

(** [l[i]] *)
Definition getitem {A} (l : list A) (i : Z) : result A :=
  match py_index (length l) i with
  | None => Raise IndexError
  | Some k =>
      match l !! k with
      | Some a => Ok a
      | None => Raise IndexError
      end
  end.

(** ** Python's [random.Random] *)

Module Random.

(** The generator: the raw draws still to be consumed. *)
Definition t := list nat.

(** [_randbelow(n)]: a number in [[0, n)]. *)
Definition _randbelow (n : nat) (g : t) : nat * t :=
  match g with
  | [] => (0%nat, [])
  | r :: g' => ((r mod n)%nat, g')
  end.

(** [choice(seq)] is [seq[_randbelow(len(seq))]]. *)
Definition choice {A} (seq : list A) (g : t) : result (A * t) :=
  match seq with
  | [] => Raise IndexError
  | a :: _ =>
      let '(j, g') := _randbelow (length seq) g in
      Ok (nth j seq a, g')
  end.

(** The loop of [sample] over a pool: pick [pool[j]], move the last live
    element of the pool into the vacancy.  CPython keeps the dead tail of
    the pool and never reads it again; here it is cut off. *)
Fixpoint sample_pool (pool : list Z) (k : nat) (g : t) : list Z * t :=
  match k with
  | O => ([], g)
  | S k' =>
      let n := length pool in
      let '(j, g1) := _randbelow n g in
      let x := nth j pool 0 in
      let pool' := take (n - 1) (<[j := nth (n - 1) pool 0]> pool) in
      let '(rest, g2) := sample_pool pool' k' g1 in
      (x :: rest, g2)
  end.

(** [sample(population, k)]: [k] elements chosen without replacement.
    CPython switches to a rejection loop over a set of chosen indices for
    a large population; both loops return [k] pairwise different positions
    of the population, and the pool loop is the one modelled. *)
Definition sample (population : list Z) (k : Z) (g : t) : result (list Z * t) :=
  if (k <? 0) || (Z.of_nat (length population) <? k) then Raise ValueError
  else Ok (sample_pool population (Z.to_nat k) g).

End Random.

(** ** Agents *)

Definition Coordinate : Set := Z * Z.

Record CeldaAgent : Set := mkCelda {
  celda_id : Z;
  sucia : bool
}.

(** [CeldaAgent.limpiar] *)
Definition limpiar (c : CeldaAgent) : CeldaAgent :=
  {| celda_id := celda_id c; sucia := false |}.

Record LimpiadorAgent : Set := mkLimpiador {
  unique_id : Z;
  pos : Coordinate;
  movimientos : Z
}.

(** What a grid cell holds.  A [CeldaAgent] is referenced from its grid cell
    only, so the cell holds the object itself.  A [LimpiadorAgent] is shared
    between the grid and the scheduler: the grid holds a reference (the
    identity of the object, given by its [unique_id]) and the scheduler holds
    the object.  The constructor plays the role of [isinstance]. *)
Inductive Agent : Set :=
  | ACelda (c : CeldaAgent)
  | ALimpiador (uid : Z).

#[global] Instance CeldaAgent_eq_dec : EqDecision CeldaAgent.
Proof. solve_decision. Defined.
#[global] Instance Agent_eq_dec : EqDecision Agent.
Proof. solve_decision. Defined.
#[global] Instance LimpiadorAgent_eq_dec : EqDecision LimpiadorAgent.
Proof. solve_decision. Defined.

(** [isinstance(obj, CeldaAgent) and obj.sucia] *)
Definition es_celda_sucia (obj : Agent) : bool :=
  match obj with
  | ACelda c => sucia c
  | ALimpiador _ => false
  end.

(** [isinstance(content, CeldaAgent) and not content.sucia] *)
Definition es_celda_limpia (obj : Agent) : bool :=
  match obj with
  | ACelda c => negb (sucia c)
  | ALimpiador _ => false
  end.

(** [isinstance(a, LimpiadorAgent)] *)
Definition es_limpiador (obj : Agent) : bool :=
  match obj with
  | ACelda _ => false
  | ALimpiador _ => true
  end.

(** ** Mesa's [MultiGrid] *)

Record MultiGrid : Set := mkGrid {
  width : Z;
  height : Z;
  grid_cells : list (list (list Agent))   (* [_grid[x][y]] *)
}.

(** [MultiGrid(width, height, torus=False)].  Mesa releases differ on one
    point: some reject a size below 1 with [ValueError], the others build
    the (possibly empty) list of lists.  [strict] selects the first kind. *)
Definition MultiGrid_init (strict : bool) (w h : Z) : result MultiGrid :=
  if strict && ((w <? 1) || (h <? 1)) then Raise ValueError
  else Ok {| width := w; height := h;
             grid_cells := replicate (Z.to_nat w) (replicate (Z.to_nat h) []) |}.

(** [out_of_bounds(pos)] *)
Definition out_of_bounds (g : MultiGrid) (p : Coordinate) : bool :=
  let '(x, y) := p in
  (x <? 0) || (width g <=? x) || (y <? 0) || (height g <=? y).

(** [self._grid[x][y]], the value of [get_cell_list_contents([pos])]. *)
Definition get_cell_list_contents (g : MultiGrid) (p : Coordinate) : result (list Agent) :=
  col ← getitem (grid_cells g) (fst p);
  getitem col (snd p).

(** An in-place update of the list [self._grid[x][y]]. *)
Definition update_cell (f : list Agent → list Agent) (g : MultiGrid) (p : Coordinate)
  : result MultiGrid :=
  match py_index (length (grid_cells g)) (fst p) with
  | None => Raise IndexError
  | Some xi =>
      match grid_cells g !! xi with
      | None => Raise IndexError
      | Some col =>
          match py_index (length col) (snd p) with
          | None => Raise IndexError
          | Some yi =>
              Ok {| width := width g; height := height g;
                    grid_cells := alter (alter f yi) xi (grid_cells g) |}
          end
      end
  end.

(** [get_neighborhood(pos, moore=True, include_center=False)] on a grid
    that is not a torus: the offsets are visited with [dx] outermost, the
    coordinates outside the grid are skipped, and the centre is dropped.
    (Older Mesa releases visit [dy] outermost; only the order of the result
    differs.) *)
Definition get_neighborhood (g : MultiGrid) (p : Coordinate) : list Coordinate :=
  let cand :=
    dx ← [-1; 0; 1];
    dy ← [-1; 0; 1];
    [(fst p + dx, snd p + dy)] in
  filter (λ q, q ≠ p) (filter (λ q, out_of_bounds g q = false) cand).

(** [list.remove(x)]: drops the first occurrence, [ValueError] if none. *)
Fixpoint list_remove (a : Agent) (l : list Agent) : option (list Agent) :=
  match l with
  | [] => None
  | b :: l' =>
      if decide (b = a) then Some l'
      else l'' ← list_remove a l'; Some (b :: l'')
  end.

(** [place_agent(agent, pos)] for an agent that is on no cell (its [pos] is
    [None]): append it to the cell list.  Setting [agent.pos] is done by the
    caller, which owns the agent record. *)
Definition place_agent (g : MultiGrid) (a : Agent) (p : Coordinate) : result MultiGrid :=
  update_cell (λ l, l ++ [a]) g p.

(** [remove_agent(agent)], for an agent whose [pos] is [p]. *)
Definition remove_agent (g : MultiGrid) (a : Agent) (p : Coordinate) : result MultiGrid :=
  l ← get_cell_list_contents g p;
  match list_remove a l with
  | None => Raise ValueError
  | Some l' => update_cell (λ _, l') g p
  end.

(** [move_agent(agent, pos)]: [torus_adj] raises on a target outside a
    grid that is not a torus, then the agent is removed and placed. *)
Definition move_agent (g : MultiGrid) (a : Agent) (from to : Coordinate) : result MultiGrid :=
  if out_of_bounds g to then Raise Exception
  else g1 ← remove_agent g a from; place_agent g1 a to.

(** ** Mesa's [SimultaneousActivation] and the model *)

(** The scheduler: the dictionary [_agents] in insertion order (its keys
    are the [unique_id] fields) and the counter [steps]. *)
Record SimultaneousActivation : Set := mkSchedule {
  agents : list LimpiadorAgent;
  steps : Z
}.

(** One row of the data collector: the two model reporters. *)
Record Observation : Set := mkObservation {
  celdas_limpias_pct : Q;
  movimientos_totales : Z
}.

Record HabitacionModel : Set := mkModel {
  M : Z;
  N : Z;
  num_agentes : Z;
  celdas_sucias : Z;
  schedule : SimultaneousActivation;
  grid : MultiGrid;
  running : bool;
  dirty_positions : list Coordinate;   (* a set: kept free of duplicates *)
  datacollector : list Observation;    (* newest row last *)
  random : Random.t
}.

Definition set_grid (m : HabitacionModel) (g : MultiGrid) : HabitacionModel :=
  mkModel (M m) (N m) (num_agentes m) (celdas_sucias m) (schedule m) g
          (running m) (dirty_positions m) (datacollector m) (random m).

Definition set_schedule (m : HabitacionModel) (s : SimultaneousActivation) : HabitacionModel :=
  mkModel (M m) (N m) (num_agentes m) (celdas_sucias m) s (grid m)
          (running m) (dirty_positions m) (datacollector m) (random m).

Definition set_running (m : HabitacionModel) (b : bool) : HabitacionModel :=
  mkModel (M m) (N m) (num_agentes m) (celdas_sucias m) (schedule m) (grid m)
          b (dirty_positions m) (datacollector m) (random m).

Definition set_datacollector (m : HabitacionModel) (d : list Observation) : HabitacionModel :=
  mkModel (M m) (N m) (num_agentes m) (celdas_sucias m) (schedule m) (grid m)
          (running m) (dirty_positions m) d (random m).

Definition set_random (m : HabitacionModel) (r : Random.t) : HabitacionModel :=
  mkModel (M m) (N m) (num_agentes m) (celdas_sucias m) (schedule m) (grid m)
          (running m) (dirty_positions m) (datacollector m) r.

(** [SimultaneousActivation(model)]: no agent, no step taken. *)
Definition SimultaneousActivation_init : SimultaneousActivation :=
  {| agents := []; steps := 0 |}.

(** [schedule._agents[key]] *)
Definition find_agent (key : Z) (l : list LimpiadorAgent) : result LimpiadorAgent :=
  match List.find (λ a, unique_id a =? key) l with
  | Some a => Ok a
  | None => Raise KeyError
  end.

(** Writing back the attributes of the agent object with identity [key]. *)
Definition store_agent (a : LimpiadorAgent) (l : list LimpiadorAgent) : list LimpiadorAgent :=
  (λ b, if unique_id b =? unique_id a then a else b) <$> l.

Definition set_agents (m : HabitacionModel) (l : list LimpiadorAgent) : HabitacionModel :=
  set_schedule m {| agents := l; steps := steps (schedule m) |}.

(** [schedule.add(agent)] *)
Definition schedule_add (s : SimultaneousActivation) (a : LimpiadorAgent)
  : result SimultaneousActivation :=
  if existsb (λ b, unique_id b =? unique_id a) (agents s) then Raise Exception
  else Ok {| agents := agents s ++ [a]; steps := steps s |}.

(** *** [LimpiadorAgent] *)

(** The comprehension of [mover]: the neighbours holding no cleaner. *)
Definition valid_moves (g : MultiGrid) (posibles_movimientos : list Coordinate)
  : result (list Coordinate) :=
  filterM (λ p, l ← get_cell_list_contents g p; Ok (negb (existsb es_limpiador l)))
          posibles_movimientos.

(** [LimpiadorAgent.mover] *)
Definition mover (m : HabitacionModel) (key : Z) : result HabitacionModel :=
  self ← find_agent key (agents (schedule m));
  let posibles_movimientos := get_neighborhood (grid m) (pos self) in
  vm ← valid_moves (grid m) posibles_movimientos;
  match vm with
  | [] => Ok m
  | _ :: _ =>
      '(nueva_posicion, r) ← Random.choice vm (random m);
      g ← move_agent (grid m) (ALimpiador key) (pos self) nueva_posicion;
      let self' := {| unique_id := unique_id self;
                      pos := nueva_posicion;
                      movimientos := movimientos self + 1 |} in
      Ok (set_agents (set_grid (set_random m r) g)
                     (store_agent self' (agents (schedule m))))
  end.

(** The loop of [step] that cleans: every dirty [CeldaAgent] of the cell. *)
Definition limpiar_celda (l : list Agent) : list Agent :=
  (λ obj, match obj with
          | ACelda c => if sucia c then ACelda (limpiar c) else obj
          | ALimpiador _ => obj
          end) <$> l.

(** [LimpiadorAgent.step] *)
Definition LimpiadorAgent_step (m : HabitacionModel) (key : Z) : result HabitacionModel :=
  self ← find_agent key (agents (schedule m));
  celda ← get_cell_list_contents (grid m) (pos self);
  if existsb es_celda_sucia celda then
    g ← update_cell limpiar_celda (grid m) (pos self);
    Ok (set_grid m g)
  else mover m key.

(** [SimultaneousActivation.step]: [step] of every agent in insertion
    order, then [advance] of every agent, then the counter.  Neither agent
    class defines [advance], so Mesa's empty [Agent.advance] runs. *)
Definition SimultaneousActivation_step (m : HabitacionModel) : result HabitacionModel :=
  let agent_keys := unique_id <$> agents (schedule m) in
  m1 ← foldM LimpiadorAgent_step agent_keys m;
  Ok (set_schedule m1 {| agents := agents (schedule m1);
                         steps := steps (schedule m1) + 1 |}).

(** *** [HabitacionModel] *)

(** The generator expression summed in [contar_celdas_limpias]. *)
Definition celdas_limpias (g : MultiGrid) (dirty : list Coordinate) : result Z :=
  foldM (λ acc p, l ← get_cell_list_contents g p;
                  Ok (acc + Z.of_nat (length (filter (λ c, es_celda_limpia c = true) l))))
        dirty 0.

(** [HabitacionModel.contar_celdas_limpias] *)
Definition contar_celdas_limpias (m : HabitacionModel) : result Q :=
  n ← celdas_limpias (grid m) (dirty_positions m);
  if celdas_sucias m =? 0 then Raise ZeroDivisionError
  else Ok ((inject_Z n / inject_Z (celdas_sucias m)) * 100)%Q.

(** [HabitacionModel.contar_movimientos] *)
Definition contar_movimientos (m : HabitacionModel) : Z :=
  foldr Z.add 0 (movimientos <$> agents (schedule m)).

(** [datacollector.collect(self)]: calls the reporters in the order of the
    dictionary and appends one row. *)
Definition collect (m : HabitacionModel) : result HabitacionModel :=
  p ← contar_celdas_limpias m;
  let t := contar_movimientos m in
  Ok (set_datacollector m (datacollector m ++ [mkObservation p t])).

(** [HabitacionModel.step] *)
Definition HabitacionModel_step (m : HabitacionModel) : result HabitacionModel :=
  m1 ← collect m;
  porcentaje_limpias ← contar_celdas_limpias m1;
  if Qle_bool 100 porcentaje_limpias then Ok (set_running m1 false)
  else SimultaneousActivation_step m1.

(** The state threaded through the two nested loops of [__init__]. *)
Record InitCells : Set := mkInitCells {
  ic_unique_id : Z;
  ic_grid : MultiGrid;
  ic_dirty : list Coordinate
}.

(** The body of the inner loop of [__init__]. *)
Definition init_celda (posiciones_sucias : list Z) (i : Z) (st : InitCells) (j : Z)
  : result InitCells :=
  let uid := ic_unique_id st in
  let dirty := bool_decide (uid ∈ posiciones_sucias) in
  let celda := {| celda_id := uid; sucia := dirty |} in
  g ← place_agent (ic_grid st) (ACelda celda) (i, j);
  Ok {| ic_unique_id := uid + 1;
        ic_grid := g;
        ic_dirty := if dirty then ic_dirty st ++ [(i, j)] else ic_dirty st |}.

(** The loop of [__init__] that adds the cleaners. *)
Definition init_limpiador (st : MultiGrid * SimultaneousActivation) (i : Z)
  : result (MultiGrid * SimultaneousActivation) :=
  let limpiador := {| unique_id := i; pos := (1, 1); movimientos := 0 |} in
  g ← place_agent (fst st) (ALimpiador i) (1, 1);
  s ← schedule_add (snd st) limpiador;
  Ok (g, s).

(** [HabitacionModel.__init__].  [seed] is the generator that
    [Model.__new__] installs as [self.random]. *)
Definition HabitacionModel_init (strict : bool) (M N num_agentes celdas_sucias : Z)
    (seed : Random.t) : result HabitacionModel :=
  let schedule0 := SimultaneousActivation_init in
  grid0 ← MultiGrid_init strict M N;
  let total_celdas := M * N in
  '(posiciones_sucias, r) ← Random.sample (range total_celdas) celdas_sucias seed;
  st ← foldM (λ st i, foldM (init_celda posiciones_sucias i) (range N) st)
             (range M) {| ic_unique_id := 0; ic_grid := grid0; ic_dirty := [] |};
  '(g, s) ← foldM init_limpiador (range num_agentes) (ic_grid st, schedule0);
  Ok {| M := M; N := N; num_agentes := num_agentes; celdas_sucias := celdas_sucias;
        schedule := s; grid := g; running := true;
        dirty_positions := ic_dirty st; datacollector := []; random := r |}.

(** Repeated calls of [step], as a driver makes them. *)
Fixpoint run (n : nat) (m : HabitacionModel) : result HabitacionModel :=
  match n with
  | O => Ok m
  | S n' => m' ← HabitacionModel_step m; run n' m'
  end.

(** ** The portrayal of the agents *)

(** A value of a portrayal dictionary. *)
Inductive pyval : Set :=
  | VStr (s : string)
  | VInt (z : Z)
  | VFloat (q : Q).

(** [agent_portrayal]: the dictionary literal, in the order it is written.
    The two branches cover the two agent classes of the program (for
    anything else the Python function returns [None]). *)
Definition agent_portrayal (agent : Agent) : list (string * pyval) :=
  match agent with
  | ALimpiador _ =>
      [("Shape", VStr "circle"); ("Filled", VStr "true"); ("Layer", VInt 1);
       ("Color", VStr "blue"); ("r", VFloat 0.5)]%string
  | ACelda c =>
      let color := (if sucia c then "red" else "white")%string in
      [("Shape", VStr "rect"); ("Filled", VStr "true"); ("Layer", VInt 0);
       ("Color", VStr color); ("w", VInt 1); ("h", VInt 1)]%string
  end.

(** [d[key]] on such a dictionary, [None] for a missing key. *)
Definition dict_get (key : string) (d : list (string * pyval)) : option pyval :=
  snd <$> List.find (λ kv, String.eqb (fst kv) key) d.

(** * The vocabulary of the properties

    Predicates and auxiliary functions used to state what the program does:
    the invariant of the model, the outcomes of a step, the loops of the
    constructor described by their invariants, and the round of the spec. *)

(** The list of lists has the announced size. *)
Definition grid_shape (g : MultiGrid) : Prop :=
  length (grid_cells g) = Z.to_nat (width g) ∧
  Forall (λ col, length col = Z.to_nat (height g)) (grid_cells g).

(** The content of a cell, with the empty list where the grid raises. *)
Definition contents (g : MultiGrid) (p : Coordinate) : list Agent :=
  match get_cell_list_contents g p with
  | Ok l => l
  | Raise _ => []
  end.

(** The neighbours of [p] that hold no cleaner. *)
Definition libres (g : MultiGrid) (p : Coordinate) : list Coordinate :=
  filter (λ q, existsb es_limpiador (contents g q) = false) (get_neighborhood g p).

(** A cleaner is on the grid at the cell its [pos] names. *)
Definition agent_placed (g : MultiGrid) (a : LimpiadorAgent) : Prop :=
  out_of_bounds g (pos a) = false ∧ ALimpiador (unique_id a) ∈ contents g (pos a).

(** The invariant of the model: the grid has its size, every scheduled
    cleaner is on the grid where its [pos] says, the keys of the schedule
    are pairwise different, the coordinates recorded as dirty are on the
    grid, and the dirty count is not negative. *)
Definition wf (m : HabitacionModel) : Prop :=
  grid_shape (grid m) ∧
  Forall (agent_placed (grid m)) (agents (schedule m)) ∧
  NoDup (unique_id <$> agents (schedule m)) ∧
  Forall (λ p, out_of_bounds (grid m) p = false) (dirty_positions m) ∧
  0 ≤ celdas_sucias m.

#[global] Instance wf_dec (m : HabitacionModel) : Decision (wf m).
Proof. unfold wf, grid_shape, agent_placed. apply _. Defined.

(** What a step of an agent leaves alone. *)
Definition same_settings (m m' : HabitacionModel) : Prop :=
  M m' = M m ∧ N m' = N m ∧ num_agentes m' = num_agentes m ∧
  celdas_sucias m' = celdas_sucias m ∧
  dirty_positions m' = dirty_positions m ∧
  running m' = running m ∧ datacollector m' = datacollector m ∧
  steps (schedule m') = steps (schedule m) ∧
  width (grid m') = width (grid m) ∧ height (grid m') = height (grid m) ∧
  unique_id <$> agents (schedule m') = unique_id <$> agents (schedule m).

(** The three ways one [LimpiadorAgent.step] can end. *)
Inductive step_outcome (m : HabitacionModel) (self : LimpiadorAgent)
    (m' : HabitacionModel) : Prop :=
  | outcome_clean g' :
      existsb es_celda_sucia (contents (grid m) (pos self)) = true →
      update_cell limpiar_celda (grid m) (pos self) = Ok g' →
      m' = set_grid m g' →
      step_outcome m self m'
  | outcome_stay :
      existsb es_celda_sucia (contents (grid m) (pos self)) = false →
      libres (grid m) (pos self) = [] →
      m' = m →
      step_outcome m self m'
  | outcome_move q r g' :
      existsb es_celda_sucia (contents (grid m) (pos self)) = false →
      Random.choice (libres (grid m) (pos self)) (random m) = Ok (q, r) →
      q ∈ libres (grid m) (pos self) →
      move_agent (grid m) (ALimpiador (unique_id self)) (pos self) q = Ok g' →
      m' = set_agents (set_grid (set_random m r) g')
             (store_agent (mkLimpiador (unique_id self) q (movimientos self + 1))
                          (agents (schedule m))) →
      step_outcome m self m'.

(** The clean cells counted at one coordinate by [contar_celdas_limpias]. *)
Definition limpias_en (g : MultiGrid) (p : Coordinate) : Z :=
  Z.of_nat (length (filter (λ c, es_celda_limpia c = true) (contents g p))).

(** From [g] to [g'] no coordinate loses a clean cell, and every cell that
    is dirty in [g'] was the same dirty cell in [g]. *)
Definition no_ensucia (g g' : MultiGrid) : Prop :=
  ∀ q, out_of_bounds g q = false →
    limpias_en g q ≤ limpias_en g' q ∧
    ∀ c, ACelda c ∈ contents g' q → sucia c = true → ACelda c ∈ contents g q.

(** The clean cells over the coordinates that started dirty. *)
Definition total_limpias (g : MultiGrid) (dirty : list Coordinate) : Z :=
  foldr (λ p acc, limpias_en g p + acc) 0 dirty.

(** The value computed from the count and the initial number of dirty cells. *)
Definition porcentaje (n d : Z) : Q := ((inject_Z n / inject_Z d) * 100)%Q.

(** The coordinate of the cell created with identifier [u]. *)
Definition coord (h u : Z) : Coordinate := (u / h, u mod h).

(** The [CeldaAgent] created with identifier [u]. *)
Definition celda_inicial (posiciones_sucias : list Z) (u : Z) : Agent :=
  ACelda {| celda_id := u; sucia := bool_decide (u ∈ posiciones_sucias) |}.

(** What holds in every state of the two loops. *)
Definition cells_inv (w h : Z) (st : InitCells) : Prop :=
  grid_shape (ic_grid st) ∧ width (ic_grid st) = w ∧ height (ic_grid st) = h ∧
  Forall (λ p, out_of_bounds (ic_grid st) p = false) (ic_dirty st).

(** What holds when [u] cells have been created. *)
Definition cells_done (posiciones_sucias : list Z) (w h u : Z) (st : InitCells) : Prop :=
  ic_unique_id st = u ∧ cells_inv w h st ∧
  (∀ x y, 0 ≤ x < w → 0 ≤ y < h →
     contents (ic_grid st) (x, y) =
     if x * h + y <? u then [celda_inicial posiciones_sucias (x * h + y)] else []) ∧
  ic_dirty st = coord h <$> filter (λ v, v ∈ posiciones_sucias) (range u).

(** The [LimpiadorAgent] created with identifier [k]. *)
Definition limpiador_inicial (k : Z) : LimpiadorAgent :=
  {| unique_id := k; pos := (1, 1); movimientos := 0 |}.

(** What holds when [i] cleaners have been added. *)
Definition limpiadores_done (g0 : MultiGrid) (i : Z)
    (st : MultiGrid * SimultaneousActivation) : Prop :=
  grid_shape (fst st) ∧ width (fst st) = width g0 ∧ height (fst st) = height g0 ∧
  contents (fst st) (1, 1) = contents g0 (1, 1) ++ (ALimpiador <$> range i) ∧
  (∀ q, out_of_bounds g0 q = false → q ≠ (1, 1) → contents (fst st) q = contents g0 q) ∧
  agents (snd st) = limpiador_inicial <$> range i ∧
  steps (snd st) = 0.

(** The parameters on which [__init__] raises. *)
Definition init_raises (strict : bool) (M N num_agentes celdas_sucias : Z) : Prop :=
  (strict = true ∧ (M ≤ 0 ∨ N ≤ 0)) ∨
  celdas_sucias < 0 ∨ Z.max 0 (M * N) < celdas_sucias ∨
  (1 ≤ num_agentes ∧ (M ≤ 1 ∨ N ≤ 1)).

#[global] Instance init_raises_dec strict M N num_agentes celdas_sucias :
  Decision (init_raises strict M N num_agentes celdas_sucias).
Proof. unfold init_raises. apply _. Defined.

(** The model that [__init__] returns, described by its parts: [ps] is the
    sample and [gc] the grid when the cells have been created. *)
Definition init_result (M0 N0 num_agentes0 celdas_sucias0 : Z) (seed : Random.t)
    (m : HabitacionModel) (ps : list Z) (gc : MultiGrid) : Prop :=
  Random.sample (range (M0 * N0)) celdas_sucias0 seed = Ok (ps, random m) ∧
  (M m = M0 ∧ N m = N0 ∧ num_agentes m = num_agentes0 ∧
   celdas_sucias m = celdas_sucias0 ∧ running m = true ∧ datacollector m = []) ∧
  (grid_shape gc ∧ width gc = M0 ∧ height gc = N0) ∧
  Forall (λ p, out_of_bounds gc p = false) (dirty_positions m) ∧
  limpiadores_done gc (Z.max 0 num_agentes0) (grid m, schedule m) ∧
  (1 ≤ num_agentes0 → 2 ≤ M0 ∧ 2 ≤ N0) ∧
  (0 < N0 →
   (∀ x y, 0 ≤ x < M0 → 0 ≤ y < N0 →
      contents gc (x, y) = [celda_inicial ps (x * N0 + y)]) ∧
   dirty_positions m =
     coord N0 <$> filter (λ v, v ∈ ps) (range (Z.max 0 M0 * N0))).

(** The model after [datacollector.collect]. *)
Definition observado (m : HabitacionModel) : HabitacionModel :=
  set_datacollector m
    (datacollector m ++
     [mkObservation (porcentaje (total_limpias (grid m) (dirty_positions m)) (celdas_sucias m))
                    (contar_movimientos m)]).

(** The models a driver can see: the result of [__init__], and the result
    of [step] on such a model. *)
Inductive reachable : HabitacionModel → Prop :=
  | reachable_init strict M0 N0 num_agentes0 celdas_sucias0 seed m :
      HabitacionModel_init strict M0 N0 num_agentes0 celdas_sucias0 seed = Ok m →
      reachable m
  | reachable_step m m' :
      reachable m → HabitacionModel_step m = Ok m' → reachable m'.

(** The reading of C5 on the grid as it was before the round: an agent that
    moved did not land where another cleaner stood then. *)
Definition snapshot_no_overlap (m m' : HabitacionModel) : Prop :=
  ∀ b b' k, b ∈ agents (schedule m) → b' ∈ agents (schedule m') →
            unique_id b' = unique_id b → pos b' ≠ pos b → k ≠ unique_id b →
            ALimpiador k ∉ contents (grid m) (pos b').

(** What a simulation is made of apart from the flag [running] and the
    rows of the data collector. *)
Definition simulation_state (m : HabitacionModel)
  : MultiGrid * SimultaneousActivation * Random.t * list Coordinate * Z :=
  (grid m, schedule m, random m, dirty_positions m, celdas_sucias m).

(** The model after a call of [step] that found everything clean. *)
Definition terminado (m : HabitacionModel) (p : Q) : HabitacionModel :=
  set_running
    (set_datacollector m (datacollector m ++ [mkObservation p (contar_movimientos m)]))
    false.

(** What an agent proposes to do. *)
Inductive Action : Set :=
  | Clean
  | Stay
  | Move (to : Coordinate).

(** The decision of one agent, read off a grid [snapshot]. *)
Definition decision (snapshot : MultiGrid) (self : LimpiadorAgent) (r : Random.t)
  : result (Action * Random.t) :=
  celda ← get_cell_list_contents snapshot (pos self);
  if existsb es_celda_sucia celda then Ok (Clean, r)
  else
    vm ← valid_moves snapshot (get_neighborhood snapshot (pos self));
    match vm with
    | [] => Ok (Stay, r)
    | _ :: _ => '(q, r') ← Random.choice vm r; Ok (Move q, r')
    end.

(** Carrying out a proposed action. *)
Definition apply_action (m : HabitacionModel) (key : Z) (a : Action)
  : result HabitacionModel :=
  self ← find_agent key (agents (schedule m));
  match a with
  | Clean => g ← update_cell limpiar_celda (grid m) (pos self); Ok (set_grid m g)
  | Stay => Ok m
  | Move q =>
      g ← move_agent (grid m) (ALimpiador key) (pos self) q;
      Ok (set_agents (set_grid m g)
            (store_agent {| unique_id := unique_id self; pos := q;
                            movimientos := movimientos self + 1 |}
                         (agents (schedule m))))
  end.

(** The round as the spec words it, in two phases: every agent decides on
    one snapshot of the grid taken before the round (the generator is
    consulted in the order of the schedule), then the collected actions are
    applied in that order and the step counter is incremented.  Two agents
    that chose the same cell both end on it, as the grid allows. *)
Definition spec_two_phase_round (m : HabitacionModel) : result HabitacionModel :=
  let snapshot := grid m in
  '(decisions, r) ←
    foldM (λ '(acc, r) self,
             '(a, r') ← decision snapshot self r;
             Ok (acc ++ [(unique_id self, a)], r'))
          (agents (schedule m)) ([], random m);
  m1 ← foldM (λ m '(key, a), apply_action m key a) decisions (set_random m r);
  Ok (set_schedule m1 {| agents := agents (schedule m1);
                         steps := steps (schedule m1) + 1 |}).

(** The round as the code runs it: an agent decides on the grid as it is
    when its turn comes, and its action is applied before the next agent
    decides. *)
Definition decide_and_apply (m : HabitacionModel) (key : Z) : result HabitacionModel :=
  self ← find_agent key (agents (schedule m));
  '(a, r) ← decision (grid m) self (random m);
  apply_action (set_random m r) key a.

(** A round of [decide_and_apply] over the schedule. *)
Definition interleaved_round (m : HabitacionModel) : result HabitacionModel :=
  m1 ← foldM decide_and_apply (unique_id <$> agents (schedule m)) m;
  Ok (set_schedule m1 {| agents := agents (schedule m1);
                         steps := steps (schedule m1) + 1 |}).

(** The cleaners whose [pos] is [q], by identifier. *)
Definition agent_at (l : list LimpiadorAgent) (q : Coordinate) (k : Z) : Prop :=
  ∃ a, a ∈ l ∧ unique_id a = k ∧ pos a = q.

(** The cell list at [q] is as the program keeps it: first the one
    [CeldaAgent] created for [q], dirty only if [q] was recorded as dirty,
    then one reference for each cleaner whose [pos] is [q]; and several
    cleaners share [q] only if [q] is the start cell (1, 1) and none of them
    has moved yet. *)
Definition cell_ok (m : HabitacionModel) (q : Coordinate) : Prop :=
  ∃ c ls,
    contents (grid m) q = ACelda c :: (ALimpiador <$> ls) ∧
    celda_id c = fst q * height (grid m) + snd q ∧
    (sucia c = true → q ∈ dirty_positions m) ∧
    NoDup ls ∧
    (∀ k, k ∈ ls ↔ agent_at (agents (schedule m)) q k) ∧
    ((length ls ≤ 1)%nat ∨
     (q = (1, 1) ∧
      ∀ a, a ∈ agents (schedule m) → pos a = q → movimientos a = 0)).

(** The full invariant of the simulation. *)
Definition inv (m : HabitacionModel) : Prop :=
  wf m ∧
  (∀ q, out_of_bounds (grid m) q = false → cell_ok m q) ∧
  (0 < width (grid m) → 0 < height (grid m) →
   Z.of_nat (length (dirty_positions m)) = celdas_sucias m) ∧
  width (grid m) = M m ∧ height (grid m) = N m ∧
  unique_id <$> agents (schedule m) = range (num_agentes m) ∧
  Forall (λ a, 0 ≤ movimientos a) (agents (schedule m)).

(** How the record of one cleaner changes over one round. *)
Definition moved_or_stayed (g : MultiGrid) (a a' : LimpiadorAgent) : Prop :=
  unique_id a' = unique_id a ∧
  ((pos a' = pos a ∧ movimientos a' = movimientos a) ∨
   (pos a' ≠ pos a ∧ pos a' ∈ get_neighborhood g (pos a) ∧
    movimientos a' = movimientos a + 1)).

(** The rows of the data collector never go down, and none is above the
    pair [(p, t)]. *)
Definition rows_below (rows : list Observation) (p : Q) (t : Z) : Prop :=
  (∀ i j r r', (i ≤ j)%nat → rows !! i = Some r → rows !! j = Some r' →
     (celdas_limpias_pct r <= celdas_limpias_pct r')%Q ∧
     movimientos_totales r ≤ movimientos_totales r') ∧
  (∀ r, r ∈ rows →
     (celdas_limpias_pct r <= p)%Q ∧ movimientos_totales r ≤ t).




(** * Properties *)

Example init_3x3 :
  (m ← HabitacionModel_init false 3 3 2 1 [4%nat]; Ok (dirty_positions m, agents (schedule m)))
  = Ok ([(1, 1)], [mkLimpiador 0 (1, 1) 0; mkLimpiador 1 (1, 1) 0]).
Proof. vm_compute. reflexivity. Qed.

(** ** The error monad *)

Lemma bind_Ok {A B} (r : result A) (f : A → result B) (b : B) :
  (r ≫= f) = Ok b ↔ ∃ a, r = Ok a ∧ f a = Ok b.
Proof.
  destruct r as [a|e]; simpl; split.
  - intros H. exists a. split; [reflexivity | exact H].
  - intros (a' & Ha & Hf). injection Ha as ->. exact Hf.
  - intros H; discriminate H.
  - intros (a' & Ha & _). discriminate Ha.
Qed.

(** A loop invariant for [foldM]. *)
Lemma foldM_invariant {A B} (f : B → A → result B) (P : B → Prop) (l : list A) :
  (∀ b a b', a ∈ l → P b → f b a = Ok b' → P b') →
  ∀ b b', P b → foldM f l b = Ok b' → P b'.
Proof.
  induction l as [|a l IH]; intros Hf b b' Hb H; simpl in H.
  - injection H as <-. exact Hb.
  - apply bind_Ok in H as (a0 & Ha & H). apply (IH (λ b a b' Ha, Hf b a b' (list_elem_of_further _ _ _ Ha)) a0); [|exact H].
    apply (Hf b a a0); [left | exact Hb | exact Ha].
Qed.

(** A loop whose body cannot raise under the invariant does not raise. *)
Lemma foldM_total {A B} (f : B → A → result B) (P : B → Prop) (l : list A) :
  (∀ b a, a ∈ l → P b → ∃ b', f b a = Ok b' ∧ P b') →
  ∀ b, P b → ∃ b', foldM f l b = Ok b' ∧ P b'.
Proof.
  induction l as [|a l IH]; intros Hf b Hb; simpl.
  - eauto.
  - destruct (Hf b a) as (b1 & H1 & Hb1); [left | exact Hb |].
    rewrite H1. simpl. apply IH; [|exact Hb1].
    intros b2 a2 Ha2. apply Hf. right. exact Ha2.
Qed.

(** ** Indexing *)

Lemma py_index_inb (n : nat) (i : Z) :
  0 ≤ i < Z.of_nat n → py_index n i = Some (Z.to_nat i).
Proof.
  intros [H0 Hn]. unfold py_index.
  destruct (Z.ltb_spec i 0); [lia|].
  destruct (Z.ltb_spec i 0); [lia|].
  destruct (Z.leb_spec (Z.of_nat n) i); [lia|]. reflexivity.
Qed.

Lemma py_index_high (n : nat) (i : Z) :
  Z.of_nat n ≤ i → py_index n i = None.
Proof.
  intros H. unfold py_index.
  destruct (Z.ltb_spec i 0); [lia|].
  destruct (Z.ltb_spec i 0); [lia|].
  destruct (Z.leb_spec (Z.of_nat n) i); [reflexivity|lia].
Qed.

Lemma getitem_inb {A} (l : list A) (i : Z) (a : A) :
  0 ≤ i → l !! Z.to_nat i = Some a → getitem l i = Ok a.
Proof.
  intros H0 Hl. unfold getitem.
  rewrite py_index_inb.
  - rewrite Hl. reflexivity.
  - apply lookup_lt_Some in Hl. lia.
Qed.

(** ** The grid *)

Lemma out_of_bounds_false (g : MultiGrid) (p : Coordinate) :
  out_of_bounds g p = false ↔ 0 ≤ fst p < width g ∧ 0 ≤ snd p < height g.
Proof.
  destruct p as [x y]. unfold out_of_bounds. simpl.
  rewrite !orb_false_iff, !Z.ltb_ge, !Z.leb_gt. lia.
Qed.

Lemma inb_column (g : MultiGrid) (p : Coordinate) :
  grid_shape g → out_of_bounds g p = false →
  ∃ col, grid_cells g !! Z.to_nat (fst p) = Some col ∧
         length col = Z.to_nat (height g) ∧
         ∃ l, col !! Z.to_nat (snd p) = Some l.
Proof.
  intros [Hw Hh] Hp. apply out_of_bounds_false in Hp as [Hx Hy].
  destruct (lookup_lt_is_Some_2 (grid_cells g) (Z.to_nat (fst p))) as [col Hcol]; [lia|].
  exists col. split; [exact Hcol|].
  assert (Hlen : length col = Z.to_nat (height g)).
  { exact (Forall_lookup_1 _ _ _ _ Hh Hcol). }
  split; [exact Hlen|].
  apply lookup_lt_is_Some_2. lia.
Qed.

Lemma get_cell_inb (g : MultiGrid) (p : Coordinate) :
  grid_shape g → out_of_bounds g p = false →
  get_cell_list_contents g p = Ok (contents g p).
Proof.
  intros Hg Hp. destruct (inb_column g p Hg Hp) as (col & Hcol & Hlen & l & Hl).
  apply out_of_bounds_false in Hp as [Hx Hy].
  unfold contents, get_cell_list_contents.
  rewrite (getitem_inb _ _ col); [|lia|exact Hcol]. simpl.
  rewrite (getitem_inb _ _ l); [reflexivity|lia|exact Hl].
Qed.

Lemma contents_lookup (g : MultiGrid) (p : Coordinate) col l :
  0 ≤ fst p → 0 ≤ snd p →
  grid_cells g !! Z.to_nat (fst p) = Some col →
  col !! Z.to_nat (snd p) = Some l →
  contents g p = l.
Proof.
  intros Hx Hy Hcol Hl. unfold contents, get_cell_list_contents.
  rewrite (getitem_inb _ _ col); [|lia|exact Hcol]. simpl.
  rewrite (getitem_inb _ _ l); [reflexivity|lia|exact Hl].
Qed.

(** What an in-place update of one cell does to the grid. *)
Lemma update_cell_inb (f : list Agent → list Agent) (g : MultiGrid) (p : Coordinate) :
  grid_shape g → out_of_bounds g p = false →
  ∃ g', update_cell f g p = Ok g' ∧
        width g' = width g ∧ height g' = height g ∧ grid_shape g' ∧
        contents g' p = f (contents g p) ∧
        ∀ q, out_of_bounds g q = false → q ≠ p → contents g' q = contents g q.
Proof.
  intros Hg Hp. destruct (inb_column g p Hg Hp) as (col & Hcol & Hlen & l & Hl).
  pose proof Hp as Hp'. apply out_of_bounds_false in Hp' as [Hx Hy].
  destruct Hg as [Hw Hh].
  unfold update_cell.
  rewrite py_index_inb by lia. rewrite Hcol. rewrite py_index_inb by lia.
  eexists. split; [reflexivity|]. simpl.
  split; [reflexivity|]. split; [reflexivity|].
  assert (Hl0 : contents g p = l) by (apply (contents_lookup g p col l); [lia|lia|exact Hcol|exact Hl]).
  split; [|split].
  - split; simpl.
    + rewrite length_alter. exact Hw.
    + apply Forall_lookup. intros i c Hi.
      destruct (decide (Z.to_nat (fst p) = i)) as [<-|Hne].
      * rewrite list_lookup_alter_eq, Hcol in Hi. simpl in Hi. injection Hi as <-.
        rewrite length_alter. exact Hlen.
      * rewrite list_lookup_alter_ne in Hi by exact Hne.
        exact (Forall_lookup_1 _ _ _ _ Hh Hi).
  - rewrite Hl0. apply contents_lookup with (col := alter f (Z.to_nat (snd p)) col); simpl; try lia.
    + rewrite list_lookup_alter_eq, Hcol. reflexivity.
    + rewrite list_lookup_alter_eq, Hl. reflexivity.
  - intros q Hq Hne.
    destruct (inb_column g q (conj Hw Hh) Hq) as (colq & Hcolq & Hlenq & lq & Hlq).
    apply out_of_bounds_false in Hq as [Hqx Hqy].
    rewrite (contents_lookup g q colq lq) by (try lia; assumption).
    destruct (decide (Z.to_nat (fst p) = Z.to_nat (fst q))) as [Heq|Hneq].
    + apply contents_lookup with (col := alter f (Z.to_nat (snd p)) colq); simpl; try lia.
      * rewrite Heq, list_lookup_alter_eq. rewrite <- Heq in Hcolq.
        rewrite Hcolq in Hcol. injection Hcol as ->. rewrite Heq in Hcolq.
        rewrite Hcolq. reflexivity.
      * rewrite list_lookup_alter_ne; [exact Hlq|].
        intros Hy'. apply Hne. destruct p, q; simpl in *. f_equal; lia.
    + apply contents_lookup with (col := colq); simpl; try lia.
      * rewrite list_lookup_alter_ne; [exact Hcolq | exact Hneq].
      * exact Hlq.
Qed.

(** *** The neighbourhood query *)

Lemma elem_of_get_neighborhood (g : MultiGrid) (p q : Coordinate) :
  q ∈ get_neighborhood g p ↔
  out_of_bounds g q = false ∧ q ≠ p ∧
  -1 ≤ fst q - fst p ≤ 1 ∧ -1 ≤ snd q - snd p ≤ 1.
Proof.
  destruct p as [x y], q as [x' y']. unfold get_neighborhood.
  rewrite !list_elem_of_filter. simpl.
  rewrite !elem_of_cons, elem_of_nil. split.
  - intros (Hne & Hb & Hc). split; [exact Hb|]. split; [exact Hne|].
    repeat (destruct Hc as [Hc|Hc]; [injection Hc as -> ->; lia|]).
    destruct Hc.
  - intros (Hb & Hne & Hx & Hy). split; [exact Hne|]. split; [exact Hb|].
    assert (Hx' : x' = x + -1 ∨ x' = x + 0 ∨ x' = x + 1) by lia.
    assert (Hy' : y' = y + -1 ∨ y' = y + 0 ∨ y' = y + 1) by lia.
    destruct Hx' as [->|[->| ->]]; destruct Hy' as [->|[->| ->]]; tauto.
Qed.

Lemma get_neighborhood_dims (g g' : MultiGrid) (p : Coordinate) :
  width g' = width g → height g' = height g →
  get_neighborhood g' p = get_neighborhood g p.
Proof.
  intros Hw Hh. unfold get_neighborhood.
  f_equal. apply list_filter_iff. intros q.
  unfold out_of_bounds. destruct q. rewrite Hw, Hh. reflexivity.
Qed.

Lemma filterM_Ok {A} (p : A → result bool) (b : A → bool) (l : list A) :
  (∀ a, a ∈ l → p a = Ok (b a)) →
  filterM p l = Ok (filter (λ a, b a = true) l).
Proof.
  induction l as [|a l IH]; intros H; simpl; [reflexivity|].
  rewrite (H a) by left. simpl.
  rewrite IH by (intros a' Ha'; apply H; right; exact Ha'). simpl.
  rewrite filter_cons. destruct (b a); reflexivity.
Qed.

Lemma valid_moves_libres (g : MultiGrid) (p : Coordinate) :
  grid_shape g →
  valid_moves g (get_neighborhood g p) = Ok (libres g p).
Proof.
  intros Hg. unfold valid_moves, libres.
  rewrite (filterM_Ok _ (λ q, negb (existsb es_limpiador (contents g q)))).
  - f_equal. apply list_filter_iff. intros q.
    destruct (existsb es_limpiador (contents g q)); simpl; split; congruence.
  - intros q Hq. apply elem_of_get_neighborhood in Hq as (Hb & _).
    rewrite (get_cell_inb g q Hg Hb). reflexivity.
Qed.

(** *** The random source *)

Lemma randbelow_lt (n : nat) (g : Random.t) :
  (0 < n)%nat → (fst (Random._randbelow n g) < n)%nat.
Proof.
  intros Hn. unfold Random._randbelow. destruct g as [|r g0]; cbn [fst].
  - exact Hn.
  - apply Nat.mod_upper_bound. lia.
Qed.

Lemma choice_elem_of {A} (l : list A) (g : Random.t) :
  l ≠ [] → ∃ q g', Random.choice l g = Ok (q, g') ∧ q ∈ l.
Proof.
  intros Hl. destruct l as [|a l]; [congruence|].
  unfold Random.choice.
  destruct (Random._randbelow (length (a :: l)) g) as [j g'] eqn:Hj.
  exists (nth j (a :: l) a), g'. split; [reflexivity|].
  assert (Hlt : (j < length (a :: l))%nat).
  { change j with (fst (j, g')). rewrite <- Hj. apply randbelow_lt. simpl. lia. }
  destruct (lookup_lt_is_Some_2 _ _ Hlt) as [x Hx].
  rewrite nth_lookup, Hx. simpl. eapply list_elem_of_lookup_2. exact Hx.
Qed.


(** *** Removing and moving *)

Lemma list_remove_elem_of (a : Agent) (l : list Agent) :
  a ∈ l → ∃ l', list_remove a l = Some l'.
Proof.
  induction l as [|b l IH]; intros Ha.
  - apply elem_of_nil in Ha. destruct Ha.
  - simpl. destruct (decide (b = a)) as [->|Hne]; [eauto|].
    apply elem_of_cons in Ha as [->|Ha]; [congruence|].
    destruct (IH Ha) as [l' ->]. simpl. eauto.
Qed.

Lemma list_remove_other (a b : Agent) (l l' : list Agent) :
  list_remove a l = Some l' → b ≠ a → b ∈ l' ↔ b ∈ l.
Proof.
  revert l'. induction l as [|c l IH]; intros l' H Hb; simpl in H; [discriminate H|].
  destruct (decide (c = a)) as [->|Hne].
  - injection H as <-. rewrite elem_of_cons. split; [tauto|]. intros [->|?]; [congruence|assumption].
  - destruct (list_remove a l) as [l''|] eqn:Hl; [|discriminate H].
    simpl in H. injection H as <-.
    rewrite !elem_of_cons, (IH l'' eq_refl Hb). reflexivity.
Qed.

Lemma list_remove_subseteq (a b : Agent) (l l' : list Agent) :
  list_remove a l = Some l' → b ∈ l' → b ∈ l.
Proof.
  revert l'. induction l as [|c l IH]; intros l' H Hb; simpl in H; [discriminate H|].
  destruct (decide (c = a)) as [->|Hne].
  - injection H as <-. right. exact Hb.
  - destruct (list_remove a l) as [l''|] eqn:Hl; [|discriminate H].
    simpl in H. injection H as <-.
    apply elem_of_cons in Hb as [->|Hb]; [left | right; apply (IH l'' eq_refl Hb)].
Qed.

Lemma list_remove_filter (P : Agent → Prop) `{∀ x, Decision (P x)} (a : Agent) (l l' : list Agent) :
  list_remove a l = Some l' → ¬ P a → filter P l' = filter P l.
Proof.
  revert l'. induction l as [|c l IH]; intros l' Hr Ha; simpl in Hr; [discriminate Hr|].
  destruct (decide (c = a)) as [->|Hne].
  - injection Hr as <-. rewrite (filter_cons_False _ _ _ Ha). reflexivity.
  - destruct (list_remove a l) as [l''|] eqn:Hl; [|discriminate Hr].
    simpl in Hr. injection Hr as <-.
    rewrite !filter_cons, (IH l'' eq_refl Ha). reflexivity.
Qed.

Lemma move_agent_inb (g : MultiGrid) (a : Agent) (from to : Coordinate) :
  grid_shape g → out_of_bounds g from = false → out_of_bounds g to = false →
  from ≠ to → a ∈ contents g from →
  ∃ g' l', move_agent g a from to = Ok g' ∧
           list_remove a (contents g from) = Some l' ∧
           width g' = width g ∧ height g' = height g ∧ grid_shape g' ∧
           contents g' from = l' ∧
           contents g' to = contents g to ++ [a] ∧
           ∀ q, out_of_bounds g q = false → q ≠ from → q ≠ to →
                contents g' q = contents g q.
Proof.
  intros Hg Hfrom Hto Hne Ha.
  destruct (list_remove_elem_of a _ Ha) as [l' Hl'].
  destruct (update_cell_inb (λ _, l') g from Hg Hfrom)
    as (g1 & Hu1 & Hw1 & Hh1 & Hg1 & Hc1 & Ho1).
  assert (Hto1 : out_of_bounds g1 to = false).
  { apply out_of_bounds_false. rewrite Hw1, Hh1. apply out_of_bounds_false. exact Hto. }
  destruct (update_cell_inb (λ l, l ++ [a]) g1 to Hg1 Hto1)
    as (g2 & Hu2 & Hw2 & Hh2 & Hg2 & Hc2 & Ho2).
  exists g2, l'. split.
  { unfold move_agent, remove_agent, place_agent. rewrite Hto.
    rewrite (get_cell_inb g from Hg Hfrom). simpl. rewrite Hl', Hu1. simpl. exact Hu2. }
  split; [exact Hl'|].
  split; [congruence|]. split; [congruence|]. split; [exact Hg2|].
  assert (Hb1 : ∀ q, out_of_bounds g q = false → out_of_bounds g1 q = false).
  { intros q Hq. apply out_of_bounds_false. rewrite Hw1, Hh1.
    apply out_of_bounds_false. exact Hq. }
  split; [|split].
  - rewrite Ho2; [exact Hc1 | apply Hb1; exact Hfrom | exact Hne].
  - rewrite Hc2, Ho1; [reflexivity | exact Hto | congruence].
  - intros q Hq Hq1 Hq2. rewrite Ho2; [|apply Hb1; exact Hq|exact Hq2].
    apply Ho1; assumption.
Qed.

(** *** The scheduler's dictionary *)

Lemma find_agent_elem_of (l : list LimpiadorAgent) (a : LimpiadorAgent) :
  NoDup (unique_id <$> l) → a ∈ l → find_agent (unique_id a) l = Ok a.
Proof.
  unfold find_agent. induction l as [|b l IH]; intros Hnd Ha.
  - apply elem_of_nil in Ha. destruct Ha.
  - rewrite fmap_cons in Hnd. apply NoDup_cons in Hnd as [Hb Hnd]. simpl.
    destruct (Z.eqb_spec (unique_id b) (unique_id a)) as [Heq|Hneq].
    + apply elem_of_cons in Ha as [->|Ha]; [reflexivity|].
      exfalso. apply Hb. rewrite Heq. apply list_elem_of_fmap_2. exact Ha.
    + apply elem_of_cons in Ha as [->|Ha]; [congruence|]. apply IH; assumption.
Qed.

Lemma store_agent_ids (a : LimpiadorAgent) (l : list LimpiadorAgent) :
  unique_id <$> store_agent a l = unique_id <$> l.
Proof.
  unfold store_agent. rewrite <- list_fmap_compose. apply list_fmap_ext.
  intros i b _. simpl. destruct (Z.eqb_spec (unique_id b) (unique_id a)); congruence.
Qed.

Lemma elem_of_store_agent (a b : LimpiadorAgent) (l : list LimpiadorAgent) :
  b ∈ store_agent a l ↔
  (b = a ∧ ∃ c, c ∈ l ∧ unique_id c = unique_id a) ∨
  (b ∈ l ∧ unique_id b ≠ unique_id a).
Proof.
  unfold store_agent. rewrite list_elem_of_fmap. split.
  - intros (c & -> & Hc). destruct (Z.eqb_spec (unique_id c) (unique_id a)); eauto.
  - intros [(-> & c & Hc & Heq)|(Hb & Hne)].
    + exists c. split; [|exact Hc]. rewrite (proj2 (Z.eqb_eq _ _) Heq). reflexivity.
    + exists b. split; [|exact Hb]. rewrite (proj2 (Z.eqb_neq _ _) Hne). reflexivity.
Qed.

(** ** The invariant of the model *)

Lemma same_settings_refl (m : HabitacionModel) : same_settings m m.
Proof. unfold same_settings. tauto. Qed.

Lemma same_settings_trans (m1 m2 m3 : HabitacionModel) :
  same_settings m1 m2 → same_settings m2 m3 → same_settings m1 m3.
Proof. unfold same_settings. intuition congruence. Qed.

Lemma limpiar_celda_limpiador (k : Z) (l : list Agent) :
  ALimpiador k ∈ limpiar_celda l ↔ ALimpiador k ∈ l.
Proof.
  unfold limpiar_celda. rewrite list_elem_of_fmap. split.
  - intros (obj & Heq & Hobj). destruct obj as [c|k'].
    + destruct (sucia c); discriminate Heq.
    + rewrite Heq. exact Hobj.
  - intros H. exists (ALimpiador k). split; [reflexivity | exact H].
Qed.

Lemma elem_of_libres (g : MultiGrid) (p q : Coordinate) :
  q ∈ libres g p ↔
  q ∈ get_neighborhood g p ∧ existsb es_limpiador (contents g q) = false.
Proof. unfold libres. rewrite list_elem_of_filter. tauto. Qed.

Lemma wf_agent (m : HabitacionModel) (self : LimpiadorAgent) :
  wf m → self ∈ agents (schedule m) → agent_placed (grid m) self.
Proof.
  intros (_ & Ha & _ & _ & _) Hself. rewrite Forall_forall in Ha. apply Ha. exact Hself.
Qed.

(** In a well-formed model the step of a scheduled agent returns, in one of
    the three ways. *)
Lemma LimpiadorAgent_step_total (m : HabitacionModel) (self : LimpiadorAgent) :
  wf m → self ∈ agents (schedule m) →
  ∃ m', LimpiadorAgent_step m (unique_id self) = Ok m' ∧ step_outcome m self m'.
Proof.
  intros Hwf Hself. pose proof (wf_agent m self Hwf Hself) as [Hb Hin].
  destruct Hwf as (Hg & Hag & Hnd & Hd & HD).
  unfold LimpiadorAgent_step.
  rewrite (find_agent_elem_of _ _ Hnd Hself). simpl.
  rewrite (get_cell_inb _ _ Hg Hb). simpl.
  destruct (existsb es_celda_sucia (contents (grid m) (pos self))) eqn:Hdirty.
  - destruct (update_cell_inb limpiar_celda (grid m) (pos self) Hg Hb) as (g' & Hu & _).
    rewrite Hu. simpl. eexists. split; [reflexivity|].
    eapply outcome_clean; [exact Hdirty | exact Hu | reflexivity].
  - unfold mover. rewrite (find_agent_elem_of _ _ Hnd Hself). simpl.
    rewrite (valid_moves_libres _ _ Hg). simpl.
    destruct (libres (grid m) (pos self)) as [|q0 ls] eqn:Hlib.
    + exists m. split; [reflexivity|]. apply outcome_stay; [exact Hdirty|exact Hlib|reflexivity].
    + destruct (choice_elem_of (q0 :: ls) (random m)) as (q & r & Hch & Hq); [discriminate|].
      rewrite Hch. simpl.
      assert (Hq' : q ∈ libres (grid m) (pos self)) by (rewrite Hlib; exact Hq).
      apply elem_of_libres in Hq' as [Hqn Hqfree].
      apply elem_of_get_neighborhood in Hqn as (Hqb & Hqne & _).
      destruct (move_agent_inb (grid m) (ALimpiador (unique_id self)) (pos self) q)
        as (g' & l' & Hmv & _); try assumption; [congruence|].
      rewrite Hmv. simpl. eexists. split; [reflexivity|].
      eapply outcome_move; [exact Hdirty | rewrite Hlib; exact Hch | rewrite Hlib; exact Hq
                           | exact Hmv | reflexivity].
Qed.

Lemma LimpiadorAgent_step_outcome (m m' : HabitacionModel) (self : LimpiadorAgent) :
  wf m → self ∈ agents (schedule m) →
  LimpiadorAgent_step m (unique_id self) = Ok m' → step_outcome m self m'.
Proof.
  intros Hwf Hself Hstep.
  destruct (LimpiadorAgent_step_total m self Hwf Hself) as (m1 & H1 & Hout).
  rewrite H1 in Hstep. injection Hstep as <-. exact Hout.
Qed.

(** One agent step keeps the invariant and the settings. *)
Lemma step_outcome_wf (m m' : HabitacionModel) (self : LimpiadorAgent) :
  wf m → self ∈ agents (schedule m) → step_outcome m self m' →
  wf m' ∧ same_settings m m'.
Proof.
  intros Hwf Hself Hout. pose proof (wf_agent m self Hwf Hself) as [Hb Hin].
  destruct Hwf as (Hg & Hag & Hnd & Hd & HD).
  destruct Hout as [g' Hdirty Hu ->| _ _ ->|q r g' Hdirty Hch Hq Hmv ->].
  - destruct (update_cell_inb limpiar_celda (grid m) (pos self) Hg Hb)
      as (g1 & Hu1 & Hw & Hh & Hg1 & Hc & Ho).
    rewrite Hu1 in Hu. injection Hu as <-.
    assert (Hbnd : ∀ p, out_of_bounds (grid m) p = false → out_of_bounds g1 p = false).
    { intros p Hp. apply out_of_bounds_false. rewrite Hw, Hh.
      apply out_of_bounds_false. exact Hp. }
    split; [|unfold same_settings; simpl; tauto].
    split; [exact Hg1|]. split; [|split; [exact Hnd|split; [|exact HD]]]; simpl.
    + eapply Forall_impl; [exact Hag|]. intros b [Hbb Hbin]. split; [apply Hbnd; exact Hbb|].
      destruct (decide (pos b = pos self)) as [Heq|Hne].
      * rewrite Heq, Hc. apply limpiar_celda_limpiador. rewrite <- Heq. exact Hbin.
      * rewrite Ho; assumption.
    + eapply Forall_impl; [exact Hd|]. intros p Hp. apply Hbnd. exact Hp.
  - split; [|apply same_settings_refl]. exact (conj Hg (conj Hag (conj Hnd (conj Hd HD)))).
  - apply elem_of_libres in Hq as [Hqn Hqfree].
    apply elem_of_get_neighborhood in Hqn as (Hqb & Hqne & _).
    destruct (move_agent_inb (grid m) (ALimpiador (unique_id self)) (pos self) q)
      as (g1 & l' & Hmv1 & Hrm & Hw & Hh & Hg1 & Hcf & Hct & Ho); try assumption; [congruence|].
    rewrite Hmv1 in Hmv. injection Hmv as <-.
    assert (Hbnd : ∀ p, out_of_bounds (grid m) p = false → out_of_bounds g1 p = false).
    { intros p Hp. apply out_of_bounds_false. rewrite Hw, Hh.
      apply out_of_bounds_false. exact Hp. }
    split; [|unfold same_settings; simpl; rewrite store_agent_ids; tauto].
    split; [exact Hg1|]. split; [|split; [|split; [|exact HD]]]; simpl.
    + apply Forall_forall. intros b Hbel.
      apply elem_of_store_agent in Hbel as [(-> & _)|(Hbel & Hbne)]; simpl in *.
      * split; [apply Hbnd; exact Hqb|]. simpl. rewrite Hct.
        apply elem_of_app. right. left.
      * rewrite Forall_forall in Hag. apply Hag in Hbel as [Hbb Hbin].
        split; [apply Hbnd; exact Hbb|].
        destruct (decide (pos b = pos self)) as [Heq|Hne1].
        { rewrite Heq, Hcf. eapply list_remove_other; [exact Hrm|congruence|].
          rewrite <- Heq. exact Hbin. }
        destruct (decide (pos b = q)) as [Heq|Hne2].
        { rewrite Heq, Hct. apply elem_of_app. left. rewrite <- Heq. exact Hbin. }
        rewrite Ho; assumption.
    + rewrite store_agent_ids. exact Hnd.
    + eapply Forall_impl; [exact Hd|]. intros p Hp. apply Hbnd. exact Hp.
Qed.

(** ** Dirt does not come back *)

Lemma no_ensucia_refl (g : MultiGrid) : no_ensucia g g.
Proof. intros q _. split; [lia | auto]. Qed.

Lemma no_ensucia_trans (g1 g2 g3 : MultiGrid) :
  width g2 = width g1 → height g2 = height g1 →
  no_ensucia g1 g2 → no_ensucia g2 g3 → no_ensucia g1 g3.
Proof.
  intros Hw Hh H12 H23 q Hq.
  assert (Hq2 : out_of_bounds g2 q = false).
  { apply out_of_bounds_false. rewrite Hw, Hh. apply out_of_bounds_false. exact Hq. }
  destruct (H12 q Hq) as [Hle1 Hd1]. destruct (H23 q Hq2) as [Hle2 Hd2].
  split; [lia|]. intros c Hc Hs. apply Hd1; [|exact Hs]. apply Hd2; assumption.
Qed.

Lemma limpiar_celda_limpias (l : list Agent) :
  (length (filter (λ c, es_celda_limpia c = true) l)
   ≤ length (filter (λ c, es_celda_limpia c = true) (limpiar_celda l)))%nat.
Proof.
  induction l as [|obj l IH]; [reflexivity|].
  unfold limpiar_celda in *. rewrite fmap_cons, !filter_cons.
  destruct obj as [[uid [|]]|k]; simpl; lia.
Qed.

Lemma limpiar_celda_sucia (c : CeldaAgent) (l : list Agent) :
  ACelda c ∈ limpiar_celda l → sucia c = true → ACelda c ∈ l.
Proof.
  unfold limpiar_celda. rewrite list_elem_of_fmap.
  intros (obj & Heq & Hobj) Hs. destruct obj as [c0|k]; [|discriminate Heq].
  destruct (sucia c0) eqn:Hc0.
  - injection Heq as ->. discriminate Hs.
  - rewrite Heq. exact Hobj.
Qed.

(** After the cleaning loop no dirty cell is left at the coordinate. *)
Lemma limpiar_celda_clean (l : list Agent) :
  existsb es_celda_sucia (limpiar_celda l) = false.
Proof.
  induction l as [|obj l IH]; [reflexivity|].
  unfold limpiar_celda in *. rewrite fmap_cons. simpl. rewrite IH.
  destruct obj as [[uid [|]]|k]; reflexivity.
Qed.

Lemma step_outcome_no_ensucia (m m' : HabitacionModel) (self : LimpiadorAgent) :
  wf m → self ∈ agents (schedule m) → step_outcome m self m' →
  no_ensucia (grid m) (grid m').
Proof.
  intros Hwf Hself Hout. pose proof (wf_agent m self Hwf Hself) as [Hb Hin].
  destruct Hwf as (Hg & Hag & Hnd & Hd & HD).
  destruct Hout as [g' Hdirty Hu ->| _ _ ->|q r g' Hdirty Hch Hq Hmv ->].
  - destruct (update_cell_inb limpiar_celda (grid m) (pos self) Hg Hb)
      as (g1 & Hu1 & Hw & Hh & Hg1 & Hc & Ho).
    rewrite Hu1 in Hu. injection Hu as <-. simpl.
    intros p Hp. unfold limpias_en.
    destruct (decide (p = pos self)) as [->|Hne].
    + rewrite Hc. split; [pose proof (limpiar_celda_limpias (contents (grid m) (pos self))); lia|].
      intros c. apply limpiar_celda_sucia.
    + rewrite (Ho p Hp Hne). split; [lia|auto].
  - apply no_ensucia_refl.
  - apply elem_of_libres in Hq as [Hqn Hqfree].
    apply elem_of_get_neighborhood in Hqn as (Hqb & Hqne & _).
    destruct (move_agent_inb (grid m) (ALimpiador (unique_id self)) (pos self) q)
      as (g1 & l' & Hmv1 & Hrm & Hw & Hh & Hg1 & Hcf & Hct & Ho); try assumption; [congruence|].
    rewrite Hmv1 in Hmv. injection Hmv as <-. simpl.
    intros p Hp. unfold limpias_en.
    destruct (decide (p = pos self)) as [->|Hne1].
    { rewrite Hcf.
      rewrite (list_remove_filter (λ c, es_celda_limpia c = true) _ _ _ Hrm)
        by (simpl; discriminate).
      split; [lia|]. intros c Hc _. eapply list_remove_subseteq; [exact Hrm|exact Hc]. }
    destruct (decide (p = q)) as [->|Hne2].
    { rewrite Hct, filter_app. simpl. rewrite app_nil_r. split; [lia|].
      intros c Hc _. apply elem_of_app in Hc as [Hc|Hc]; [exact Hc|].
      apply list_elem_of_singleton in Hc. discriminate Hc. }
    rewrite (Ho p Hp Hne1 Hne2). split; [lia|auto].
Qed.

(** ** A round *)

Lemma elem_of_ids (key : Z) (l : list LimpiadorAgent) :
  key ∈ unique_id <$> l → ∃ self, self ∈ l ∧ unique_id self = key.
Proof. rewrite list_elem_of_fmap. intros (self & -> & Hself). eauto. Qed.

(** A round over any list of scheduled keys returns, keeps the invariant
    and the settings, and makes nothing dirty. *)
Lemma round_total (m : HabitacionModel) (keys : list Z) :
  wf m → keys ⊆ unique_id <$> agents (schedule m) →
  ∃ m', foldM LimpiadorAgent_step keys m = Ok m' ∧
        wf m' ∧ same_settings m m' ∧ no_ensucia (grid m) (grid m').
Proof.
  intros Hwf Hkeys.
  apply (foldM_total LimpiadorAgent_step
           (λ b, wf b ∧ same_settings m b ∧ no_ensucia (grid m) (grid b))).
  - intros b key Hkey (Hb & Hsame & Hmono).
    assert (Hk : key ∈ unique_id <$> agents (schedule b)).
    { destruct Hsame as (_ & _ & _ & _ & _ & _ & _ & _ & _ & _ & ->). apply Hkeys, Hkey. }
    apply elem_of_ids in Hk as (self & Hself & <-).
    destruct (LimpiadorAgent_step_total b self Hb Hself) as (b' & Hstep & Hout).
    exists b'. split; [exact Hstep|].
    destruct (step_outcome_wf b b' self Hb Hself Hout) as [Hb' Hsame'].
    split; [exact Hb'|]. split; [eapply same_settings_trans; eassumption|].
    destruct Hsame as (_ & _ & _ & _ & _ & _ & _ & _ & Hw & Hh & _).
    eapply no_ensucia_trans; [exact Hw | exact Hh | exact Hmono |].
    apply (step_outcome_no_ensucia b b' self Hb Hself Hout).
  - split; [exact Hwf|]. split; [apply same_settings_refl | apply no_ensucia_refl].
Qed.

Lemma wf_ext (m m' : HabitacionModel) :
  grid m' = grid m → agents (schedule m') = agents (schedule m) →
  dirty_positions m' = dirty_positions m → celdas_sucias m' = celdas_sucias m →
  wf m → wf m'.
Proof. unfold wf. intros -> -> -> ->. tauto. Qed.

Lemma SimultaneousActivation_step_total (m : HabitacionModel) :
  wf m →
  ∃ m', SimultaneousActivation_step m = Ok m' ∧ wf m' ∧
        no_ensucia (grid m) (grid m') ∧
        M m' = M m ∧ N m' = N m ∧ num_agentes m' = num_agentes m ∧
        celdas_sucias m' = celdas_sucias m ∧
        dirty_positions m' = dirty_positions m ∧
        running m' = running m ∧ datacollector m' = datacollector m ∧
        steps (schedule m') = steps (schedule m) + 1 ∧
        width (grid m') = width (grid m) ∧ height (grid m') = height (grid m) ∧
        unique_id <$> agents (schedule m') = unique_id <$> agents (schedule m).
Proof.
  intros Hwf. destruct (round_total m (unique_id <$> agents (schedule m)) Hwf)
    as (m1 & Hr & Hwf1 & Hsame & Hmono); [intros k Hk; exact Hk|].
  unfold SimultaneousActivation_step. rewrite Hr. simpl.
  eexists. split; [reflexivity|].
  split; [revert Hwf1; apply wf_ext; reflexivity|].
  split; [exact Hmono|].
  destruct Hsame as (? & ? & ? & ? & ? & ? & ? & ? & ? & ? & ?). simpl.
  repeat (split; [first [assumption | congruence]|]). assumption.
Qed.

(** ** The metric *)

Lemma celdas_limpias_inb (g : MultiGrid) (dirty : list Coordinate) :
  grid_shape g → Forall (λ p, out_of_bounds g p = false) dirty →
  celdas_limpias g dirty = Ok (total_limpias g dirty).
Proof.
  intros Hg Hd. unfold celdas_limpias.
  assert (Hacc : ∀ acc,
    foldM (λ acc p, l ← get_cell_list_contents g p;
                    Ok (acc + Z.of_nat (length (filter (λ c, es_celda_limpia c = true) l))))
          dirty acc = Ok (acc + total_limpias g dirty)).
  { induction Hd as [|p dirty Hp Hd IH]; intros acc; simpl.
    - f_equal. lia.
    - rewrite (get_cell_inb g p Hg Hp). simpl. rewrite IH. f_equal.
      unfold limpias_en. lia. }
  rewrite Hacc. f_equal.
Qed.

Lemma contar_celdas_limpias_wf (m : HabitacionModel) :
  wf m →
  contar_celdas_limpias m =
    if celdas_sucias m =? 0 then Raise ZeroDivisionError
    else Ok (porcentaje (total_limpias (grid m) (dirty_positions m)) (celdas_sucias m)).
Proof.
  intros (Hg & _ & _ & Hd & _). unfold contar_celdas_limpias.
  rewrite (celdas_limpias_inb _ _ Hg Hd). reflexivity.
Qed.

Lemma total_limpias_mono (g g' : MultiGrid) (dirty : list Coordinate) :
  no_ensucia g g' → Forall (λ p, out_of_bounds g p = false) dirty →
  total_limpias g dirty ≤ total_limpias g' dirty.
Proof.
  intros Hmono Hd. induction Hd as [|p dirty Hp Hd IH]; simpl; [lia|].
  destruct (Hmono p Hp) as [Hle _]. lia.
Qed.

Lemma porcentaje_mono (n n' d : Z) :
  0 < d → n ≤ n' → (porcentaje n d <= porcentaje n' d)%Q.
Proof.
  intros Hd Hn. destruct d as [|p|p]; try lia.
  unfold porcentaje, Qle, Qdiv, Qmult, Qinv, inject_Z. simpl. nia.
Qed.

Lemma porcentaje_ge_100 (n d : Z) :
  0 < d → (100 <= porcentaje n d)%Q ↔ d ≤ n.
Proof.
  intros Hd. destruct d as [|p|p]; try lia.
  unfold porcentaje, Qle, Qdiv, Qmult, Qinv, inject_Z. simpl. lia.
Qed.

Lemma porcentaje_0 (d : Z) : 0 < d → (porcentaje 0 d == 0)%Q.
Proof. intros Hd. destruct d as [|p|p]; try lia. reflexivity. Qed.

(** ** Loops over [range] *)

Lemma foldM_seqZ {B} (f : B → Z → result B) (P : Z → B → Prop) (k : nat) :
  ∀ s b, P s b →
  (∀ i b, s ≤ i < s + Z.of_nat k → P i b → ∃ b', f b i = Ok b' ∧ P (i + 1) b') →
  ∃ b', foldM f (seqZ s (Z.of_nat k)) b = Ok b' ∧ P (s + Z.of_nat k) b'.
Proof.
  induction k as [|k IH]; intros s b Hb Hf.
  - exists b. split; [reflexivity|]. replace (s + Z.of_nat 0) with s by lia. exact Hb.
  - rewrite seqZ_cons by lia. simpl foldM.
    destruct (Hf s b) as (b1 & H1 & Hb1); [lia | exact Hb |].
    rewrite H1. simpl.
    replace (Z.pred (Z.of_nat (S k))) with (Z.of_nat k) by lia.
    destruct (IH (Z.succ s) b1) as (b2 & H2 & Hb2).
    + replace (Z.succ s) with (s + 1) by lia. exact Hb1.
    + intros i b' Hi. apply Hf. lia.
    + exists b2. split; [exact H2|].
      replace (s + Z.of_nat (S k)) with (Z.succ s + Z.of_nat k) by lia. exact Hb2.
Qed.

Lemma range_to_nat (n : Z) : range n = seqZ 0 (Z.of_nat (Z.to_nat n)).
Proof. unfold range, seqZ. rewrite Nat2Z.id. reflexivity. Qed.

(** A [for i in range(n)] loop with an invariant indexed by [i]. *)
Lemma foldM_range {B} (f : B → Z → result B) (P : Z → B → Prop) (n : Z) (b : B) :
  P 0 b →
  (∀ i b, 0 ≤ i < n → P i b → ∃ b', f b i = Ok b' ∧ P (i + 1) b') →
  ∃ b', foldM f (range n) b = Ok b' ∧ P (Z.max 0 n) b'.
Proof.
  intros Hb Hf. rewrite range_to_nat.
  destruct (foldM_seqZ f P (Z.to_nat n) 0 b Hb) as (b' & H & Hb').
  - intros i b0 Hi. apply Hf. lia.
  - exists b'. split; [exact H|]. replace (Z.max 0 n) with (0 + Z.of_nat (Z.to_nat n)) by lia.
    exact Hb'.
Qed.

Lemma range_snoc (n : Z) : 0 ≤ n → range (n + 1) = range n ++ [n].
Proof.
  intros Hn. unfold range. rewrite seqZ_app by lia. f_equal.
Qed.

Lemma elem_of_range (n k : Z) : k ∈ range n ↔ 0 ≤ k < n.
Proof. unfold range. rewrite elem_of_seqZ. lia. Qed.

(** ** Construction *)

Lemma update_cell_Ok_inb (f : list Agent → list Agent) (g g' : MultiGrid) (p : Coordinate) :
  grid_shape g → 0 ≤ fst p → 0 ≤ snd p →
  update_cell f g p = Ok g' → out_of_bounds g p = false.
Proof.
  intros [Hw Hh] Hx Hy. unfold update_cell.
  destruct (Z_lt_le_dec (fst p) (Z.of_nat (length (grid_cells g)))) as [Hlt|Hge];
    [|rewrite py_index_high by exact Hge; discriminate].
  rewrite py_index_inb by lia.
  destruct (grid_cells g !! Z.to_nat (fst p)) as [col|] eqn:Hcol; [|discriminate].
  pose proof (Forall_lookup_1 _ _ _ _ Hh Hcol) as Hlen. simpl in Hlen.
  destruct (Z_lt_le_dec (snd p) (Z.of_nat (length col))) as [Hlt'|Hge'];
    [|rewrite py_index_high by exact Hge'; discriminate].
  intros _. apply out_of_bounds_false. lia.
Qed.

Lemma update_cell_out (f : list Agent → list Agent) (g : MultiGrid) (p : Coordinate) :
  grid_shape g → (width g ≤ fst p ∨ height g ≤ snd p) → 0 ≤ fst p → 0 ≤ snd p →
  update_cell f g p = Raise IndexError.
Proof.
  intros Hg Hout Hx Hy.
  destruct (update_cell f g p) as [g'|e] eqn:Hu.
  - apply update_cell_Ok_inb in Hu; [|assumption..].
    apply out_of_bounds_false in Hu. lia.
  - unfold update_cell in Hu.
    repeat (match type of Hu with
            | match ?x with _ => _ end = _ => destruct x; try discriminate Hu
            end).
    all: injection Hu as <-; reflexivity.
Qed.

Lemma MultiGrid_init_shape (strict : bool) (w h : Z) (g : MultiGrid) :
  MultiGrid_init strict w h = Ok g →
  grid_shape g ∧ width g = w ∧ height g = h ∧ ∀ q, contents g q = [].
Proof.
  unfold MultiGrid_init. destruct (strict && _); [discriminate|].
  intros H. injection H as <-. simpl. split; [|split; [reflexivity|split; [reflexivity|]]].
  - split; simpl.
    + apply length_replicate.
    + apply Forall_replicate. apply length_replicate.
  - intros q. unfold contents, get_cell_list_contents, getitem. simpl.
    destruct (py_index _ (fst q)) as [xi|]; [|reflexivity]. simpl.
    destruct (replicate _ _ !! xi) as [col|] eqn:Hcol; [|reflexivity]. simpl.
    apply lookup_replicate in Hcol as [-> _].
    destruct (py_index _ (snd q)) as [yi|]; [|reflexivity].
    destruct (replicate _ _ !! yi) as [l|] eqn:Hl; [|reflexivity].
    apply lookup_replicate in Hl as [-> _]. reflexivity.
Qed.

(** *** Sampling without replacement *)

Lemma insert_vacancy_Permutation (l : list Z) (j : nat) (x z : Z) :
  l !! j = Some x → x :: <[j := z]> l ≡ₚ z :: l.
Proof.
  revert j. induction l as [|a l IH]; intros [|j] Hj; simpl in *; try discriminate Hj.
  - injection Hj as ->. apply perm_swap.
  - rewrite perm_swap. rewrite (IH j Hj). apply perm_swap.
Qed.

(** One turn of the pool loop takes one element out of the pool. *)
Lemma sample_pool_vacancy (pool : list Z) (j : nat) :
  (j < length pool)%nat →
  nth j pool 0 :: take (length pool - 1) (<[j := nth (length pool - 1) pool 0]> pool)
  ≡ₚ pool.
Proof.
  intros Hj. destruct (lookup_lt_is_Some_2 pool j Hj) as [x Hx].
  destruct (lookup_lt_is_Some_2 pool (length pool - 1)) as [z Hz]; [lia|].
  rewrite !nth_lookup, Hx, Hz. simpl.
  assert (Hpool : pool = take (length pool - 1) pool ++ [z]).
  { rewrite <- (take_drop (length pool - 1) pool) at 1. f_equal.
    apply list_eq. intros i. rewrite lookup_drop. destruct i as [|i]; simpl.
    - rewrite Nat.add_0_r. exact Hz.
    - apply lookup_ge_None. lia. }
  assert (Hlast : z :: take (length pool - 1) pool ≡ₚ pool).
  { transitivity (take (length pool - 1) pool ++ [z]).
    - apply Permutation_cons_append.
    - rewrite <- Hpool. reflexivity. }
  destruct (decide (j = length pool - 1)%nat) as [->|Hne].
  - rewrite list_insert_id by exact Hz. rewrite Hx in Hz. injection Hz as ->.
    exact Hlast.
  - rewrite take_insert_lt by lia.
    transitivity (z :: take (length pool - 1) pool); [|exact Hlast].
    apply insert_vacancy_Permutation.
    rewrite lookup_take_lt by lia. exact Hx.
Qed.

Lemma sample_pool_spec (k : nat) :
  ∀ (pool : list Z) (g : Random.t),
    NoDup pool → (k ≤ length pool)%nat →
    NoDup (fst (Random.sample_pool pool k g)) ∧
    length (fst (Random.sample_pool pool k g)) = k ∧
    fst (Random.sample_pool pool k g) ⊆ pool.
Proof.
  induction k as [|k IH]; intros pool g Hnd Hk.
  - simpl. split; [constructor|]. split; [reflexivity|]. intros x Hx.
    apply elem_of_nil in Hx. destruct Hx.
  - cbn [Random.sample_pool].
    destruct (Random._randbelow (length pool) g) as [j g1] eqn:Hj.
    assert (Hlt : (j < length pool)%nat).
    { change j with (fst (j, g1)). rewrite <- Hj. apply randbelow_lt. lia. }
    pose proof (sample_pool_vacancy pool j Hlt) as Hperm.
    set (pool' := take (length pool - 1) (<[j := nth (length pool - 1) pool 0]> pool)) in *.
    assert (Hnd' : NoDup (nth j pool 0 :: pool')) by (rewrite Hperm; exact Hnd).
    apply NoDup_cons in Hnd' as [Hx Hnd'].
    assert (Hlen : length pool' = (length pool - 1)%nat).
    { apply Permutation_length in Hperm. simpl in Hperm. lia. }
    destruct (IH pool' g1 Hnd') as (Hr1 & Hr2 & Hr3); [lia|].
    destruct (Random.sample_pool pool' k g1) as [rest g2]. simpl in *.
    split; [|split].
    + apply NoDup_cons. split; [|exact Hr1]. intros Hin. apply Hx, Hr3, Hin.
    + rewrite Hr2. reflexivity.
    + intros y Hy. rewrite <- Hperm. apply elem_of_cons in Hy as [->|Hy].
      * left.
      * right. apply Hr3, Hy.
Qed.

Lemma sample_Ok (population : list Z) (k : Z) (g : Random.t) (ps : list Z) (r : Random.t) :
  NoDup population →
  Random.sample population k g = Ok (ps, r) →
  0 ≤ k ≤ Z.of_nat (length population) ∧
  NoDup ps ∧ Z.of_nat (length ps) = k ∧ ps ⊆ population.
Proof.
  intros Hnd. unfold Random.sample.
  destruct (Z.ltb_spec k 0) as [?|Hk0]; [discriminate|].
  destruct (Z.ltb_spec (Z.of_nat (length population)) k) as [?|Hkn]; [discriminate|].
  simpl. intros H. injection H as H.
  destruct (sample_pool_spec (Z.to_nat k) population g Hnd) as (H1 & H2 & H3); [lia|].
  rewrite H in H1, H2, H3. simpl in *.
  split; [lia|]. split; [exact H1|]. split; [lia | exact H3].
Qed.

(** *** The loop that creates the cells *)

Section CellLoop.

Variable posiciones_sucias : list Z.
Variables w h : Z.

Lemma init_celda_inv (st : InitCells) (i j : Z) :
  cells_inv w h st → 0 ≤ i < w → 0 ≤ j < h →
  ∃ st', init_celda posiciones_sucias i st j = Ok st' ∧ cells_inv w h st'.
Proof.
  intros (Hg & Hw & Hh & Hd) Hi Hj.
  assert (Hb : out_of_bounds (ic_grid st) (i, j) = false).
  { apply out_of_bounds_false. simpl. lia. }
  unfold init_celda, place_agent.
  destruct (update_cell_inb (λ l, l ++ [ACelda {| celda_id := ic_unique_id st;
              sucia := bool_decide (ic_unique_id st ∈ posiciones_sucias) |}])
              (ic_grid st) (i, j) Hg Hb) as (g' & Hu & Hw' & Hh' & Hg' & _).
  rewrite Hu. simpl. eexists. split; [reflexivity|].
  assert (Hbnd : ∀ p, out_of_bounds (ic_grid st) p = false → out_of_bounds g' p = false).
  { intros p Hp. apply out_of_bounds_false. rewrite Hw', Hh'.
    apply out_of_bounds_false. exact Hp. }
  split; [exact Hg'|]. simpl. split; [congruence|]. split; [congruence|].
  destruct (bool_decide _).
  - apply Forall_app. split.
    + eapply Forall_impl; [exact Hd|]. exact Hbnd.
    + apply Forall_singleton. apply Hbnd, Hb.
  - eapply Forall_impl; [exact Hd|]. exact Hbnd.
Qed.

(** The two loops return, whatever the signs of [w] and [h]. *)
Lemma cells_loop_total (st : InitCells) :
  cells_inv w h st →
  ∃ st', foldM (λ st i, foldM (init_celda posiciones_sucias i) (range h) st)
               (range w) st = Ok st' ∧ cells_inv w h st'.
Proof.
  apply foldM_total. intros st1 i Hi Hst1. apply elem_of_range in Hi.
  apply (foldM_total _ (cells_inv w h)); [|exact Hst1].
  intros st2 j Hj Hst2. apply elem_of_range in Hj.
  apply init_celda_inv; assumption.
Qed.

Hypothesis h_pos : 0 < h.

Lemma coord_row_major (i j : Z) : 0 ≤ j < h → coord h (i * h + j) = (i, j).
Proof.
  intros Hj. unfold coord. f_equal.
  - symmetry. apply (Z.div_unique _ _ _ j); lia.
  - symmetry. apply (Z.mod_unique _ _ i); lia.
Qed.

Lemma init_celda_done (st : InitCells) (i j : Z) :
  0 ≤ i < w → 0 ≤ j < h → cells_done posiciones_sucias w h (i * h + j) st →
  ∃ st', init_celda posiciones_sucias i st j = Ok st' ∧ cells_done posiciones_sucias w h (i * h + j + 1) st'.
Proof.
  intros Hi Hj (Hu & Hinv & Hc & Hd).
  destruct (init_celda_inv st i j Hinv Hi Hj) as (st' & Hst' & Hinv').
  exists st'. split; [exact Hst'|].
  destruct Hinv as (Hg & Hw & Hh & _).
  assert (Hb : out_of_bounds (ic_grid st) (i, j) = false).
  { apply out_of_bounds_false. simpl. lia. }
  unfold init_celda, place_agent in Hst'.
  destruct (update_cell_inb (λ l, l ++ [ACelda {| celda_id := ic_unique_id st;
              sucia := bool_decide (ic_unique_id st ∈ posiciones_sucias) |}])
              (ic_grid st) (i, j) Hg Hb) as (g' & Hup & _ & _ & _ & Hc' & Ho').
  rewrite Hup in Hst'. simpl in Hst'. injection Hst' as <-.
  unfold cells_done. simpl.
  split; [lia|]. split; [exact Hinv'|]. split.
  - intros x y Hx Hy.
    destruct (decide ((x, y) = (i, j))) as [Heq|Hne].
    + injection Heq as -> ->. rewrite Hc', (Hc i j Hi Hj), Hu.
      rewrite (proj2 (Z.ltb_ge _ _)) by lia.
      rewrite (proj2 (Z.ltb_lt _ _)) by lia. reflexivity.
    + rewrite Ho'; [|apply out_of_bounds_false; simpl; lia|exact Hne].
      rewrite (Hc x y Hx Hy).
      assert (Hxy : x * h + y ≠ i * h + j).
      { intros Heq. apply Hne.
        assert (x = i) by nia. subst x. f_equal. lia. }
      destruct (Z.ltb_spec (x * h + y) (i * h + j));
        destruct (Z.ltb_spec (x * h + y) (i * h + j + 1)); try reflexivity; lia.
  - rewrite range_snoc by nia. rewrite filter_app, fmap_app, <- Hd, Hu.
    rewrite filter_cons, filter_nil.
    destruct (decide (i * h + j ∈ posiciones_sucias)) as [Hin|Hnin].
    + rewrite bool_decide_eq_true_2 by exact Hin. simpl.
      rewrite coord_row_major by lia. reflexivity.
    + rewrite bool_decide_eq_false_2 by exact Hnin. simpl.
      rewrite app_nil_r. reflexivity.
Qed.

(** After the loops every cell of the grid holds its [CeldaAgent], and
    the coordinates recorded as dirty are those of the sampled cells. *)
Lemma cells_loop_done (st : InitCells) :
  cells_done posiciones_sucias w h 0 st →
  ∃ st', foldM (λ st i, foldM (init_celda posiciones_sucias i) (range h) st)
               (range w) st = Ok st' ∧ cells_done posiciones_sucias w h (Z.max 0 w * h) st'.
Proof.
  intros Hst.
  apply (foldM_range _ (λ i st, cells_done posiciones_sucias w h (i * h) st)); [exact Hst|].
  intros i st1 Hi Hst1.
  destruct (foldM_range (init_celda posiciones_sucias i)
              (λ j st, cells_done posiciones_sucias w h (i * h + j) st) h st1) as (st2 & H2 & Hst2).
  - replace (i * h + 0) with (i * h) by lia. exact Hst1.
  - intros j st2 Hj Hst2.
    destruct (init_celda_done st2 i j Hi Hj Hst2) as (st3 & H3 & Hst3).
    exists st3. split; [exact H3|].
    replace (i * h + (j + 1)) with (i * h + j + 1) by lia. exact Hst3.
  - exists st2. split; [exact H2|].
    replace ((i + 1) * h) with (i * h + Z.max 0 h) by lia. exact Hst2.
Qed.

End CellLoop.

(** *** The loop that adds the cleaners *)

Section LimpiadorLoop.

Variable g0 : MultiGrid.
Hypothesis g0_shape : grid_shape g0.

Lemma limpiadores_done_0 : limpiadores_done g0 0 (g0, SimultaneousActivation_init).
Proof.
  unfold limpiadores_done. simpl. rewrite app_nil_r.
  repeat (split; [first [exact g0_shape | reflexivity | auto]|]). reflexivity.
Qed.

Lemma init_limpiador_done (st : MultiGrid * SimultaneousActivation) (i : Z) :
  0 ≤ i → 2 ≤ width g0 → 2 ≤ height g0 → limpiadores_done g0 i st →
  ∃ st', init_limpiador st i = Ok st' ∧ limpiadores_done g0 (i + 1) st'.
Proof.
  intros Hi Hw Hh (Hg & Hw1 & Hh1 & Hc & Ho & Hag & Hst).
  assert (Hb : out_of_bounds (fst st) (1, 1) = false).
  { apply out_of_bounds_false. simpl. lia. }
  unfold init_limpiador, place_agent.
  destruct (update_cell_inb (λ l, l ++ [ALimpiador i]) (fst st) (1, 1) Hg Hb)
    as (g' & Hu & Hw' & Hh' & Hg' & Hc' & Ho').
  rewrite Hu. simpl. unfold schedule_add.
  assert (Hfresh : existsb (λ b, unique_id b =? i) (agents (snd st)) = false).
  { apply not_true_is_false. intros Hex. apply existsb_exists in Hex as (b & Hb1 & Hb2).
    apply list_elem_of_In in Hb1. rewrite Hag in Hb1.
    apply list_elem_of_fmap in Hb1 as (k & -> & Hk). apply elem_of_range in Hk.
    simpl in Hb2. lia. }
  simpl. rewrite Hfresh. simpl. eexists. split; [reflexivity|].
  unfold limpiadores_done. simpl.
  split; [exact Hg'|]. split; [congruence|]. split; [congruence|].
  split; [|split; [|split; [|exact Hst]]].
  - rewrite Hc', Hc, range_snoc, fmap_app, app_assoc by lia. reflexivity.
  - intros q Hq Hne. rewrite Ho'; [apply Ho; assumption| |exact Hne].
    apply out_of_bounds_false. rewrite Hw1, Hh1. apply out_of_bounds_false. exact Hq.
  - rewrite Hag, range_snoc, fmap_app by lia. reflexivity.
Qed.

Lemma limpiadores_loop_done (num_agentes : Z) :
  num_agentes ≤ 0 ∨ (2 ≤ width g0 ∧ 2 ≤ height g0) →
  ∃ st, foldM init_limpiador (range num_agentes) (g0, SimultaneousActivation_init) = Ok st ∧
        limpiadores_done g0 (Z.max 0 num_agentes) st.
Proof.
  intros Hcase. apply (foldM_range init_limpiador (limpiadores_done g0)).
  - exact limpiadores_done_0.
  - intros i st Hi Hst. destruct Hcase as [Hk|[Hw Hh]]; [lia|].
    apply init_limpiador_done; [lia|assumption..].
Qed.

Lemma limpiadores_loop_fails (num_agentes : Z) :
  1 ≤ num_agentes → width g0 ≤ 1 ∨ height g0 ≤ 1 →
  foldM init_limpiador (range num_agentes) (g0, SimultaneousActivation_init) = Raise IndexError.
Proof.
  intros Hk Hsmall. unfold range. rewrite seqZ_cons by lia. simpl.
  unfold init_limpiador, place_agent. simpl.
  rewrite update_cell_out; [reflexivity|exact g0_shape|simpl; lia|simpl; lia..].
Qed.

End LimpiadorLoop.

(** *** [__init__] as a whole *)

Lemma init_Ok (strict : bool) (M0 N0 num_agentes0 celdas_sucias0 : Z)
    (seed : Random.t) (m : HabitacionModel) :
  HabitacionModel_init strict M0 N0 num_agentes0 celdas_sucias0 seed = Ok m →
  ∃ ps gc, init_result M0 N0 num_agentes0 celdas_sucias0 seed m ps gc.
Proof.
  unfold HabitacionModel_init. intros H.
  apply bind_Ok in H as (g0 & Hg0 & H).
  apply bind_Ok in H as ([ps r] & Hps & H).
  apply bind_Ok in H as (st & Hst & H).
  apply bind_Ok in H as ([g s] & Hgs & H).
  injection H as <-.
  apply MultiGrid_init_shape in Hg0 as (Hshape0 & Hw0 & Hh0 & Hempty).
  set (st0 := {| ic_unique_id := 0; ic_grid := g0; ic_dirty := [] |}) in *.
  assert (Hinv0 : cells_inv M0 N0 st0).
  { split; [exact Hshape0|]. split; [exact Hw0|]. split; [exact Hh0|]. constructor. }
  destruct (cells_loop_total ps M0 N0 st0 Hinv0) as (st1 & Hst1 & Hinv1).
  rewrite Hst in Hst1. injection Hst1 as <-.
  destruct Hinv1 as (Hshape1 & Hw1 & Hh1 & Hd1).
  assert (Horigin : 1 ≤ num_agentes0 → 2 ≤ M0 ∧ 2 ≤ N0).
  { intros Hk. destruct (Z_le_gt_dec M0 1) as [HM|HM].
    - rewrite (limpiadores_loop_fails (ic_grid st) Hshape1 num_agentes0) in Hgs;
        [discriminate|exact Hk|left; lia].
    - destruct (Z_le_gt_dec N0 1) as [HN|HN]; [|lia].
      rewrite (limpiadores_loop_fails (ic_grid st) Hshape1 num_agentes0) in Hgs;
        [discriminate|exact Hk|right; lia]. }
  destruct (limpiadores_loop_done (ic_grid st) Hshape1 num_agentes0) as (st2 & Hst2 & Hdone).
  { destruct (Z_le_gt_dec num_agentes0 0); [left; assumption|right].
    rewrite Hw1, Hh1. apply Horigin. lia. }
  rewrite Hgs in Hst2. injection Hst2 as <-.
  exists ps, (ic_grid st). unfold init_result. simpl.
  split; [exact Hps|]. split; [tauto|]. split; [tauto|].
  split; [exact Hd1|]. split; [exact Hdone|]. split; [exact Horigin|].
  intros HN0.
  destruct (cells_loop_done ps M0 N0 HN0 st0) as (st3 & Hst3 & Hdone3).
  { split; [reflexivity|]. split; [exact Hinv0|]. split.
    - intros x y Hx Hy. simpl. rewrite Hempty.
      rewrite (proj2 (Z.ltb_ge _ _)) by nia. reflexivity.
    - reflexivity. }
  rewrite Hst in Hst3. injection Hst3 as <-.
  destruct Hdone3 as (_ & _ & Hc & Hd). split; [|exact Hd].
  intros x y Hx Hy. rewrite (Hc x y Hx Hy).
  rewrite (proj2 (Z.ltb_lt _ _)) by nia. reflexivity.
Qed.

Lemma length_range (n : Z) : Z.of_nat (length (range n)) = Z.max 0 n.
Proof. unfold range. rewrite length_seqZ. lia. Qed.

(** [__init__] returns on all the other parameters. *)
Lemma init_total (strict : bool) (M0 N0 num_agentes0 celdas_sucias0 : Z) (seed : Random.t) :
  ¬ init_raises strict M0 N0 num_agentes0 celdas_sucias0 →
  ∃ m, HabitacionModel_init strict M0 N0 num_agentes0 celdas_sucias0 seed = Ok m.
Proof.
  unfold init_raises. intros Hno. unfold HabitacionModel_init.
  destruct (MultiGrid_init strict M0 N0) as [g0|e] eqn:Hg0.
  2:{ exfalso. unfold MultiGrid_init in Hg0.
      destruct strict; simpl in Hg0; [|discriminate].
      destruct (Z.ltb_spec M0 1); [apply Hno; left; split; [reflexivity|lia]|].
      destruct (Z.ltb_spec N0 1); [apply Hno; left; split; [reflexivity|lia]|].
      discriminate. }
  simpl.
  destruct (Random.sample (range (M0 * N0)) celdas_sucias0 seed) as [[ps r]|e] eqn:Hps.
  2:{ exfalso. unfold Random.sample in Hps. rewrite length_range in Hps.
      destruct (Z.ltb_spec celdas_sucias0 0); [tauto|].
      destruct (Z.ltb_spec (Z.max 0 (M0 * N0)) celdas_sucias0); [tauto|].
      discriminate. }
  simpl.
  apply MultiGrid_init_shape in Hg0 as (Hshape0 & Hw0 & Hh0 & Hempty).
  destruct (cells_loop_total ps M0 N0 {| ic_unique_id := 0; ic_grid := g0; ic_dirty := [] |})
    as (st1 & Hst1 & Hshape1 & Hw1 & Hh1 & Hd1).
  { split; [exact Hshape0|]. split; [exact Hw0|]. split; [exact Hh0|]. constructor. }
  rewrite Hst1. simpl.
  destruct (limpiadores_loop_done (ic_grid st1) Hshape1 num_agentes0) as ([g s] & Hst2 & _).
  { rewrite Hw1, Hh1. lia. }
  rewrite Hst2. simpl. eexists. reflexivity.
Qed.

(** [__init__] raises on [init_raises]. *)
Lemma init_fails (strict : bool) (M0 N0 num_agentes0 celdas_sucias0 : Z) (seed : Random.t) :
  init_raises strict M0 N0 num_agentes0 celdas_sucias0 →
  ∃ e, HabitacionModel_init strict M0 N0 num_agentes0 celdas_sucias0 seed = Raise e.
Proof.
  intros Hr.
  destruct (HabitacionModel_init strict M0 N0 num_agentes0 celdas_sucias0 seed)
    as [m|e] eqn:Hinit; [|eauto].
  exfalso. pose proof Hinit as Hinit'.
  apply init_Ok in Hinit as (ps & gc & Hps & _ & _ & _ & _ & Horigin & _).
  apply sample_Ok in Hps as (Hk & _); [|apply NoDup_seqZ].
  rewrite length_range in Hk.
  destruct Hr as [[-> Hdim]|[Hneg|[Hbig|[Hk1 Hsmall]]]].
  - unfold HabitacionModel_init, MultiGrid_init in Hinit'. simpl in Hinit'.
    destruct (Z.ltb_spec M0 1); [discriminate Hinit'|].
    destruct (Z.ltb_spec N0 1); [discriminate Hinit'|]. lia.
  - lia.
  - lia.
  - specialize (Horigin Hk1). lia.
Qed.

Lemma limpiador_inicial_ids (n : Z) :
  unique_id <$> (limpiador_inicial <$> range n) = range n.
Proof. rewrite <- list_fmap_compose. apply list_fmap_id. Qed.

(** [__init__] establishes the invariant. *)
Lemma init_wf (strict : bool) (M0 N0 num_agentes0 celdas_sucias0 : Z)
    (seed : Random.t) (m : HabitacionModel) :
  HabitacionModel_init strict M0 N0 num_agentes0 celdas_sucias0 seed = Ok m → wf m.
Proof.
  intros Hinit. apply init_Ok in Hinit as (ps & gc & Hps & Hset & Hgc & Hd & Hdone & Horigin & _).
  destruct Hdone as (Hg & Hw & Hh & Hc & _ & Hag & _). simpl in *.
  destruct Hgc as (_ & Hwc & Hhc).
  apply sample_Ok in Hps as (Hk & _); [|apply NoDup_seqZ].
  split; [exact Hg|]. split; [|split; [|split]].
  - rewrite Hag. apply Forall_forall. intros a Ha.
    apply list_elem_of_fmap in Ha as (k & -> & Hk'). apply elem_of_range in Hk'.
    split; [|simpl].
    + apply out_of_bounds_false. simpl. rewrite Hw, Hh, Hwc, Hhc.
      assert (1 ≤ num_agentes0) as Hone by lia. specialize (Horigin Hone). lia.
    + rewrite Hc. apply elem_of_app. right. apply list_elem_of_fmap.
      exists k. split; [reflexivity|]. apply elem_of_range. lia.
  - rewrite Hag, limpiador_inicial_ids. apply NoDup_seqZ.
  - eapply Forall_impl; [exact Hd|]. intros p Hp. apply out_of_bounds_false.
    rewrite Hw, Hh. apply out_of_bounds_false. exact Hp.
  - destruct Hset as (_ & _ & _ & -> & _). lia.
Qed.

(** ** [HabitacionModel.step] *)

Lemma HabitacionModel_step_wf (m : HabitacionModel) :
  wf m → 0 < celdas_sucias m →
  (celdas_sucias m ≤ total_limpias (grid m) (dirty_positions m) →
   HabitacionModel_step m = Ok (set_running (observado m) false)) ∧
  (total_limpias (grid m) (dirty_positions m) < celdas_sucias m →
   HabitacionModel_step m = SimultaneousActivation_step (observado m)).
Proof.
  intros Hwf HD.
  assert (Hwf1 : wf (observado m)) by (revert Hwf; apply wf_ext; reflexivity).
  unfold HabitacionModel_step, collect.
  rewrite (contar_celdas_limpias_wf m Hwf).
  rewrite (proj2 (Z.eqb_neq _ _)) by lia. simpl.
  fold (observado m).
  change (contar_celdas_limpias (observado m)) with (contar_celdas_limpias m).
  rewrite (contar_celdas_limpias_wf m Hwf).
  rewrite (proj2 (Z.eqb_neq _ _)) by lia. simpl.
  split; intros Hn.
  - rewrite (proj2 (Qle_bool_iff _ _)); [reflexivity|].
    apply porcentaje_ge_100; assumption.
  - destruct (Qle_bool _ _) eqn:Hq; [|reflexivity].
    apply Qle_bool_iff in Hq. apply (porcentaje_ge_100 _ _ HD) in Hq. lia.
Qed.

Lemma HabitacionModel_step_zero (m : HabitacionModel) :
  wf m → celdas_sucias m = 0 → HabitacionModel_step m = Raise ZeroDivisionError.
Proof.
  intros Hwf HD. unfold HabitacionModel_step, collect.
  rewrite (contar_celdas_limpias_wf m Hwf), HD. reflexivity.
Qed.

(** A call of [step] that returns keeps the invariant and makes nothing
    dirty. *)
Lemma HabitacionModel_step_Ok (m m' : HabitacionModel) :
  wf m → HabitacionModel_step m = Ok m' →
  wf m' ∧ no_ensucia (grid m) (grid m') ∧
  celdas_sucias m' = celdas_sucias m ∧ dirty_positions m' = dirty_positions m ∧
  width (grid m') = width (grid m) ∧ height (grid m') = height (grid m) ∧
  unique_id <$> agents (schedule m') = unique_id <$> agents (schedule m).
Proof.
  intros Hwf Hstep.
  assert (HD : 0 < celdas_sucias m).
  { destruct (decide (celdas_sucias m = 0)) as [H0|H0].
    - rewrite (HabitacionModel_step_zero m Hwf H0) in Hstep. discriminate Hstep.
    - destruct Hwf as (_ & _ & _ & _ & ?). lia. }
  assert (Hwf1 : wf (observado m)) by (revert Hwf; apply wf_ext; reflexivity).
  destruct (HabitacionModel_step_wf m Hwf HD) as [Hfull Hpart].
  destruct (Z_le_gt_dec (celdas_sucias m) (total_limpias (grid m) (dirty_positions m))).
  - rewrite Hfull in Hstep by assumption. injection Hstep as <-. simpl.
    split; [revert Hwf; apply wf_ext; reflexivity|].
    split; [apply no_ensucia_refl|]. tauto.
  - rewrite Hpart in Hstep by lia.
    destruct (SimultaneousActivation_step_total _ Hwf1)
      as (m2 & H2 & Hwf2 & Hmono & _ & _ & _ & HD' & Hd' & _ & _ & _ & Hw & Hh & Hids).
    rewrite H2 in Hstep. injection Hstep as <-. tauto.
Qed.

(** ** Reachable models *)

Lemma reachable_run (n : nat) :
  ∀ m m', reachable m → run n m = Ok m' → reachable m'.
Proof.
  induction n as [|n IH]; intros m m' Hm Hrun; simpl in Hrun.
  - injection Hrun as <-. exact Hm.
  - apply bind_Ok in Hrun as (m1 & Hstep & Hrun).
    apply (IH m1 m'); [|exact Hrun]. eapply reachable_step; eassumption.
Qed.

Lemma reachable_init_run (strict : bool) (M0 N0 num_agentes0 celdas_sucias0 : Z)
    (seed : Random.t) (n : nat) (m : HabitacionModel) :
  (m0 ← HabitacionModel_init strict M0 N0 num_agentes0 celdas_sucias0 seed; run n m0) = Ok m →
  reachable m.
Proof.
  intros H. apply bind_Ok in H as (m0 & Hinit & Hrun).
  apply (reachable_run n m0 m); [|exact Hrun]. eapply reachable_init. exact Hinit.
Qed.

Lemma reachable_wf (m : HabitacionModel) : reachable m → wf m.
Proof.
  induction 1 as [strict M0 N0 k d seed m Hinit|m m' _ IH Hstep].
  - eapply init_wf. exact Hinit.
  - apply (HabitacionModel_step_Ok m m' IH Hstep).
Qed.

(** * The properties of the specification *)

(** ** Construction: which parameters are rejected *)

Lemma init_Raise_kind (strict : bool) (M0 N0 num_agentes0 celdas_sucias0 : Z)
    (seed : Random.t) (e : exn) :
  HabitacionModel_init strict M0 N0 num_agentes0 celdas_sucias0 seed = Raise e →
  e = ValueError ∨ e = IndexError.
Proof.
  unfold HabitacionModel_init.
  destruct (MultiGrid_init strict M0 N0) as [g0|e0] eqn:Hg0.
  2:{ unfold MultiGrid_init in Hg0. destruct (strict && _); [|discriminate Hg0].
      injection Hg0 as <-. simpl. intros H. injection H as <-. left. reflexivity. }
  simpl.
  destruct (Random.sample (range (M0 * N0)) celdas_sucias0 seed) as [[ps r]|e0] eqn:Hps.
  2:{ unfold Random.sample in Hps. destruct (_ || _); [|discriminate Hps].
      injection Hps as <-. simpl. intros H. injection H as <-. left. reflexivity. }
  simpl.
  apply MultiGrid_init_shape in Hg0 as (Hshape0 & Hw0 & Hh0 & Hempty).
  destruct (cells_loop_total ps M0 N0 {| ic_unique_id := 0; ic_grid := g0; ic_dirty := [] |})
    as (st1 & Hst1 & Hshape1 & Hw1 & Hh1 & Hd1).
  { split; [exact Hshape0|]. split; [exact Hw0|]. split; [exact Hh0|]. constructor. }
  rewrite Hst1. simpl.
  destruct (decide (num_agentes0 ≤ 0 ∨ (2 ≤ width (ic_grid st1) ∧ 2 ≤ height (ic_grid st1))))
    as [Hcase|Hcase].
  - destruct (limpiadores_loop_done (ic_grid st1) Hshape1 num_agentes0 Hcase)
      as ([g s] & Hst2 & _).
    rewrite Hst2. simpl. discriminate.
  - rewrite (limpiadores_loop_fails (ic_grid st1) Hshape1 num_agentes0) by lia.
    simpl. intros H. injection H as <-. right. reflexivity.
Qed.

(** C3, as the code has it.  [HabitacionModel.__init__] validates
    nothing itself; it raises exactly on [init_raises]: a dirty count that is
    negative or above the number of cells ([ValueError] of [random.sample]),
    at least one cleaner on a grid with fewer than two rows or two columns
    ([IndexError] when the cleaner is placed at (1, 1)), or a size below 1
    where the grid library checks it.  The exception is one of these two,
    and on every other parameter tuple a model is returned. *)
Theorem init_raises_iff (strict : bool) (M0 N0 num_agentes0 celdas_sucias0 : Z)
    (seed : Random.t) :
  ((∃ e, HabitacionModel_init strict M0 N0 num_agentes0 celdas_sucias0 seed = Raise e) ↔
   init_raises strict M0 N0 num_agentes0 celdas_sucias0) ∧
  ((∃ m, HabitacionModel_init strict M0 N0 num_agentes0 celdas_sucias0 seed = Ok m) ↔
   ¬ init_raises strict M0 N0 num_agentes0 celdas_sucias0) ∧
  (∀ e, HabitacionModel_init strict M0 N0 num_agentes0 celdas_sucias0 seed = Raise e →
        e = ValueError ∨ e = IndexError).
Proof.
  split; [|split].
  - split; [|apply init_fails].
    intros [e He].
    destruct (decide (init_raises strict M0 N0 num_agentes0 celdas_sucias0)) as [Hr|Hr];
      [exact Hr|].
    destruct (init_total strict M0 N0 num_agentes0 celdas_sucias0 seed Hr) as [m Hm].
    rewrite Hm in He. discriminate He.
  - split; [|apply init_total].
    intros [m Hm] Hr.
    destruct (init_fails strict M0 N0 num_agentes0 celdas_sucias0 seed Hr) as [e He].
    rewrite Hm in He. discriminate He.
  - apply init_Raise_kind.
Qed.

(** Where C3 fails as the spec states it: one row, one column, one
    cleaner and no dirt are positive sizes with a dirty count in range, yet
    the construction raises. *)
Lemma init_1x1_raises :
  0 < 1 ∧ 0 ≤ 0 ≤ 1 * 1 ∧
  HabitacionModel_init false 1 1 1 0 [] = Raise IndexError ∧
  HabitacionModel_init true 1 1 1 0 [] = Raise IndexError.
Proof. repeat split; try lia; vm_compute; reflexivity. Qed.

(** ** Construction: the origin (1, 1) *)

(** C10, as the code has it.  Every cleaner is created at (1, 1).  With at
    least one cleaner, a grid with fewer than two rows or two columns has
    no such cell and the construction raises; so a construction that
    returns with a cleaner has at least two rows and two columns. *)
Theorem init_origin_out_of_grid (strict : bool) (M0 N0 num_agentes0 celdas_sucias0 : Z)
    (seed : Random.t) :
  1 ≤ num_agentes0 → M0 ≤ 1 ∨ N0 ≤ 1 →
  (∀ g, width g = M0 → height g = N0 → out_of_bounds g (1, 1) = true) ∧
  (∃ e, HabitacionModel_init strict M0 N0 num_agentes0 celdas_sucias0 seed = Raise e) ∧
  (∀ M1 N1 m, HabitacionModel_init strict M1 N1 num_agentes0 celdas_sucias0 seed = Ok m →
     2 ≤ M1 ∧ 2 ≤ N1 ∧ Forall (λ a, pos a = (1, 1)) (agents (schedule m))).
Proof.
  intros Hk Hsmall. split; [|split].
  - intros g <- <-. simpl.
    destruct (Z.leb_spec (width g) 1); [reflexivity|].
    destruct (Z.leb_spec (height g) 1); [reflexivity|]. lia.
  - apply init_fails. unfold init_raises. tauto.
  - intros M1 N1 m Hm.
    apply init_Ok in Hm as (ps & gc & _ & _ & _ & _ & Hdone & Horigin & _).
    destruct (Horigin Hk) as [HM HN]. split; [exact HM|]. split; [exact HN|].
    destruct Hdone as (_ & _ & _ & _ & _ & Hag & _). simpl in Hag. rewrite Hag.
    apply Forall_fmap, Forall_true. reflexivity.
Qed.

Lemma init_origin_out_of_grid_witness :
  1 ≤ 2 ∧ (1 ≤ 1 ∨ 5 ≤ 1) ∧
  ∃ e, HabitacionModel_init false 1 5 2 3 [0%nat] = Raise e.
Proof.
  split; [lia|]. split; [left; lia|].
  apply (init_origin_out_of_grid false 1 5 2 3 [0%nat]); [lia | left; lia].
Defined.

(** Where C10 fails as the spec states it: with no cleaner nothing is
    placed at (1, 1), and a grid of one row and one column is built. *)
Lemma init_1x1_no_agents :
  (1 ≤ 1 ∨ 1 ≤ 1) ∧
  is_ok (HabitacionModel_init false 1 1 0 0 []) = true ∧
  is_ok (HabitacionModel_init true 1 1 0 0 []) = true.
Proof. split; [left; lia|]. split; vm_compute; reflexivity. Qed.

(** ** No dirt to clean *)

(** C2, on the code.  With [celdas_sucias = 0] the metric divides by zero:
    [contar_celdas_limpias] raises, and so does the first [step], in the
    data collector, before [running] is touched. *)
Theorem dirty_count_zero_raises (strict : bool) (M0 N0 num_agentes0 : Z)
    (seed : Random.t) (m : HabitacionModel) :
  HabitacionModel_init strict M0 N0 num_agentes0 0 seed = Ok m →
  contar_celdas_limpias m = Raise ZeroDivisionError ∧
  HabitacionModel_step m = Raise ZeroDivisionError ∧
  running m = true.
Proof.
  intros Hinit. pose proof (init_wf _ _ _ _ _ _ _ Hinit) as Hwf.
  apply init_Ok in Hinit as (ps & gc & _ & (_ & _ & _ & HD & Hrun & _) & _).
  split; [|split; [|exact Hrun]].
  - rewrite (contar_celdas_limpias_wf m Hwf), HD. reflexivity.
  - apply HabitacionModel_step_zero; assumption.
Qed.

Lemma dirty_count_zero_raises_witness :
  ∃ m, HabitacionModel_init false 3 3 1 0 [] = Ok m ∧
       contar_celdas_limpias m = Raise ZeroDivisionError ∧
       HabitacionModel_step m = Raise ZeroDivisionError ∧
       running m = true.
Proof.
  destruct (HabitacionModel_init false 3 3 1 0 []) as [m|e] eqn:Hinit;
    [|vm_compute in Hinit; discriminate Hinit].
  exists m. split; [reflexivity|].
  exact (dirty_count_zero_raises false 3 3 1 [] m Hinit).
Defined.

(** ** The state after construction *)

Lemma coord_inj (h u v : Z) : 0 < h → coord h u = coord h v → u = v.
Proof.
  intros Hh Heq. unfold coord in Heq. injection Heq as Hd Hm.
  rewrite (Z.div_mod u h), (Z.div_mod v h) by lia. congruence.
Qed.

Lemma filter_sample_Permutation (ps : list Z) (n : Z) :
  NoDup ps → ps ⊆ range n → filter (λ v, v ∈ ps) (range n) ≡ₚ ps.
Proof.
  intros Hnd Hsub. apply NoDup_Permutation.
  - apply NoDup_filter, NoDup_seqZ.
  - exact Hnd.
  - intros x. rewrite list_elem_of_filter. split; [tauto|].
    intros Hx. split; [exact Hx | apply Hsub, Hx].
Qed.

Lemma filter_limpias_limpiadores (ls : list Z) :
  filter (λ c, es_celda_limpia c = true) (ALimpiador <$> ls) = [].
Proof.
  induction ls as [|k ls IH]; [reflexivity|].
  rewrite fmap_cons, filter_cons_False; [exact IH | simpl; discriminate].
Qed.

(** After construction every cell of the grid holds its [CeldaAgent]
    alone, except (1, 1), which holds after its cell the references of all
    the cleaners in the order of their creation. *)
Lemma init_contents (M0 N0 num_agentes0 celdas_sucias0 : Z) (seed : Random.t)
    (m : HabitacionModel) (ps : list Z) (gc : MultiGrid) (x y : Z) :
  init_result M0 N0 num_agentes0 celdas_sucias0 seed m ps gc →
  0 ≤ x < M0 → 0 ≤ y < N0 →
  contents (grid m) (x, y) =
  celda_inicial ps (x * N0 + y) ::
  (ALimpiador <$> (if decide ((x, y) = (1, 1)) then range num_agentes0 else [])).
Proof.
  intros (_ & _ & (_ & Hwc & Hhc) & _ & Hdone & _ & Hstrong) Hx Hy.
  destruct Hstrong as [Hc _]; [lia|].
  destruct Hdone as (_ & _ & _ & H11 & Ho & _). simpl in *.
  assert (Hr : range (Z.max 0 num_agentes0) = range num_agentes0).
  { unfold range, seqZ.
    replace (Z.to_nat (Z.max 0 num_agentes0)) with (Z.to_nat num_agentes0) by lia.
    reflexivity. }
  destruct (decide ((x, y) = (1, 1))) as [Heq|Hne].
  - injection Heq as -> ->. rewrite H11, (Hc 1 1 Hx Hy), Hr. reflexivity.
  - rewrite Ho; [|apply out_of_bounds_false; simpl; lia|exact Hne].
    rewrite (Hc x y Hx Hy). reflexivity.
Qed.

Lemma elem_of_init_dirty (M0 N0 : Z) (ps : list Z) (x y : Z) :
  0 < N0 → 0 ≤ x < M0 → 0 ≤ y < N0 →
  (x, y) ∈ coord N0 <$> filter (λ v, v ∈ ps) (range (Z.max 0 M0 * N0)) ↔
  x * N0 + y ∈ ps.
Proof.
  intros HN Hx Hy. rewrite list_elem_of_fmap. split.
  - intros (u & Hu & Hin). apply list_elem_of_filter in Hin as [Hps Hr].
    apply elem_of_range in Hr.
    rewrite <- (coord_row_major N0 x y Hy) in Hu.
    apply coord_inj in Hu; [|exact HN]. rewrite Hu. exact Hps.
  - intros Hps. exists (x * N0 + y). split.
    + rewrite coord_row_major by lia. reflexivity.
    + apply list_elem_of_filter. split; [exact Hps|]. apply elem_of_range. nia.
Qed.

Lemma total_limpias_0 (g : MultiGrid) (dirty : list Coordinate) :
  Forall (λ p, limpias_en g p = 0) dirty → total_limpias g dirty = 0.
Proof. induction 1 as [|p dirty Hp _ IH]; simpl; lia. Qed.

Lemma run_dirty_positions (n : nat) :
  ∀ m m', wf m → run n m = Ok m' →
          wf m' ∧ dirty_positions m' = dirty_positions m ∧
          celdas_sucias m' = celdas_sucias m.
Proof.
  induction n as [|n IH]; intros m m' Hwf Hrun; simpl in Hrun.
  - injection Hrun as <-. tauto.
  - apply bind_Ok in Hrun as (m1 & Hstep & Hrun).
    destruct (HabitacionModel_step_Ok m m1 Hwf Hstep) as (Hwf1 & _ & HD & Hd & _).
    destruct (IH m1 m' Hwf1 Hrun) as (Hwf' & Hd' & HD'). split; [exact Hwf'|].
    split; congruence.
Qed.

(** C8.  After a construction with positive sizes: [dirty_positions] holds
    [celdas_sucias] pairwise different coordinates of the grid and no later
    [step] changes it; every coordinate holds exactly one [CeldaAgent], the
    one numbered [x * N + y], dirty exactly when the coordinate is in
    [dirty_positions], and after it the references of the cleaners that were
    placed there: all of them, in the order of their creation, on (1, 1) and
    none anywhere else; [contar_celdas_limpias] returns 0 when the dirty
    count is positive; and the schedule holds the cleaners
    [0 .. num_agentes - 1], each with [pos = (1, 1)] and [movimientos = 0]
    and each listed by the grid on (1, 1), which is a coordinate of the grid
    as soon as there is a cleaner. *)
Theorem init_state (strict : bool) (M0 N0 num_agentes0 celdas_sucias0 : Z)
    (seed : Random.t) (m : HabitacionModel) :
  0 < M0 → 0 < N0 →
  HabitacionModel_init strict M0 N0 num_agentes0 celdas_sucias0 seed = Ok m →
  (NoDup (dirty_positions m) ∧
   Z.of_nat (length (dirty_positions m)) = celdas_sucias0 ∧
   Forall (λ p, out_of_bounds (grid m) p = false) (dirty_positions m)) ∧
  (∀ n m', run n m = Ok m' → dirty_positions m' = dirty_positions m) ∧
  (∀ x y, 0 ≤ x < M0 → 0 ≤ y < N0 →
     ∃ c, contents (grid m) (x, y) =
            ACelda c ::
            (ALimpiador <$> (if decide ((x, y) = (1, 1)) then range num_agentes0 else [])) ∧
          celda_id c = x * N0 + y ∧
          (sucia c = true ↔ (x, y) ∈ dirty_positions m)) ∧
  (0 < celdas_sucias0 →
     ∃ p, contar_celdas_limpias m = Ok p ∧ (p == 0)%Q) ∧
  (agents (schedule m) =
     (λ k, {| unique_id := k; pos := (1, 1); movimientos := 0 |}) <$> range num_agentes0 ∧
   Z.of_nat (length (agents (schedule m))) = Z.max 0 num_agentes0 ∧
   Forall (λ a, pos a = (1, 1) ∧ movimientos a = 0 ∧
                out_of_bounds (grid m) (1, 1) = false ∧
                ALimpiador (unique_id a) ∈ contents (grid m) (1, 1))
          (agents (schedule m)) ∧
   contar_movimientos m = 0).
Proof.
  intros HM HN Hinit. pose proof (init_wf _ _ _ _ _ _ _ Hinit) as Hwf.
  apply init_Ok in Hinit as (ps & gc & Hres).
  pose proof Hres as (Hps & Hset & (_ & Hwc & Hhc) & Hdb & Hdone & _ & Hstrong).
  destruct Hstrong as [Hc Hd]; [exact HN|].
  apply sample_Ok in Hps as (Hk & Hnd & Hlen & Hsub); [|apply NoDup_seqZ].
  replace (Z.max 0 M0) with M0 in Hd by lia.
  pose proof (filter_sample_Permutation ps (M0 * N0) Hnd Hsub) as Hperm.
  assert (Hdirty : ∀ x y, 0 ≤ x < M0 → 0 ≤ y < N0 →
            (x, y) ∈ dirty_positions m ↔ x * N0 + y ∈ ps).
  { intros x y Hx Hy. rewrite Hd. rewrite <- (elem_of_init_dirty M0 N0 ps x y HN Hx Hy).
    replace (Z.max 0 M0) with M0 by lia. reflexivity. }
  assert (Hr : range (Z.max 0 num_agentes0) = range num_agentes0).
  { unfold range, seqZ.
    replace (Z.to_nat (Z.max 0 num_agentes0)) with (Z.to_nat num_agentes0) by lia.
    reflexivity. }
  split; [split; [|split]|split; [|split; [|split]]].
  - rewrite Hd. apply NoDup_fmap_2_strong.
    + intros u v _ _. apply coord_inj. exact HN.
    + apply NoDup_filter, NoDup_seqZ.
  - rewrite Hd, length_fmap, Hperm. exact Hlen.
  - destruct Hwf as (_ & _ & _ & Hwfd & _). exact Hwfd.
  - intros n m' Hrun. apply (run_dirty_positions n m m' Hwf Hrun).
  - intros x y Hx Hy.
    pose proof (init_contents _ _ _ _ _ _ _ _ x y Hres Hx Hy) as Hls.
    eexists. split; [exact Hls|]. simpl. split; [reflexivity|].
    rewrite (Hdirty x y Hx Hy). apply bool_decide_eq_true.
  - intros HD. rewrite (contar_celdas_limpias_wf m Hwf).
    destruct Hset as (_ & _ & _ & HDm & _). rewrite HDm.
    rewrite (proj2 (Z.eqb_neq _ _)) by lia.
    eexists. split; [reflexivity|].
    rewrite total_limpias_0; [apply porcentaje_0; exact HD|].
    apply Forall_forall. intros [x y] Hxy.
    assert (Hb : 0 ≤ x < M0 ∧ 0 ≤ y < N0).
    { rewrite Forall_forall in Hdb. apply Hdb, out_of_bounds_false in Hxy.
      simpl in Hxy. lia. }
    destruct Hb as [Hx Hy].
    pose proof (init_contents _ _ _ _ _ _ _ _ x y Hres Hx Hy) as Hls.
    unfold limpias_en. rewrite Hls. unfold celda_inicial.
    rewrite filter_cons_False.
    + rewrite filter_limpias_limpiadores. reflexivity.
    + simpl. apply (Hdirty x y Hx Hy) in Hxy.
      rewrite bool_decide_eq_true_2 by exact Hxy. discriminate.
  - destruct Hdone as (_ & _ & _ & _ & _ & Hag & _). simpl in Hag.
    rewrite Hr in Hag.
    split; [exact Hag|]. split; [|split].
    + rewrite Hag, length_fmap, <- Hr, length_range. lia.
    + destruct Hwf as (_ & Hplaced & _).
      apply Forall_forall. intros a Ha.
      rewrite Forall_forall in Hplaced. destruct (Hplaced a Ha) as [Hb Hin].
      rewrite Hag in Ha. apply list_elem_of_fmap in Ha as (k & -> & _).
      simpl in Hb, Hin. unfold limpiador_inicial. simpl. tauto.
    + unfold contar_movimientos. rewrite Hag.
      generalize (range num_agentes0). intros l.
      induction l as [|k l IH]; [reflexivity|].
      rewrite !fmap_cons. simpl. rewrite IH. reflexivity.
Qed.

Lemma init_state_witness :
  ∃ m, HabitacionModel_init false 3 3 2 2 [4%nat; 1%nat] = Ok m ∧
       NoDup (dirty_positions m) ∧
       Z.of_nat (length (dirty_positions m)) = 2 ∧
       (∃ c, contents (grid m) (1, 1) = [ACelda c; ALimpiador 0; ALimpiador 1]) ∧
       (∃ c, contents (grid m) (0, 2) = [ACelda c]) ∧
       ∃ p, contar_celdas_limpias m = Ok p ∧ (p == 0)%Q.
Proof.
  destruct (HabitacionModel_init false 3 3 2 2 [4%nat; 1%nat]) as [m|e] eqn:Hinit;
    [|vm_compute in Hinit; discriminate Hinit].
  exists m. split; [reflexivity|].
  destruct (init_state false 3 3 2 2 [4%nat; 1%nat] m) as ((H1 & H2 & _) & _ & H3 & H4 & _);
    [lia | lia | exact Hinit |].
  split; [exact H1|]. split; [exact H2|].
  split; [|split; [|apply H4; lia]].
  - destruct (H3 1 1) as (c & Hc & _); [lia | lia |]. exists c. exact Hc.
  - destruct (H3 0 2) as (c & Hc & _); [lia | lia |]. exists c. exact Hc.
Defined.

(** ** Following the agents through a round *)

Lemma agent_by_id (l : list LimpiadorAgent) (a b : LimpiadorAgent) :
  NoDup (unique_id <$> l) → a ∈ l → b ∈ l → unique_id a = unique_id b → a = b.
Proof.
  intros Hnd Ha Hb Heq.
  pose proof (find_agent_elem_of l a Hnd Ha) as Hfa.
  pose proof (find_agent_elem_of l b Hnd Hb) as Hfb.
  rewrite Heq in Hfa. congruence.
Qed.

(** What one agent step does to the agent records: only the agent that
    steps can change, and it changes by a move to a free neighbour. *)
Lemma step_outcome_agents (m m' : HabitacionModel) (self a : LimpiadorAgent) :
  wf m → self ∈ agents (schedule m) → step_outcome m self m' →
  a ∈ agents (schedule m) →
  ∃ a', a' ∈ agents (schedule m') ∧ unique_id a' = unique_id a ∧
        (unique_id a ≠ unique_id self → a' = a) ∧
        (a' = a ∨
         (a = self ∧ pos a' ∈ libres (grid m) (pos a) ∧
          movimientos a' = movimientos a + 1)).
Proof.
  intros Hwf Hself Hout Ha.
  destruct Hout as [g' Hdirty Hu ->| _ _ ->|q r g' Hdirty Hch Hq Hmv ->]; simpl.
  - exists a. tauto.
  - exists a. tauto.
  - destruct (decide (unique_id a = unique_id self)) as [Heq|Hne].
    + assert (a = self) as ->.
      { destruct Hwf as (_ & _ & Hnd & _). eapply agent_by_id; eassumption. }
      exists (mkLimpiador (unique_id self) q (movimientos self + 1)).
      split; [|split; [reflexivity|split; [congruence|]]].
      * apply elem_of_store_agent. left. split; [reflexivity|]. exists self. tauto.
      * right. simpl. tauto.
    + exists a. split; [|tauto].
      apply elem_of_store_agent. right. simpl. tauto.
Qed.

Lemma libres_neighborhood (g : MultiGrid) (p q : Coordinate) :
  q ∈ libres g p → q ∈ get_neighborhood g p.
Proof. intros Hq. apply elem_of_libres in Hq. tauto. Qed.

(** Through the steps of the agents [keys], each taken once: an agent not
    in [keys] is untouched, and every agent is where it was or on a
    neighbour of where it was, with at most one more move counted. *)
Lemma round_agents (keys : list Z) :
  ∀ (m m' : HabitacionModel) (a : LimpiadorAgent),
    wf m → NoDup keys → keys ⊆ unique_id <$> agents (schedule m) →
    foldM LimpiadorAgent_step keys m = Ok m' →
    a ∈ agents (schedule m) →
    ∃ a', a' ∈ agents (schedule m') ∧ unique_id a' = unique_id a ∧
          (unique_id a ∉ keys → a' = a) ∧
          (pos a' = pos a ∨ pos a' ∈ get_neighborhood (grid m) (pos a)) ∧
          movimientos a ≤ movimientos a' ≤ movimientos a + 1.
Proof.
  induction keys as [|key keys IH]; intros m m' a Hwf Hnd Hsub Hfold Ha.
  - simpl in Hfold. injection Hfold as <-. exists a.
    repeat (split; [first [assumption | reflexivity | tauto]|]). lia.
  - simpl in Hfold. apply bind_Ok in Hfold as (m1 & Hstep & Hfold).
    apply NoDup_cons in Hnd as [Hkey Hnd].
    assert (Hk : key ∈ unique_id <$> agents (schedule m)) by (apply Hsub; left).
    apply elem_of_ids in Hk as (self & Hself & <-).
    pose proof (LimpiadorAgent_step_outcome m m1 self Hwf Hself Hstep) as Hout.
    destruct (step_outcome_wf m m1 self Hwf Hself Hout) as [Hwf1 Hsame].
    destruct Hsame as (_ & _ & _ & _ & _ & _ & _ & _ & Hw & Hh & Hids).
    destruct (step_outcome_agents m m1 self a Hwf Hself Hout Ha)
      as (a1 & Ha1 & Hid1 & Hother & Hmoved).
    destruct (IH m1 m' a1 Hwf1 Hnd) as (a' & Ha' & Hid' & Hkeep & Hpos & Hmov);
      [rewrite Hids; intros k Hk; apply Hsub; right; exact Hk | exact Hfold | exact Ha1 |].
    rewrite (get_neighborhood_dims (grid m) (grid m1) _ Hw Hh) in Hpos.
    exists a'. split; [exact Ha'|]. split; [congruence|].
    destruct (decide (unique_id a = unique_id self)) as [Heq|Hne].
    + assert (a' = a1) as ->.
      { apply Hkeep. rewrite Hid1, Heq. exact Hkey. }
      split; [intros Hnot; exfalso; apply Hnot; rewrite Heq; left|].
      destruct Hmoved as [->|(-> & Hlib & Hm1)].
      * split; [left; reflexivity | lia].
      * split; [right; apply libres_neighborhood in Hlib; exact Hlib | lia].
    + rewrite (Hother Hne) in *. split; [|split; [exact Hpos|exact Hmov]].
      intros Hnot. apply Hkeep. intros Hin. apply Hnot. right. exact Hin.
Qed.

(** ** Positions stay on the grid *)

(** C9.  In every reachable model every cleaner stands on a coordinate of
    the grid; and across a call of [step] every cleaner is where it was or
    on a coordinate that the neighbourhood query of the grid, which skips
    the coordinates outside it, returns for where it was. *)
Theorem agents_in_bounds (m : HabitacionModel) :
  reachable m →
  Forall (λ a, out_of_bounds (grid m) (pos a) = false) (agents (schedule m)) ∧
  (∀ q p, q ∈ get_neighborhood (grid m) p → out_of_bounds (grid m) q = false) ∧
  (∀ m' a a', HabitacionModel_step m = Ok m' →
     a ∈ agents (schedule m) → a' ∈ agents (schedule m') →
     unique_id a' = unique_id a →
     pos a' = pos a ∨ pos a' ∈ get_neighborhood (grid m) (pos a)).
Proof.
  intros Hreach. pose proof (reachable_wf m Hreach) as Hwf.
  split; [|split].
  - destruct Hwf as (_ & Hag & _). eapply Forall_impl; [exact Hag|].
    intros a [Hb _]. exact Hb.
  - intros q p Hq. apply elem_of_get_neighborhood in Hq. tauto.
  - intros m' a a' Hstep Ha Ha' Hid.
    assert (HD : 0 < celdas_sucias m).
    { destruct (decide (celdas_sucias m = 0)) as [H0|H0].
      - rewrite (HabitacionModel_step_zero m Hwf H0) in Hstep. discriminate Hstep.
      - destruct Hwf as (_ & _ & _ & _ & ?). lia. }
    destruct (HabitacionModel_step_Ok m m' Hwf Hstep) as (Hwf' & _).
    destruct (HabitacionModel_step_wf m Hwf HD) as [Hfull Hpart].
    destruct (Z_le_gt_dec (celdas_sucias m) (total_limpias (grid m) (dirty_positions m))).
    + rewrite Hfull in Hstep by assumption. injection Hstep as <-. simpl in Ha'.
      left. f_equal. destruct Hwf as (_ & _ & Hnd & _). eapply agent_by_id; eassumption.
    + rewrite Hpart in Hstep by lia. unfold SimultaneousActivation_step in Hstep.
      apply bind_Ok in Hstep as (m1 & Hfold & Hstep). injection Hstep as <-.
      simpl in Ha', Hfold.
      assert (Hwf1 : wf (observado m)) by (revert Hwf; apply wf_ext; reflexivity).
      destruct (round_agents (unique_id <$> agents (schedule m)) (observado m) m1 a Hwf1)
        as (a1 & Ha1 & Hid1 & _ & Hpos & _);
        [destruct Hwf as (_ & _ & Hnd & _); exact Hnd | intros k Hk; exact Hk
        | exact Hfold | exact Ha |].
      assert (a' = a1) as ->; [|exact Hpos].
      destruct Hwf' as (_ & _ & Hnd' & _). simpl in Hnd'.
      eapply agent_by_id; [exact Hnd' | exact Ha' | exact Ha1 | congruence].
Qed.

Lemma agents_in_bounds_witness :
  ∃ m, (m0 ← HabitacionModel_init false 3 3 2 1 [8%nat; 0%nat; 0%nat; 0%nat; 0%nat];
        run 2 m0) = Ok m ∧
       Forall (λ a, out_of_bounds (grid m) (pos a) = false) (agents (schedule m)).
Proof.
  destruct (m0 ← HabitacionModel_init false 3 3 2 1 [8%nat; 0%nat; 0%nat; 0%nat; 0%nat];
            run 2 m0) as [m|e] eqn:Hrun; [|vm_compute in Hrun; discriminate Hrun].
  exists m. split; [reflexivity|].
  apply (agents_in_bounds m). eapply reachable_init_run. exact Hrun.
Defined.

(** ** The decision rule of a cleaner *)

Lemma existsb_es_limpiador_false (l : list Agent) :
  existsb es_limpiador l = false ↔ ∀ k, ALimpiador k ∉ l.
Proof.
  induction l as [|obj l IH]; simpl.
  - split; [|reflexivity]. intros _ k Hk. apply elem_of_nil in Hk. exact Hk.
  - rewrite orb_false_iff, IH. split.
    + intros [Hobj Hl] k Hk. apply elem_of_cons in Hk as [<-|Hk]; [discriminate Hobj|].
      exact (Hl k Hk).
    + intros H. split.
      * destruct obj as [c|k]; [reflexivity|]. exfalso. apply (H k). left.
      * intros k Hk. apply (H k). right. exact Hk.
Qed.













(** ** No move onto a cleaner *)

(** C5, as the code has it.  A call of [step] on a reachable model that
    leaves [running] true has run one round: the steps of all the scheduled
    agents, in the order of the schedule, from the model as
    [datacollector.collect] left it, which is a well-formed model.  And
    inside a round from any well-formed model, when the agents [keys1] have
    already stepped and the agent [key] steps next: if it moves, its target
    is a neighbour of its cell that holds no cleaner in the grid as those
    earlier steps left it, and after the move it is the only cleaner there.
    With [keys1] empty that grid is the one the round started from. *)
Theorem no_move_onto_cleaner :
  (∀ m m' : HabitacionModel,
     reachable m → HabitacionModel_step m = Ok m' → running m' = true →
     wf (observado m) ∧
     agents (schedule (observado m)) = agents (schedule m) ∧
     grid (observado m) = grid m ∧
     ∃ m1, foldM LimpiadorAgent_step (unique_id <$> agents (schedule m)) (observado m)
             = Ok m1 ∧
           grid m' = grid m1 ∧ agents (schedule m') = agents (schedule m1)) ∧
  (∀ (m m1 m2 : HabitacionModel) (keys1 : list Z) (key : Z) (a a' : LimpiadorAgent),
     wf m → keys1 ⊆ unique_id <$> agents (schedule m) →
     foldM LimpiadorAgent_step keys1 m = Ok m1 →
     LimpiadorAgent_step m1 key = Ok m2 →
     a ∈ agents (schedule m1) → unique_id a = key →
     a' ∈ agents (schedule m2) → unique_id a' = key →
     pos a' ≠ pos a →
     pos a' ∈ get_neighborhood (grid m1) (pos a) ∧
     (∀ k, ALimpiador k ∉ contents (grid m1) (pos a')) ∧
     (∀ k, ALimpiador k ∈ contents (grid m2) (pos a') ↔ k = key)).
Proof.
  split.
  - intros m m' Hreach Hstep Hrun. pose proof (reachable_wf m Hreach) as Hwf.
    assert (Hwf1 : wf (observado m)) by (revert Hwf; apply wf_ext; reflexivity).
    split; [exact Hwf1|]. split; [reflexivity|]. split; [reflexivity|].
    assert (HD : 0 < celdas_sucias m).
    { destruct (decide (celdas_sucias m = 0)) as [H0|H0].
      - rewrite (HabitacionModel_step_zero m Hwf H0) in Hstep. discriminate Hstep.
      - destruct Hwf as (_ & _ & _ & _ & ?). lia. }
    destruct (HabitacionModel_step_wf m Hwf HD) as [Hfull Hpart].
    destruct (Z_le_gt_dec (celdas_sucias m) (total_limpias (grid m) (dirty_positions m))).
    + rewrite Hfull in Hstep by assumption. injection Hstep as <-.
      simpl in Hrun. discriminate Hrun.
    + rewrite Hpart in Hstep by lia. unfold SimultaneousActivation_step in Hstep.
      apply bind_Ok in Hstep as (m1 & Hfold & Hstep). injection Hstep as <-.
      exists m1. split; [exact Hfold|]. split; reflexivity.
  - intros m m1 m2 keys1 key a a' Hwf Hsub Hfold Hstep Ha Hid Ha' Hid' Hmoved.
    destruct (round_total m keys1 Hwf Hsub) as (m1' & Hfold' & Hwf1 & _).
    rewrite Hfold in Hfold'. injection Hfold' as <-.
    subst key.
    pose proof (LimpiadorAgent_step_outcome m1 m2 a Hwf1 Ha Hstep) as Hout.
    pose proof (wf_agent m1 a Hwf1 Ha) as [Hb Hin].
    assert (Hnd : NoDup (unique_id <$> agents (schedule m1))) by apply Hwf1.
    assert (Hg : grid_shape (grid m1)) by apply Hwf1.
    destruct Hout as [g' _ _ ->| _ _ ->|q r g' _ _ Hq Hmv ->]; simpl in Ha'.
    + exfalso. apply Hmoved. f_equal. eapply agent_by_id; eassumption.
    + exfalso. apply Hmoved. f_equal. eapply agent_by_id; eassumption.
    + apply elem_of_store_agent in Ha' as [[-> _]|[_ Hne]];
        [simpl in *|simpl in Hne; congruence].
      pose proof Hq as Hq'. apply elem_of_libres in Hq' as [Hn Hfree].
      pose proof Hn as Hn'. apply elem_of_get_neighborhood in Hn' as (Hqb & Hqne & _).
      destruct (move_agent_inb (grid m1) (ALimpiador (unique_id a)) (pos a) q)
        as (g1 & l' & Hmv1 & _ & _ & _ & _ & _ & Hct & _); try assumption; [congruence|].
      rewrite Hmv1 in Hmv. injection Hmv as <-.
      pose proof (proj1 (existsb_es_limpiador_false _) Hfree) as Hnone.
      split; [exact Hn|]. split; [exact Hnone|].
      intros k. rewrite Hct, elem_of_app, list_elem_of_singleton. split.
      * intros [Hk|Hk]; [destruct (Hnone k Hk) | injection Hk as ->; reflexivity].
      * intros ->. right. reflexivity.
Qed.

Lemma no_move_onto_cleaner_witness :
  ∃ m m' m1 m2 a',
    HabitacionModel_init false 3 3 2 1 [8%nat; 0%nat; 0%nat] = Ok m ∧
    HabitacionModel_step m = Ok m' ∧ running m' = true ∧
    foldM LimpiadorAgent_step [0] (observado m) = Ok m1 ∧
    LimpiadorAgent_step m1 1 = Ok m2 ∧
    grid m' = grid m2 ∧
    a' ∈ agents (schedule m2) ∧ unique_id a' = 1 ∧
    ∀ k, ALimpiador k ∉ contents (grid m1) (pos a').
Proof.
  destruct (HabitacionModel_init false 3 3 2 1 [8%nat; 0%nat; 0%nat]) as [m|e] eqn:Hinit;
    [|vm_compute in Hinit; discriminate Hinit].
  pose proof (reachable_init _ _ _ _ _ _ _ Hinit) as Hreach.
  destruct (HabitacionModel_step m) as [m'|e] eqn:Hstep.
  2:{ vm_compute in Hinit. injection Hinit as <-. vm_compute in Hstep. discriminate Hstep. }
  assert (Hrun : running m' = true).
  { vm_compute in Hinit. injection Hinit as <-.
    vm_compute in Hstep. injection Hstep as <-. reflexivity. }
  destruct (proj1 no_move_onto_cleaner m m' Hreach Hstep Hrun) as (Hwf1 & _ & _ & _).
  destruct (foldM LimpiadorAgent_step [0] (observado m)) as [m1|e] eqn:Hfold.
  2:{ vm_compute in Hinit. injection Hinit as <-. vm_compute in Hfold. discriminate Hfold. }
  destruct (LimpiadorAgent_step m1 1) as [m2|e] eqn:Hstep1.
  2:{ vm_compute in Hinit. injection Hinit as <-.
      vm_compute in Hfold. injection Hfold as <-.
      vm_compute in Hstep1. discriminate Hstep1. }
  exists m, m', m1, m2, {| unique_id := 1; pos := (0, 1); movimientos := 1 |}.
  split; [reflexivity|]. split; [exact Hstep|]. split; [exact Hrun|].
  split; [exact Hfold|]. split; [exact Hstep1|].
  pose proof Hfold as Hfold'. pose proof Hstep1 as Hstep1'.
  vm_compute in Hinit. injection Hinit as <-.
  vm_compute in Hstep. injection Hstep as <-.
  vm_compute in Hfold. injection Hfold as <-.
  vm_compute in Hstep1. injection Hstep1 as <-.
  split; [reflexivity|]. split; [right; left|]. split; [reflexivity|].
  eapply (proj2 no_move_onto_cleaner _ _ _ [0] 1
            {| unique_id := 1; pos := (1, 1); movimientos := 0 |}
            {| unique_id := 1; pos := (0, 1); movimientos := 1 |} Hwf1).
  - intros k Hk. apply list_elem_of_singleton in Hk as ->. left.
  - exact Hfold'.
  - exact Hstep1'.
  - right. left.
  - reflexivity.
  - right. left.
  - reflexivity.
  - discriminate.
Defined.

(** Where C5 fails as the spec states it: in the second round of this run
    agent 0 leaves (0, 0) first, and agent 1 then moves from (0, 1) onto
    (0, 0), where agent 0 stood when the round began. *)
Lemma move_onto_snapshot_cleaner :
  ∃ m m',
    (m0 ← HabitacionModel_init false 3 3 2 1 [8%nat; 0%nat; 0%nat; 0%nat; 0%nat];
     run 1 m0) = Ok m ∧
    HabitacionModel_step m = Ok m' ∧
    agents (schedule m) = [mkLimpiador 0 (0, 0) 1; mkLimpiador 1 (0, 1) 1] ∧
    agents (schedule m') = [mkLimpiador 0 (1, 0) 2; mkLimpiador 1 (0, 0) 2] ∧
    ¬ snapshot_no_overlap m m'.
Proof.
  eexists _, _.
  split; [vm_compute; reflexivity|].
  split; [vm_compute; reflexivity|].
  split; [reflexivity|]. split; [reflexivity|].
  intros H.
  apply (H (mkLimpiador 1 (0, 1) 1) (mkLimpiador 1 (0, 0) 2) 0).
  - right. left.
  - right. left.
  - reflexivity.
  - discriminate.
  - discriminate.
  - right. left.
Qed.

(** ** Monotonicity of the metric *)

Lemma run_Ok (n : nat) :
  ∀ m m', wf m → run n m = Ok m' →
          wf m' ∧ no_ensucia (grid m) (grid m') ∧
          celdas_sucias m' = celdas_sucias m ∧ dirty_positions m' = dirty_positions m ∧
          width (grid m') = width (grid m) ∧ height (grid m') = height (grid m).
Proof.
  induction n as [|n IH]; intros m m' Hwf Hrun; simpl in Hrun.
  - injection Hrun as <-. split; [exact Hwf|]. split; [apply no_ensucia_refl|]. tauto.
  - apply bind_Ok in Hrun as (m1 & Hstep & Hrun).
    destruct (HabitacionModel_step_Ok m m1 Hwf Hstep) as (Hwf1 & Hmono & HD & Hd & Hw & Hh & _).
    destruct (IH m1 m' Hwf1 Hrun) as (Hwf' & Hmono' & HD' & Hd' & Hw' & Hh').
    split; [exact Hwf'|].
    split; [eapply no_ensucia_trans; eassumption|].
    repeat split; congruence.
Qed.

(** C6.  Over any number of calls of [step] from a reachable model: the
    value of [contar_celdas_limpias] does not decrease (it is defined at both
    ends when the dirty count is positive); a [CeldaAgent] that is dirty at
    the end was the same dirty cell at the start; and [limpiar] sets
    [sucia] to false, is idempotent and leaves a clean cell as it is. *)
Theorem clean_fraction_monotone (m m' : HabitacionModel) (n : nat) :
  reachable m → run n m = Ok m' →
  (0 < celdas_sucias m →
   ∃ p p', contar_celdas_limpias m = Ok p ∧ contar_celdas_limpias m' = Ok p' ∧
           (p <= p')%Q) ∧
  (∀ q c, out_of_bounds (grid m) q = false →
          ACelda c ∈ contents (grid m') q → sucia c = true →
          ACelda c ∈ contents (grid m) q) ∧
  (∀ c, sucia (limpiar c) = false ∧ limpiar (limpiar c) = limpiar c ∧
        (sucia c = false → limpiar c = c)).
Proof.
  intros Hreach Hrun. pose proof (reachable_wf m Hreach) as Hwf.
  destruct (run_Ok n m m' Hwf Hrun) as (Hwf' & Hmono & HD & Hd & _).
  split; [|split].
  - intros Hpos.
    rewrite (contar_celdas_limpias_wf m Hwf), (contar_celdas_limpias_wf m' Hwf'), HD, Hd.
    rewrite (proj2 (Z.eqb_neq _ _)) by lia.
    eexists _, _. split; [reflexivity|]. split; [reflexivity|].
    apply porcentaje_mono; [exact Hpos|].
    apply total_limpias_mono; [exact Hmono|].
    destruct Hwf as (_ & _ & _ & Hdb & _). exact Hdb.
  - intros q c Hq Hc Hs. destruct (Hmono q Hq) as [_ Hkeep]. apply Hkeep; assumption.
  - intros [uid s]. split; [reflexivity|]. split; [reflexivity|].
    simpl. intros ->. reflexivity.
Qed.

Lemma clean_fraction_monotone_witness :
  ∃ m m' p p',
    HabitacionModel_init false 3 3 2 1 [0%nat; 0%nat; 0%nat; 0%nat; 0%nat] = Ok m ∧
    run 2 m = Ok m' ∧
    contar_celdas_limpias m = Ok p ∧ contar_celdas_limpias m' = Ok p' ∧ (p <= p')%Q.
Proof.
  destruct (HabitacionModel_init false 3 3 2 1 [0%nat; 0%nat; 0%nat; 0%nat; 0%nat])
    as [m|e] eqn:Hinit; [|vm_compute in Hinit; discriminate Hinit].
  destruct (run 2 m) as [m'|e] eqn:Hrun.
  2:{ vm_compute in Hinit. injection Hinit as <-. vm_compute in Hrun. discriminate Hrun. }
  destruct (clean_fraction_monotone m m' 2) as (Hp & _).
  - eapply reachable_init. exact Hinit.
  - exact Hrun.
  - destruct Hp as (p & p' & H1 & H2 & Hle).
    + vm_compute in Hinit. injection Hinit as <-. simpl. lia.
    + exists m, m', p, p'. tauto.
Defined.

(** ** Termination *)

Lemma contar_celdas_limpias_ext (m m' : HabitacionModel) :
  simulation_state m' = simulation_state m →
  contar_celdas_limpias m' = contar_celdas_limpias m.
Proof.
  unfold simulation_state, contar_celdas_limpias. intros H.
  injection H as -> _ _ -> ->. reflexivity.
Qed.

Lemma result_bind_assoc {A B C} (r : result A) (f : A → result B) (g : B → result C) :
  ((r ≫= f) ≫= g) = (r ≫= λ a, f a ≫= g).
Proof. destruct r; reflexivity. Qed.

Lemma run_snoc (n : nat) :
  ∀ m, run (S n) m = (run n m ≫= HabitacionModel_step).
Proof.
  induction n as [|n IH]; intros m.
  - simpl. destruct (HabitacionModel_step m); reflexivity.
  - change (run (S (S n)) m) with (HabitacionModel_step m ≫= run (S n)).
    change (run (S n) m) with (HabitacionModel_step m ≫= run n).
    rewrite result_bind_assoc.
    destruct (HabitacionModel_step m) as [m1|e]; [|reflexivity]. simpl. apply IH.
Qed.

(** A step of an agent never touches the flag. *)
Lemma LimpiadorAgent_step_running (m m' : HabitacionModel) (key : Z) :
  LimpiadorAgent_step m key = Ok m' → running m' = running m.
Proof.
  unfold LimpiadorAgent_step. intros H.
  apply bind_Ok in H as (self & _ & H).
  apply bind_Ok in H as (celda & _ & H).
  destruct (existsb es_celda_sucia celda).
  - apply bind_Ok in H as (g & _ & H). injection H as <-. reflexivity.
  - unfold mover in H.
    apply bind_Ok in H as (self' & _ & H).
    apply bind_Ok in H as (vm & _ & H).
    destruct vm as [|q0 vm]; [injection H as <-; reflexivity|].
    apply bind_Ok in H as ([q r] & _ & H).
    apply bind_Ok in H as (g & _ & H). injection H as <-. reflexivity.
Qed.

Lemma SimultaneousActivation_step_running (m m' : HabitacionModel) :
  SimultaneousActivation_step m = Ok m' → running m' = running m.
Proof.
  unfold SimultaneousActivation_step. intros H.
  apply bind_Ok in H as (m1 & Hfold & H). injection H as <-. simpl.
  revert Hfold. apply (foldM_invariant LimpiadorAgent_step (λ b, running b = running m)).
  - intros b key b' _ Hb Hstep. rewrite <- Hb. eapply LimpiadorAgent_step_running. exact Hstep.
  - reflexivity.
Qed.

Lemma HabitacionModel_step_full (m : HabitacionModel) (p : Q) :
  contar_celdas_limpias m = Ok p → (100 <= p)%Q →
  HabitacionModel_step m = Ok (terminado m p).
Proof.
  intros Hp Hfull. unfold HabitacionModel_step, collect. rewrite Hp. simpl.
  rewrite (contar_celdas_limpias_ext m) by reflexivity. rewrite Hp. simpl.
  rewrite (proj2 (Qle_bool_iff _ _) Hfull). reflexivity.
Qed.

Lemma HabitacionModel_step_cases (m m' : HabitacionModel) :
  HabitacionModel_step m = Ok m' →
  ∃ p, contar_celdas_limpias m = Ok p ∧
       (((100 <= p)%Q ∧ m' = terminado m p) ∨
        (¬ (100 <= p)%Q ∧ running m' = running m)).
Proof.
  unfold HabitacionModel_step, collect. intros H.
  apply bind_Ok in H as (m1 & H1 & H).
  apply bind_Ok in H1 as (p & Hp & H1). injection H1 as <-.
  exists p. split; [exact Hp|].
  rewrite (contar_celdas_limpias_ext m) in H by reflexivity. rewrite Hp in H. simpl in H.
  destruct (Qle_bool 100 p) eqn:Hq.
  - left. apply Qle_bool_iff in Hq. split; [exact Hq|]. injection H as <-. reflexivity.
  - right. split.
    + intros Hle. apply Qle_bool_iff in Hle. congruence.
    + apply SimultaneousActivation_step_running in H. exact H.
Qed.

Lemma run_terminado (n : nat) :
  ∀ (m : HabitacionModel) (p : Q),
    contar_celdas_limpias m = Ok p → (100 <= p)%Q →
    ∃ m', run n (terminado m p) = Ok m' ∧ running m' = false ∧
          simulation_state m' = simulation_state m.
Proof.
  induction n as [|n IH]; intros m p Hp Hfull.
  - exists (terminado m p). split; [reflexivity|]. split; reflexivity.
  - assert (Hp' : contar_celdas_limpias (terminado m p) = Ok p).
    { rewrite (contar_celdas_limpias_ext m) by reflexivity. exact Hp. }
    simpl. rewrite (HabitacionModel_step_full _ p Hp' Hfull). simpl.
    destruct (IH (terminado m p) p Hp' Hfull) as (m' & Hrun & Hr & Hs).
    exists m'. split; [exact Hrun|]. split; [exact Hr|]. rewrite Hs. reflexivity.
Qed.

(** C4.  A call of [step] that finds [contar_celdas_limpias] at 100 or
    more returns with [running] false and with the grid, the agents, their
    counters, the step counter and the generator as they were; every later
    call does the same.  And along any run that starts with [running] true,
    [running] is false after [n] calls exactly when one of those calls found
    the metric at 100 or more: it becomes false at the first such call. *)
Theorem terminated_absorbing :
  (∀ (m : HabitacionModel) (p : Q),
     contar_celdas_limpias m = Ok p → (100 <= p)%Q →
     ∃ m', HabitacionModel_step m = Ok m' ∧ running m' = false ∧
           simulation_state m' = simulation_state m ∧
           ∀ n, ∃ m'', run n m' = Ok m'' ∧ running m'' = false ∧
                       simulation_state m'' = simulation_state m) ∧
  (∀ (m0 mn : HabitacionModel) (n : nat),
     running m0 = true → run n m0 = Ok mn →
     (running mn = false ↔
      ∃ i mi p, (i < n)%nat ∧ run i m0 = Ok mi ∧
                contar_celdas_limpias mi = Ok p ∧ (100 <= p)%Q)).
Proof.
  split.
  - intros m p Hp Hfull. exists (terminado m p).
    split; [apply HabitacionModel_step_full; assumption|].
    split; [reflexivity|]. split; [reflexivity|].
    intros n. apply run_terminado; assumption.
  - intros m0 mn n Hrun0. revert mn. induction n as [|n IH]; intros mn Hrun.
    + simpl in Hrun. injection Hrun as <-. split; [congruence|].
      intros (i & _ & _ & Hi & _). lia.
    + rewrite run_snoc in Hrun. apply bind_Ok in Hrun as (m1 & Hrun1 & Hstep).
      specialize (IH m1 Hrun1).
      destruct (HabitacionModel_step_cases m1 mn Hstep) as (p & Hp & [[Hfull ->]|[Hnot Hr]]).
      * split; [|reflexivity]. intros _. exists n, m1, p. split; [lia|]. tauto.
      * rewrite Hr, IH. split.
        -- intros (i & mi & q & Hi & Hrun & Hq & Hle). exists i, mi, q. split; [lia|]. tauto.
        -- intros (i & mi & q & Hi & Hrun & Hq & Hle).
           destruct (decide (i = n)) as [->|Hne].
           ++ rewrite Hrun1 in Hrun. injection Hrun as <-.
              rewrite Hp in Hq. injection Hq as <-. contradiction.
           ++ exists i, mi, q. split; [lia|]. tauto.
Qed.

Lemma terminated_absorbing_witness :
  ∃ m p,
    (m0 ← HabitacionModel_init false 3 3 2 1 [0%nat; 0%nat; 0%nat; 0%nat; 0%nat];
     run 2 m0) = Ok m ∧
    contar_celdas_limpias m = Ok p ∧ (100 <= p)%Q ∧
    ∃ m', HabitacionModel_step m = Ok m' ∧ running m' = false ∧
          simulation_state m' = simulation_state m.
Proof.
  eexists _, 100%Q.
  split; [vm_compute; reflexivity|].
  split; [vm_compute; reflexivity|].
  split; [apply Qle_refl|].
  match goal with
  | |- ∃ m', HabitacionModel_step ?m = _ ∧ _ =>
      destruct (proj1 terminated_absorbing m 100%Q) as (m' & Hstep & Hr & Hs & _);
        [vm_compute; reflexivity | apply Qle_refl |]
  end.
  exists m'. split; [exact Hstep|]. split; [exact Hr|exact Hs].
Defined.

(** ** Simultaneous activation *)

#[local] Arguments Random.choice : simpl never.

Lemma LimpiadorAgent_step_decide_and_apply (m : HabitacionModel) (key : Z) :
  LimpiadorAgent_step m key = decide_and_apply m key.
Proof.
  unfold LimpiadorAgent_step, decide_and_apply, decision, mover, apply_action.
  destruct (find_agent key (agents (schedule m))) as [self|e] eqn:Hfind; [|reflexivity].
  simpl.
  destruct (get_cell_list_contents (grid m) (pos self)) as [celda|e]; [|reflexivity].
  simpl. destruct (existsb es_celda_sucia celda); simpl.
  - rewrite Hfind. simpl.
    destruct (update_cell limpiar_celda (grid m) (pos self)); reflexivity.
  - destruct (valid_moves (grid m) (get_neighborhood (grid m) (pos self)))
      as [[|q0 vm]|e]; simpl; [| |reflexivity].
    + rewrite Hfind. simpl. destruct m; reflexivity.
    + destruct (Random.choice (q0 :: vm) (random m)) as [[q r]|e]; [|reflexivity].
      simpl. rewrite Hfind. simpl.
      destruct (move_agent (grid m) (ALimpiador key) (pos self) q); reflexivity.
Qed.

Lemma foldM_ext {A B} (f g : B → A → result B) (l : list A) (b : B) :
  (∀ b a, f b a = g b a) → foldM f l b = foldM g l b.
Proof.
  intros Hfg. revert b. induction l as [|a l IH]; intros b; [reflexivity|].
  simpl. rewrite Hfg. destruct (g b a); simpl; [apply IH | reflexivity].
Qed.

(** C1, as the code has it.  The step of an agent is its decision on the
    grid as it is at that moment, applied at once; a round is these steps
    one after the other in the order of the schedule, so an agent decides on
    the grid left by the agents before it.  With a single scheduled agent
    this is the two-phase round of the spec. *)
Theorem round_is_interleaved (m : HabitacionModel) :
  (∀ key, LimpiadorAgent_step m key = decide_and_apply m key) ∧
  SimultaneousActivation_step m = interleaved_round m ∧
  (∀ self, agents (schedule m) = [self] →
           SimultaneousActivation_step m = spec_two_phase_round m).
Proof.
  split; [apply LimpiadorAgent_step_decide_and_apply|]. split.
  - unfold SimultaneousActivation_step, interleaved_round.
    rewrite (foldM_ext LimpiadorAgent_step decide_and_apply)
      by (intros; apply LimpiadorAgent_step_decide_and_apply).
    reflexivity.
  - intros self Hone.
    unfold SimultaneousActivation_step, spec_two_phase_round. rewrite Hone. simpl.
    rewrite LimpiadorAgent_step_decide_and_apply. unfold decide_and_apply.
    rewrite Hone. unfold find_agent. simpl. rewrite Z.eqb_refl. simpl.
    destruct (decision (grid m) self (random m)) as [[a r]|e]; [|reflexivity]. simpl.
    destruct (apply_action (set_random m r) (unique_id self) a); reflexivity.
Qed.

(** Where C1 fails as the spec states it.  Two cleaners start on (1, 1) of
    a grid of three rows and three columns.  In the code agent 0 moves to
    (0, 0) and agent 1, which then sees it there, moves to (0, 1); in the
    two-phase round both decide on the snapshot and both move to (0, 0); and
    stepping agent 1 before agent 0 swaps the two results. *)
Lemma round_order_matters :
  ∃ m m12 m21 m2p,
    HabitacionModel_init false 3 3 2 1 [8%nat; 0%nat; 0%nat] = Ok m ∧
    SimultaneousActivation_step m = Ok m12 ∧
    agents (schedule m12) = [mkLimpiador 0 (0, 0) 1; mkLimpiador 1 (0, 1) 1] ∧
    spec_two_phase_round m = Ok m2p ∧
    agents (schedule m2p) = [mkLimpiador 0 (0, 0) 1; mkLimpiador 1 (0, 0) 1] ∧
    foldM LimpiadorAgent_step [1; 0] m = Ok m21 ∧
    agents (schedule m21) = [mkLimpiador 0 (0, 1) 1; mkLimpiador 1 (0, 0) 1] ∧
    SimultaneousActivation_step m ≠ spec_two_phase_round m ∧
    foldM LimpiadorAgent_step [0; 1] m ≠ foldM LimpiadorAgent_step [1; 0] m.
Proof.
  eexists _, _, _, _.
  split; [vm_compute; reflexivity|].
  split; [vm_compute; reflexivity|].
  split; [reflexivity|].
  split; [vm_compute; reflexivity|].
  split; [reflexivity|].
  split; [vm_compute; reflexivity|].
  split; [reflexivity|].
  split; vm_compute; discriminate.
Qed.

Lemma round_is_interleaved_witness :
  ∃ m, HabitacionModel_init false 3 3 1 1 [4%nat; 2%nat] = Ok m ∧
       agents (schedule m) = [limpiador_inicial 0] ∧
       SimultaneousActivation_step m = spec_two_phase_round m.
Proof.
  eexists. split; [vm_compute; reflexivity|]. split; [reflexivity|].
  match goal with
  | |- SimultaneousActivation_step ?m = _ =>
      apply (proj2 (proj2 (round_is_interleaved m)) (limpiador_inicial 0))
  end.
  reflexivity.
Defined.

Lemma init_raises_iff_witness :
  init_raises false 1 1 1 0 ∧
  ∃ e, HabitacionModel_init false 1 1 1 0 [] = Raise e ∧
       (e = ValueError ∨ e = IndexError).
Proof.
  destruct (init_raises_iff false 1 1 1 0 []) as (Hiff & _ & Hkind).
  assert (Hr : init_raises false 1 1 1 0) by (unfold init_raises; lia).
  split; [exact Hr|].
  destruct (proj2 Hiff Hr) as [e He]. exists e. split; [exact He|]. apply Hkind, He.
Defined.

(** * Further properties of the program *)

(** ** Cell lists: one cell, then the cleaners *)

Lemma elem_of_refs (c : CeldaAgent) (ls : list Z) (k : Z) :
  ALimpiador k ∈ ACelda c :: (ALimpiador <$> ls) ↔ k ∈ ls.
Proof.
  rewrite elem_of_cons, list_elem_of_fmap. split.
  - intros [H|(j & H & Hj)]; [discriminate H|]. injection H as ->. exact Hj.
  - intros Hk. right. exists k. split; [reflexivity | exact Hk].
Qed.

Lemma celda_of_refs (c c' : CeldaAgent) (ls : list Z) :
  ACelda c' ∈ ACelda c :: (ALimpiador <$> ls) ↔ c' = c.
Proof.
  rewrite elem_of_cons, list_elem_of_fmap. split.
  - intros [H|(j & H & _)]; [injection H as ->; reflexivity | discriminate H].
  - intros ->. left. reflexivity.
Qed.

Lemma refs_free (c : CeldaAgent) (ls : list Z) :
  existsb es_limpiador (ACelda c :: (ALimpiador <$> ls)) = false → ls = [].
Proof. destruct ls as [|k ls]; [reflexivity | discriminate]. Qed.

Lemma limpiar_celda_refs (c : CeldaAgent) (ls : list Z) :
  limpiar_celda (ACelda c :: (ALimpiador <$> ls)) =
  ACelda (if sucia c then limpiar c else c) :: (ALimpiador <$> ls).
Proof.
  unfold limpiar_celda. rewrite fmap_cons. f_equal.
  - destruct (sucia c); reflexivity.
  - rewrite <- list_fmap_compose. apply list_fmap_ext. reflexivity.
Qed.

(** [list.remove] of a cleaner from a cell list keeps the cell and the
    other cleaners. *)
Lemma list_remove_refs (c : CeldaAgent) (ls : list Z) (k : Z) :
  NoDup ls → k ∈ ls →
  ∃ ls', list_remove (ALimpiador k) (ACelda c :: (ALimpiador <$> ls)) =
           Some (ACelda c :: (ALimpiador <$> ls')) ∧
         NoDup ls' ∧ (∀ j, j ∈ ls' ↔ j ∈ ls ∧ j ≠ k) ∧
         (length ls' ≤ length ls)%nat.
Proof.
  intros Hnd Hk.
  assert (H : ∃ ls', list_remove (ALimpiador k) (ALimpiador <$> ls) =
                       Some (ALimpiador <$> ls') ∧
                     NoDup ls' ∧ (∀ j, j ∈ ls' ↔ j ∈ ls ∧ j ≠ k) ∧
                     (length ls' ≤ length ls)%nat).
  { induction ls as [|i ls IH]; [apply elem_of_nil in Hk; destruct Hk|].
    apply NoDup_cons in Hnd as [Hi Hnd]. rewrite fmap_cons. simpl.
    destruct (decide (ALimpiador i = ALimpiador k)) as [Heq|Hne].
    - injection Heq as ->. exists ls. split; [reflexivity|]. split; [exact Hnd|].
      split; [|lia]. intros j. rewrite elem_of_cons. split.
      + intros Hj. split; [right; exact Hj|]. intros ->. contradiction.
      + intros [[->|Hj] Hjk]; [congruence | exact Hj].
    - apply elem_of_cons in Hk as [->|Hk]; [congruence|].
      destruct (IH Hnd Hk) as (ls' & Hr & Hnd' & Hiff & Hlen).
      rewrite Hr. simpl. exists (i :: ls'). split; [reflexivity|].
      split; [|split; [|simpl; lia]].
      + apply NoDup_cons. split; [|exact Hnd']. rewrite Hiff. tauto.
      + intros j. rewrite !elem_of_cons, Hiff. split.
        * intros [->|[Hj Hjk]]; [|tauto]. split; [tauto|]. congruence.
        * tauto. }
  destruct H as (ls' & Hr & Hrest). exists ls'. split; [|exact Hrest].
  cbn [list_remove]. destruct (decide (ACelda c = ALimpiador k)) as [Heq|_];
    [discriminate Heq|].
  rewrite Hr. reflexivity.
Qed.

(** ** The scheduler's records after a move *)

Lemma agent_at_store_other (l : list LimpiadorAgent) (self self' : LimpiadorAgent)
    (r : Coordinate) (j : Z) :
  NoDup (unique_id <$> l) → self ∈ l → unique_id self' = unique_id self →
  pos self ≠ r → pos self' ≠ r →
  agent_at (store_agent self' l) r j ↔ agent_at l r j.
Proof.
  intros Hnd Hself Hid Hp Hq. unfold agent_at. split.
  - intros (b & Hb & Hbj & Hbr). apply elem_of_store_agent in Hb as [[-> _]|[Hb _]].
    + contradiction.
    + exists b. tauto.
  - intros (a & Ha & Haj & Har). exists a. split; [|tauto].
    apply elem_of_store_agent. right. split; [exact Ha|].
    intros Heq. apply Hp. rewrite <- Har. f_equal.
    eapply agent_by_id; [exact Hnd | exact Hself | exact Ha | congruence].
Qed.

Lemma agent_at_store_from (l : list LimpiadorAgent) (self self' : LimpiadorAgent) (j : Z) :
  NoDup (unique_id <$> l) → self ∈ l → unique_id self' = unique_id self →
  pos self' ≠ pos self →
  agent_at (store_agent self' l) (pos self) j ↔
  agent_at l (pos self) j ∧ j ≠ unique_id self.
Proof.
  intros Hnd Hself Hid Hq. unfold agent_at. split.
  - intros (b & Hb & Hbj & Hbr). apply elem_of_store_agent in Hb as [[-> _]|[Hb Hne]].
    + contradiction.
    + split; [exists b; tauto | congruence].
  - intros [(a & Ha & Haj & Har) Hne]. exists a. split; [|tauto].
    apply elem_of_store_agent. right. split; [exact Ha | congruence].
Qed.

Lemma agent_at_store_to (l : list LimpiadorAgent) (self self' : LimpiadorAgent) (j : Z) :
  self ∈ l → unique_id self' = unique_id self →
  (∀ i, ¬ agent_at l (pos self') i) →
  agent_at (store_agent self' l) (pos self') j ↔ j = unique_id self.
Proof.
  intros Hself Hid Hnone. unfold agent_at. split.
  - intros (b & Hb & Hbj & Hbr). apply elem_of_store_agent in Hb as [[-> _]|[Hb _]].
    + congruence.
    + exfalso. apply (Hnone j). exists b. tauto.
  - intros ->. exists self'. split; [|split; [exact Hid | reflexivity]].
    apply elem_of_store_agent. left. split; [reflexivity|]. exists self.
    split; [exact Hself | congruence].
Qed.

(** ** The full invariant *)

Lemma inb_same_dims (g g' : MultiGrid) (q : Coordinate) :
  width g' = width g → height g' = height g →
  out_of_bounds g' q = out_of_bounds g q.
Proof. intros Hw Hh. unfold out_of_bounds. destruct q. rewrite Hw, Hh. reflexivity. Qed.

(** One agent step keeps every cell list in order. *)
Lemma step_outcome_cell_ok (m m' : HabitacionModel) (self : LimpiadorAgent) (r : Coordinate) :
  wf m → (∀ q, out_of_bounds (grid m) q = false → cell_ok m q) →
  self ∈ agents (schedule m) → step_outcome m self m' →
  out_of_bounds (grid m) r = false → cell_ok m' r.
Proof.
  intros Hwf Hcells Hself Hout Hr.
  pose proof (wf_agent m self Hwf Hself) as [Hb Hin].
  assert (Hnd : NoDup (unique_id <$> agents (schedule m))) by apply Hwf.
  assert (Hg : grid_shape (grid m)) by apply Hwf.
  destruct (Hcells r Hr) as (c & ls & Hc & Hid & Hs & Hndls & Hiff & Hshare).
  destruct Hout as [g' Hdirty Hu ->| _ _ ->|q rg g' Hdirty Hch Hq Hmv ->].
  - destruct (update_cell_inb limpiar_celda (grid m) (pos self) Hg Hb)
      as (g1 & Hu1 & Hw & Hh & _ & Hcp & Ho).
    rewrite Hu1 in Hu. injection Hu as <-. unfold cell_ok. simpl. rewrite Hh.
    destruct (decide (r = pos self)) as [->|Hne].
    + exists (if sucia c then limpiar c else c), ls.
      split; [rewrite Hcp, Hc; apply limpiar_celda_refs|].
      split; [destruct (sucia c); exact Hid|].
      split; [|tauto].
      destruct (sucia c) eqn:Hsc; [discriminate|]. intros Hs'. apply Hs. congruence.
    + exists c, ls. rewrite (Ho r Hr Hne). tauto.
  - exists c, ls. tauto.
  - pose proof Hq as Hq'. apply elem_of_libres in Hq' as [Hqn Hqfree].
    apply elem_of_get_neighborhood in Hqn as (Hqb & Hqne & _).
    destruct (move_agent_inb (grid m) (ALimpiador (unique_id self)) (pos self) q)
      as (g1 & l' & Hmv1 & Hrm & Hw & Hh & _ & Hcf & Hct & Ho); try assumption; [congruence|].
    rewrite Hmv1 in Hmv. injection Hmv as <-.
    set (self' := {| unique_id := unique_id self; pos := q;
                     movimientos := movimientos self + 1 |}).
    assert (Hid' : unique_id self' = unique_id self) by reflexivity.
    unfold cell_ok. simpl. rewrite Hh. fold self'.
    destruct (decide (r = pos self)) as [->|Hne1].
    { rewrite Hc in Hrm, Hin. apply elem_of_refs in Hin.
      destruct (list_remove_refs c ls (unique_id self) Hndls Hin)
        as (ls' & Hr' & Hnd' & Hiff' & Hlen').
      rewrite Hr' in Hrm. injection Hrm as <-.
      exists c, ls'. split; [exact Hcf|]. split; [exact Hid|]. split; [exact Hs|].
      split; [exact Hnd'|]. split.
      - intros k. rewrite Hiff', Hiff.
        symmetry. apply (agent_at_store_from _ self self' k Hnd Hself Hid'). exact Hqne.
      - destruct Hshare as [Hone|[H11 Hzero]]; [left; lia|right].
        split; [exact H11|]. intros b Hbel Hbp.
        apply elem_of_store_agent in Hbel as [[-> _]|[Hbel _]]; [contradiction|].
        apply Hzero; assumption. }
    destruct (decide (r = q)) as [->|Hne2].
    { rewrite Hc in Hqfree. apply refs_free in Hqfree. subst ls.
      exists c, [unique_id self]. split; [rewrite Hct, Hc; reflexivity|].
      split; [exact Hid|]. split; [exact Hs|].
      split; [apply NoDup_singleton|]. split; [|left; simpl; lia].
      intros k. rewrite list_elem_of_singleton.
      symmetry. apply (agent_at_store_to _ self self' k Hself Hid').
      intros i Hi. apply Hiff in Hi. apply elem_of_nil in Hi. exact Hi. }
    exists c, ls. rewrite (Ho r Hr Hne1 Hne2).
    split; [exact Hc|]. split; [exact Hid|]. split; [exact Hs|]. split; [exact Hndls|].
    split.
    + intros k. rewrite Hiff. symmetry.
      apply (agent_at_store_other _ self self' r k Hnd Hself Hid');
        [intros H; apply Hne1; symmetry; exact H | intros H; apply Hne2; symmetry; exact H].
    + destruct Hshare as [Hone|[H11 Hzero]]; [left; exact Hone|right].
      split; [exact H11|]. intros b Hbel Hbp.
      apply elem_of_store_agent in Hbel as [[-> _]|[Hbel _]]; [simpl in Hbp; congruence|].
      apply Hzero; assumption.
Qed.

Lemma step_outcome_inv (m m' : HabitacionModel) (self : LimpiadorAgent) :
  inv m → self ∈ agents (schedule m) → step_outcome m self m' → inv m'.
Proof.
  intros (Hwf & Hcells & Hlen & HM & HN & Hids & Hmov) Hself Hout.
  destruct (step_outcome_wf m m' self Hwf Hself Hout) as [Hwf' Hsame].
  destruct Hsame as (HsM & HsN & HsK & HsD & Hsd & _ & _ & _ & Hw & Hh & Hsids).
  split; [exact Hwf'|]. split; [|split; [|split; [|split; [|split]]]].
  - intros r Hr. rewrite (inb_same_dims _ _ r Hw Hh) in Hr.
    apply (step_outcome_cell_ok m m' self r); assumption.
  - rewrite Hw, Hh, Hsd, HsD. exact Hlen.
  - congruence.
  - congruence.
  - congruence.
  - destruct Hout as [g' _ _ ->| _ _ ->|q rg g' _ _ _ _ ->]; simpl; try exact Hmov.
    apply Forall_forall. intros b Hb.
    apply elem_of_store_agent in Hb as [[-> _]|[Hb _]].
    + simpl. rewrite Forall_forall in Hmov. specialize (Hmov self Hself). lia.
    + rewrite Forall_forall in Hmov. apply Hmov, Hb.
Qed.

Lemma inv_ext (m m' : HabitacionModel) :
  grid m' = grid m → agents (schedule m') = agents (schedule m) →
  dirty_positions m' = dirty_positions m → celdas_sucias m' = celdas_sucias m →
  M m' = M m → N m' = N m → num_agentes m' = num_agentes m →
  inv m → inv m'.
Proof.
  unfold inv, wf, cell_ok. intros -> -> -> -> -> -> ->. tauto.
Qed.

Lemma round_inv (m m' : HabitacionModel) (keys : list Z) :
  inv m → keys ⊆ unique_id <$> agents (schedule m) →
  foldM LimpiadorAgent_step keys m = Ok m' → inv m'.
Proof.
  intros Hinv Hsub Hfold.
  assert (H : inv m' ∧ unique_id <$> agents (schedule m') = unique_id <$> agents (schedule m));
    [|tauto].
  revert Hfold.
  apply (foldM_invariant LimpiadorAgent_step
           (λ b, inv b ∧ unique_id <$> agents (schedule b) = unique_id <$> agents (schedule m)));
    [|tauto].
  intros b key b' Hkey [Hb Hbids] Hstep.
  assert (Hk : key ∈ unique_id <$> agents (schedule b)) by (rewrite Hbids; apply Hsub, Hkey).
  apply elem_of_ids in Hk as (self & Hself & <-).
  assert (Hwfb : wf b) by apply Hb.
  pose proof (LimpiadorAgent_step_outcome b b' self Hwfb Hself Hstep) as Hout.
  split; [apply (step_outcome_inv b b' self); assumption|].
  destruct (step_outcome_wf b b' self Hwfb Hself Hout) as [_ Hsame].
  destruct Hsame as (_ & _ & _ & _ & _ & _ & _ & _ & _ & _ & ->). exact Hbids.
Qed.

Lemma HabitacionModel_step_inv (m m' : HabitacionModel) :
  inv m → HabitacionModel_step m = Ok m' → inv m'.
Proof.
  intros Hinv Hstep. assert (Hwf : wf m) by apply Hinv.
  assert (HD : 0 < celdas_sucias m).
  { destruct (decide (celdas_sucias m = 0)) as [H0|H0].
    - rewrite (HabitacionModel_step_zero m Hwf H0) in Hstep. discriminate Hstep.
    - destruct Hwf as (_ & _ & _ & _ & ?). lia. }
  assert (Hinv1 : inv (observado m)) by (revert Hinv; apply inv_ext; reflexivity).
  destruct (HabitacionModel_step_wf m Hwf HD) as [Hfull Hpart].
  destruct (Z_le_gt_dec (celdas_sucias m) (total_limpias (grid m) (dirty_positions m))).
  - rewrite Hfull in Hstep by assumption. injection Hstep as <-.
    revert Hinv. apply inv_ext; reflexivity.
  - rewrite Hpart in Hstep by lia. unfold SimultaneousActivation_step in Hstep.
    apply bind_Ok in Hstep as (m1 & Hfold & Hstep). injection Hstep as <-.
    assert (Hinv2 : inv m1).
    { apply (round_inv (observado m) m1 (unique_id <$> agents (schedule (observado m))) Hinv1);
        [intros k Hk; exact Hk | exact Hfold]. }
    revert Hinv2. apply inv_ext; reflexivity.
Qed.

Lemma range_max (n : Z) : range (Z.max 0 n) = range n.
Proof. unfold range, seqZ. replace (Z.to_nat (Z.max 0 n)) with (Z.to_nat n) by lia. reflexivity. Qed.

Lemma agent_at_inicial (n : Z) (q : Coordinate) (k : Z) :
  agent_at (limpiador_inicial <$> range n) q k ↔ q = (1, 1) ∧ k ∈ range n.
Proof.
  unfold agent_at. split.
  - intros (a & Ha & Hk & Hq). apply list_elem_of_fmap in Ha as (j & -> & Hj).
    simpl in *. subst. tauto.
  - intros [-> Hk]. exists (limpiador_inicial k). split; [|tauto].
    apply list_elem_of_fmap. exists k. tauto.
Qed.

(** [__init__] establishes the full invariant. *)
Lemma init_inv (strict : bool) (M0 N0 num_agentes0 celdas_sucias0 : Z)
    (seed : Random.t) (m : HabitacionModel) :
  HabitacionModel_init strict M0 N0 num_agentes0 celdas_sucias0 seed = Ok m → inv m.
Proof.
  intros Hinit. pose proof (init_wf _ _ _ _ _ _ _ Hinit) as Hwf.
  apply init_Ok in Hinit as (ps & gc & Hres).
  pose proof Hres as (Hps & Hset & (_ & Hwc & Hhc) & Hdb & Hdone & _ & Hstrong).
  destruct Hset as (HM & HN & HK & HD & _ & _).
  destruct Hdone as (_ & Hw & Hh & H11 & Ho & Hag & _). simpl in Hw, Hh, H11, Ho, Hag.
  apply sample_Ok in Hps as (Hk & Hnd & Hlen & Hsub); [|apply NoDup_seqZ].
  split; [exact Hwf|]. split; [|split; [|split; [|split; [|split]]]].
  - intros [x y] Hq. apply out_of_bounds_false in Hq. simpl in Hq.
    rewrite Hw, Hh, Hwc, Hhc in Hq. destruct Hq as [Hx Hy].
    destruct Hstrong as [Hc Hd]; [lia|].
    unfold cell_ok. rewrite Hag, Hh, Hhc. simpl fst. simpl snd.
    assert (Hdirty : sucia {| celda_id := x * N0 + y;
                              sucia := bool_decide (x * N0 + y ∈ ps) |} = true →
                     (x, y) ∈ dirty_positions m).
    { simpl. intros Hs. apply bool_decide_eq_true in Hs. rewrite Hd.
      apply elem_of_init_dirty; [lia|exact Hx|exact Hy|exact Hs]. }
    destruct (decide ((x, y) = (1, 1))) as [Heq|Hne].
    + injection Heq as -> ->.
      eexists _, (range (Z.max 0 num_agentes0)).
      split; [rewrite H11, (Hc 1 1 Hx Hy); reflexivity|].
      split; [reflexivity|]. split; [exact Hdirty|].
      split; [apply NoDup_seqZ|]. split.
      * intros k. rewrite agent_at_inicial. tauto.
      * right. split; [reflexivity|]. intros a Ha _.
        apply list_elem_of_fmap in Ha as (j & -> & _). reflexivity.
    + eexists _, [].
      split; [rewrite Ho, (Hc x y Hx Hy);
              [reflexivity | apply out_of_bounds_false; simpl; lia | exact Hne]|].
      split; [reflexivity|]. split; [exact Hdirty|].
      split; [constructor|]. split; [|left; simpl; lia].
      intros k. rewrite agent_at_inicial. split.
      * intros Hk'. apply elem_of_nil in Hk'. destruct Hk'.
      * intros [Heq _]. contradiction.
  - rewrite Hw, Hh, Hwc, Hhc. intros HM0 HN0.
    destruct Hstrong as [_ Hd]; [exact HN0|].
    rewrite Hd, length_fmap. replace (Z.max 0 M0) with M0 by lia.
    rewrite (filter_sample_Permutation ps (M0 * N0) Hnd Hsub). congruence.
  - congruence.
  - congruence.
  - rewrite Hag, limpiador_inicial_ids, range_max, HK. reflexivity.
  - rewrite Hag. apply Forall_fmap, Forall_true. intros k. simpl. lia.
Qed.

Lemma reachable_inv (m : HabitacionModel) : reachable m → inv m.
Proof.
  induction 1 as [strict M0 N0 k d seed m Hinit|m m' _ IH Hstep].
  - eapply init_inv. exact Hinit.
  - apply (HabitacionModel_step_inv m m' IH Hstep).
Qed.

(** ** One cell per coordinate, and the grid agrees with the agents *)

(** In every reachable model each coordinate of the grid holds exactly one
    [CeldaAgent], the one created there by [__init__] (identifier
    [x * N + y]); it is the first entry of the cell list and all other
    entries are cleaners.  Cells are never moved, added or removed. *)
Theorem cells_stay_in_place (m : HabitacionModel) (q : Coordinate) :
  reachable m → out_of_bounds (grid m) q = false →
  ∃ c ls, contents (grid m) q = ACelda c :: (ALimpiador <$> ls) ∧
          celda_id c = fst q * N m + snd q ∧
          ∀ c', ACelda c' ∈ contents (grid m) q → c' = c.
Proof.
  intros Hreach Hq. destruct (reachable_inv m Hreach) as (_ & Hcells & _ & _ & HN & _).
  destruct (Hcells q Hq) as (c & ls & Hc & Hid & _).
  exists c, ls. split; [exact Hc|]. split; [rewrite <- HN; exact Hid|].
  intros c' Hc'. rewrite Hc in Hc'. apply celda_of_refs in Hc'. exact Hc'.
Qed.

Lemma cells_stay_in_place_witness :
  ∃ m, (m0 ← HabitacionModel_init false 3 3 2 1 [8%nat; 0%nat; 0%nat; 0%nat; 0%nat];
        run 2 m0) = Ok m ∧
       ∃ c ls, contents (grid m) (2, 1) = ACelda c :: (ALimpiador <$> ls) ∧
               celda_id c = 7.
Proof.
  destruct (m0 ← HabitacionModel_init false 3 3 2 1 [8%nat; 0%nat; 0%nat; 0%nat; 0%nat];
            run 2 m0) as [m|e] eqn:Hrun; [|vm_compute in Hrun; discriminate Hrun].
  exists m. split; [reflexivity|].
  pose proof (reachable_init_run _ _ _ _ _ _ _ _ Hrun) as Hreach.
  destruct (cells_stay_in_place m (2, 1) Hreach) as (c & ls & Hc & Hid & _).
  - vm_compute in Hrun. injection Hrun as <-. reflexivity.
  - exists c, ls. split; [exact Hc|]. rewrite Hid.
    vm_compute in Hrun. injection Hrun as <-. reflexivity.
Defined.

(** In every reachable model the grid and the [pos] attributes agree: a
    cell list holds a reference to a cleaner exactly when a scheduled
    cleaner with that identifier has that coordinate as [pos], and no entry
    of a cell list is repeated. *)
Theorem grid_agrees_with_pos (m : HabitacionModel) (q : Coordinate) :
  reachable m → out_of_bounds (grid m) q = false →
  (∀ k, ALimpiador k ∈ contents (grid m) q ↔
        ∃ a, a ∈ agents (schedule m) ∧ unique_id a = k ∧ pos a = q) ∧
  NoDup (contents (grid m) q).
Proof.
  intros Hreach Hq. destruct (reachable_inv m Hreach) as (_ & Hcells & _).
  destruct (Hcells q Hq) as (c & ls & Hc & _ & _ & Hnd & Hiff & _).
  rewrite Hc. split.
  - intros k. rewrite elem_of_refs. apply Hiff.
  - apply NoDup_cons. split.
    + intros Hin. apply list_elem_of_fmap in Hin as (k & Hk & _). discriminate Hk.
    + apply NoDup_fmap_2; [|exact Hnd]. intros i j Hij. injection Hij as ->. reflexivity.
Qed.

Lemma grid_agrees_with_pos_witness :
  ∃ m, (m0 ← HabitacionModel_init false 3 3 2 1 [8%nat; 0%nat; 0%nat; 0%nat; 0%nat];
        run 2 m0) = Ok m ∧
       NoDup (contents (grid m) (0, 0)).
Proof.
  destruct (m0 ← HabitacionModel_init false 3 3 2 1 [8%nat; 0%nat; 0%nat; 0%nat; 0%nat];
            run 2 m0) as [m|e] eqn:Hrun; [|vm_compute in Hrun; discriminate Hrun].
  exists m. split; [reflexivity|].
  pose proof (reachable_init_run _ _ _ _ _ _ _ _ Hrun) as Hreach.
  apply (grid_agrees_with_pos m (0, 0) Hreach).
  vm_compute in Hrun. injection Hrun as <-. reflexivity.
Defined.

(** The schedule of a reachable model holds the cleaners created by
    [__init__] and no other: its keys are [0 .. num_agentes - 1] in that
    order, whatever number of steps was taken. *)
Theorem agents_never_change (m : HabitacionModel) :
  reachable m →
  unique_id <$> agents (schedule m) = range (num_agentes m) ∧
  Z.of_nat (length (agents (schedule m))) = Z.max 0 (num_agentes m).
Proof.
  intros Hreach. destruct (reachable_inv m Hreach) as (_ & _ & _ & _ & _ & Hids & _).
  split; [exact Hids|].
  rewrite <- (length_fmap unique_id), Hids. apply length_range.
Qed.

Lemma agents_never_change_witness :
  ∃ m, (m0 ← HabitacionModel_init false 3 3 2 1 [8%nat; 0%nat; 0%nat; 0%nat; 0%nat];
        run 2 m0) = Ok m ∧
       unique_id <$> agents (schedule m) = range (num_agentes m).
Proof.
  destruct (m0 ← HabitacionModel_init false 3 3 2 1 [8%nat; 0%nat; 0%nat; 0%nat; 0%nat];
            run 2 m0) as [m|e] eqn:Hrun; [|vm_compute in Hrun; discriminate Hrun].
  exists m. split; [reflexivity|].
  apply (agents_never_change m). eapply reachable_init_run. exact Hrun.
Defined.

(** Two different cleaners of a reachable model stand on the same
    coordinate only on the start cell (1, 1) and only if neither has ever
    moved: [mover] never puts a cleaner on a cell that holds another. *)
Theorem shared_cell_only_at_origin (m : HabitacionModel) (a b : LimpiadorAgent) :
  reachable m → a ∈ agents (schedule m) → b ∈ agents (schedule m) →
  unique_id a ≠ unique_id b → pos a = pos b →
  pos a = (1, 1) ∧ movimientos a = 0 ∧ movimientos b = 0.
Proof.
  intros Hreach Ha Hb Hne Hpos.
  destruct (reachable_inv m Hreach) as (Hwf & Hcells & _).
  pose proof (wf_agent m a Hwf Ha) as [Hq _].
  destruct (Hcells (pos a) Hq) as (c & ls & _ & _ & _ & Hnd & Hiff & Hshare).
  assert (Hka : unique_id a ∈ ls) by (apply Hiff; exists a; tauto).
  assert (Hkb : unique_id b ∈ ls).
  { apply Hiff. exists b. split; [exact Hb|]. split; [reflexivity | congruence]. }
  destruct Hshare as [Hone|[H11 Hzero]].
  - exfalso. destruct ls as [|i [|j ls]]; simpl in Hone; [| |lia].
    + apply elem_of_nil in Hka. exact Hka.
    + apply list_elem_of_singleton in Hka, Hkb. congruence.
  - split; [exact H11|]. split; apply Hzero; congruence.
Qed.

Lemma shared_cell_only_at_origin_witness :
  ∃ m, HabitacionModel_init false 3 3 2 1 [8%nat] = Ok m ∧
       pos (limpiador_inicial 0) = (1, 1) ∧
       movimientos (limpiador_inicial 0) = 0 ∧ movimientos (limpiador_inicial 1) = 0.
Proof.
  destruct (HabitacionModel_init false 3 3 2 1 [8%nat]) as [m|e] eqn:Hinit;
    [|vm_compute in Hinit; discriminate Hinit].
  exists m. split; [reflexivity|].
  pose proof (reachable_init _ _ _ _ _ _ _ Hinit) as Hreach.
  vm_compute in Hinit. injection Hinit as <-.
  apply (shared_cell_only_at_origin _ (limpiador_inicial 0) (limpiador_inicial 1) Hreach).
  - left.
  - right. left.
  - discriminate.
  - reflexivity.
Defined.

(** A dirty [CeldaAgent] of a reachable model always sits on a coordinate
    recorded in [dirty_positions]: nothing but [__init__] makes a cell
    dirty, so the cells outside [dirty_positions] are clean for ever. *)
Theorem dirt_only_where_it_started (m : HabitacionModel) (q : Coordinate) (c : CeldaAgent) :
  reachable m → out_of_bounds (grid m) q = false →
  ACelda c ∈ contents (grid m) q → sucia c = true →
  q ∈ dirty_positions m.
Proof.
  intros Hreach Hq Hc Hs. destruct (reachable_inv m Hreach) as (_ & Hcells & _).
  destruct (Hcells q Hq) as (c0 & ls & Hc0 & _ & Hdirty & _).
  rewrite Hc0 in Hc. apply celda_of_refs in Hc as ->. apply Hdirty, Hs.
Qed.

Lemma dirt_only_where_it_started_witness :
  ∃ m, HabitacionModel_init false 3 3 2 1 [8%nat] = Ok m ∧ (2, 2) ∈ dirty_positions m.
Proof.
  destruct (HabitacionModel_init false 3 3 2 1 [8%nat]) as [m|e] eqn:Hinit;
    [|vm_compute in Hinit; discriminate Hinit].
  exists m. split; [reflexivity|].
  pose proof (reachable_init _ _ _ _ _ _ _ Hinit) as Hreach.
  vm_compute in Hinit. injection Hinit as <-.
  apply (dirt_only_where_it_started _ (2, 2) {| celda_id := 8; sucia := true |} Hreach).
  - reflexivity.
  - left.
  - reflexivity.
Defined.

(** ** The metric counts cells *)

Lemma existsb_sucia_refs (c : CeldaAgent) (ls : list Z) :
  existsb es_celda_sucia (ACelda c :: (ALimpiador <$> ls)) = sucia c.
Proof.
  simpl. induction ls as [|k ls IH]; [apply orb_false_r|].
  rewrite fmap_cons. simpl. exact IH.
Qed.

(** A coordinate counts for 1 in the metric when its cell is clean and
    for 0 when it is dirty. *)
Lemma cell_ok_limpias (m : HabitacionModel) (q : Coordinate) :
  cell_ok m q →
  limpias_en (grid m) q =
  if existsb es_celda_sucia (contents (grid m) q) then 0 else 1.
Proof.
  intros (c & ls & Hc & _). unfold limpias_en. rewrite Hc, existsb_sucia_refs.
  rewrite filter_cons, filter_limpias_limpiadores. simpl.
  destruct (sucia c); reflexivity.
Qed.

Lemma total_limpias_bounds (m : HabitacionModel) (dirty : list Coordinate) :
  (∀ q, out_of_bounds (grid m) q = false → cell_ok m q) →
  Forall (λ p, out_of_bounds (grid m) p = false) dirty →
  0 ≤ total_limpias (grid m) dirty ≤ Z.of_nat (length dirty).
Proof.
  intros Hcells Hd. induction Hd as [|p dirty Hp _ IH]; simpl; [lia|].
  rewrite (cell_ok_limpias m p (Hcells p Hp)).
  destruct (existsb es_celda_sucia (contents (grid m) p)); lia.
Qed.

(** When the count reaches the number of coordinates, none of them holds
    a dirty cell. *)
Lemma total_limpias_full (m : HabitacionModel) (dirty : list Coordinate) :
  (∀ q, out_of_bounds (grid m) q = false → cell_ok m q) →
  Forall (λ p, out_of_bounds (grid m) p = false) dirty →
  Z.of_nat (length dirty) ≤ total_limpias (grid m) dirty →
  ∀ p, p ∈ dirty → existsb es_celda_sucia (contents (grid m) p) = false.
Proof.
  intros Hcells Hd. induction Hd as [|p0 dirty Hp0 Hd IH]; intros Hfull p Hp.
  - apply elem_of_nil in Hp. destruct Hp.
  - pose proof (total_limpias_bounds m dirty Hcells Hd) as Hb.
    simpl in Hfull. rewrite (cell_ok_limpias m p0 (Hcells p0 Hp0)) in Hfull.
    destruct (existsb es_celda_sucia (contents (grid m) p0)) eqn:Hs; [lia|].
    apply elem_of_cons in Hp as [->|Hp]; [exact Hs|].
    apply IH; [lia | exact Hp].
Qed.

Lemma porcentaje_bounds (n d : Z) :
  0 < d → 0 ≤ n ≤ d → (0 <= porcentaje n d)%Q ∧ (porcentaje n d <= 100)%Q.
Proof.
  intros Hd Hn. destruct d as [|p|p]; try lia.
  unfold porcentaje, Qle, Qdiv, Qmult, Qinv, inject_Z. simpl. lia.
Qed.

Lemma porcentaje_lt (n n' d : Z) :
  0 < d → n < n' → (porcentaje n d < porcentaje n' d)%Q.
Proof.
  intros Hd Hn. destruct d as [|p|p]; try lia.
  unfold porcentaje, Qlt, Qdiv, Qmult, Qinv, inject_Z. simpl. nia.
Qed.

(** Once [running] is false the count has reached the dirty count. *)
Lemma reachable_stopped (m : HabitacionModel) :
  reachable m → running m = false →
  0 < celdas_sucias m ∧
  celdas_sucias m ≤ total_limpias (grid m) (dirty_positions m).
Proof.
  induction 1 as [strict M0 N0 k d seed m Hinit|m m' Hreach IH Hstep]; intros Hrun.
  - apply init_Ok in Hinit as (ps & gc & _ & (_ & _ & _ & _ & Hr & _) & _). congruence.
  - pose proof (reachable_wf m Hreach) as Hwf.
    assert (HD : 0 < celdas_sucias m).
    { destruct (decide (celdas_sucias m = 0)) as [H0|H0].
      - rewrite (HabitacionModel_step_zero m Hwf H0) in Hstep. discriminate Hstep.
      - destruct Hwf as (_ & _ & _ & _ & ?). lia. }
    destruct (HabitacionModel_step_wf m Hwf HD) as [Hfull Hpart].
    destruct (Z_le_gt_dec (celdas_sucias m) (total_limpias (grid m) (dirty_positions m))).
    + rewrite Hfull in Hstep by assumption. injection Hstep as <-. simpl. lia.
    + rewrite Hpart in Hstep by lia.
      apply SimultaneousActivation_step_running in Hstep. simpl in Hstep.
      rewrite Hstep in Hrun. specialize (IH Hrun). lia.
Qed.

(** In a reachable model of positive size with a positive dirty count,
    [contar_celdas_limpias] returns a percentage between 0 and 100: the
    number of clean cells over [dirty_positions] never exceeds the dirty
    count it is divided by. *)
Theorem metric_between_0_and_100 (m : HabitacionModel) :
  reachable m → 0 < M m → 0 < N m → 0 < celdas_sucias m →
  ∃ p, contar_celdas_limpias m = Ok p ∧ (0 <= p)%Q ∧ (p <= 100)%Q.
Proof.
  intros Hreach HM HN HD.
  destruct (reachable_inv m Hreach) as (Hwf & Hcells & Hlen & Hw & Hh & _).
  rewrite (contar_celdas_limpias_wf m Hwf).
  rewrite (proj2 (Z.eqb_neq _ _)) by lia.
  eexists. split; [reflexivity|].
  apply porcentaje_bounds; [exact HD|].
  rewrite <- Hlen by lia.
  apply total_limpias_bounds; [exact Hcells | apply Hwf].
Qed.

Lemma metric_between_0_and_100_witness :
  ∃ m p, (m0 ← HabitacionModel_init false 3 3 2 2 [8%nat; 0%nat; 7%nat; 6%nat];
          run 1 m0) = Ok m ∧
         contar_celdas_limpias m = Ok p ∧ (0 <= p)%Q ∧ (p <= 100)%Q.
Proof.
  destruct (m0 ← HabitacionModel_init false 3 3 2 2 [8%nat; 0%nat; 7%nat; 6%nat];
            run 1 m0) as [m|e] eqn:Hrun; [|vm_compute in Hrun; discriminate Hrun].
  pose proof (reachable_init_run _ _ _ _ _ _ _ _ Hrun) as Hreach.
  destruct (metric_between_0_and_100 m Hreach) as (p & Hp).
  - vm_compute in Hrun. injection Hrun as <-. reflexivity.
  - vm_compute in Hrun. injection Hrun as <-. reflexivity.
  - vm_compute in Hrun. injection Hrun as <-. reflexivity.
  - exists m, p. split; [reflexivity | exact Hp].
Defined.

(** ** Stopping *)

(** When [running] is false in a reachable model of positive size, no cell
    of the grid is dirty: [step] stops the simulation only when the room is
    really clean. *)
Theorem stopped_means_clean (m : HabitacionModel) (q : Coordinate) :
  reachable m → 0 < M m → 0 < N m → running m = false →
  out_of_bounds (grid m) q = false →
  existsb es_celda_sucia (contents (grid m) q) = false.
Proof.
  intros Hreach HM HN Hrun Hq.
  destruct (reachable_stopped m Hreach Hrun) as [HD Hfull].
  destruct (reachable_inv m Hreach) as (Hwf & Hcells & Hlen & Hw & Hh & _).
  destruct (existsb es_celda_sucia (contents (grid m) q)) eqn:Hs; [|reflexivity].
  destruct (Hcells q Hq) as (c & ls & Hc & _ & Hdirty & _).
  rewrite Hc, existsb_sucia_refs in Hs.
  rewrite <- Hlen in Hfull by lia.
  pose proof (total_limpias_full m (dirty_positions m) Hcells (proj1 (proj2 (proj2 (proj2 Hwf))))
                Hfull q (Hdirty Hs)) as Hclean.
  rewrite Hc, existsb_sucia_refs in Hclean. congruence.
Qed.

Lemma stopped_means_clean_witness :
  ∃ m, (m0 ← HabitacionModel_init false 3 3 2 1 [0%nat; 0%nat; 0%nat; 0%nat; 0%nat];
        run 3 m0) = Ok m ∧
       running m = false ∧
       existsb es_celda_sucia (contents (grid m) (0, 0)) = false.
Proof.
  destruct (m0 ← HabitacionModel_init false 3 3 2 1 [0%nat; 0%nat; 0%nat; 0%nat; 0%nat];
            run 3 m0) as [m|e] eqn:Hrun; [|vm_compute in Hrun; discriminate Hrun].
  pose proof (reachable_init_run _ _ _ _ _ _ _ _ Hrun) as Hreach.
  exists m. split; [reflexivity|].
  assert (Hr : running m = false) by (vm_compute in Hrun; injection Hrun as <-; reflexivity).
  split; [exact Hr|].
  apply (stopped_means_clean m (0, 0) Hreach); [..|exact Hr|];
    vm_compute in Hrun; injection Hrun as <-; reflexivity.
Defined.

(** While some cell of the grid is dirty, a call of [step] never stops
    the simulation: it returns after a full round, with the step counter
    one higher and [running] as it was. *)
Theorem dirty_means_round (m : HabitacionModel) (q : Coordinate) :
  reachable m → 0 < M m → 0 < N m →
  out_of_bounds (grid m) q = false →
  existsb es_celda_sucia (contents (grid m) q) = true →
  ∃ m', HabitacionModel_step m = Ok m' ∧
        steps (schedule m') = steps (schedule m) + 1 ∧
        running m' = running m.
Proof.
  intros Hreach HM HN Hq Hs.
  destruct (reachable_inv m Hreach) as (Hwf & Hcells & Hlen & Hw & Hh & _).
  assert (Hd : Forall (λ p, out_of_bounds (grid m) p = false) (dirty_positions m))
    by apply Hwf.
  pose proof (total_limpias_bounds m _ Hcells Hd) as Hb.
  assert (Hlt : total_limpias (grid m) (dirty_positions m) < celdas_sucias m).
  { rewrite <- Hlen by lia.
    destruct (Z_lt_le_dec (total_limpias (grid m) (dirty_positions m))
                          (Z.of_nat (length (dirty_positions m)))) as [?|Hge]; [assumption|].
    destruct (Hcells q Hq) as (c & ls & Hc & _ & Hdirty & _).
    rewrite Hc, existsb_sucia_refs in Hs.
    pose proof (total_limpias_full m _ Hcells Hd Hge q (Hdirty Hs)) as Hclean.
    rewrite Hc, existsb_sucia_refs in Hclean. congruence. }
  assert (HD : 0 < celdas_sucias m) by lia.
  destruct (HabitacionModel_step_wf m Hwf HD) as [_ Hpart].
  assert (Hwf1 : wf (observado m)) by (revert Hwf; apply wf_ext; reflexivity).
  destruct (SimultaneousActivation_step_total _ Hwf1)
    as (m' & H' & _ & _ & _ & _ & _ & _ & _ & Hr & _ & Hst & _).
  exists m'. split; [rewrite Hpart by exact Hlt; exact H'|]. split; [exact Hst | exact Hr].
Qed.

Lemma dirty_means_round_witness :
  ∃ m m', HabitacionModel_init false 3 3 2 1 [8%nat; 0%nat; 0%nat] = Ok m ∧
          HabitacionModel_step m = Ok m' ∧
          steps (schedule m') = steps (schedule m) + 1.
Proof.
  destruct (HabitacionModel_init false 3 3 2 1 [8%nat; 0%nat; 0%nat]) as [m|e] eqn:Hinit;
    [|vm_compute in Hinit; discriminate Hinit].
  pose proof (reachable_init _ _ _ _ _ _ _ Hinit) as Hreach.
  destruct (dirty_means_round m (2, 2) Hreach) as (m' & Hstep & Hst & _);
    try (vm_compute in Hinit; injection Hinit as <-; reflexivity).
  exists m, m'. split; [reflexivity|]. split; [exact Hstep | exact Hst].
Defined.

(** ** What a round does *)

Lemma foldM_app {A B} (f : B → A → result B) (l1 l2 : list A) (b : B) :
  foldM f (l1 ++ l2) b = (foldM f l1 b ≫= foldM f l2).
Proof.
  revert b. induction l1 as [|a l1 IH]; intros b; simpl; [reflexivity|].
  destruct (f b a) as [b'|e]; simpl; [apply IH | reflexivity].
Qed.

Lemma existsb_sucia_false (l : list Agent) :
  existsb es_celda_sucia l = false ↔ ∀ c, ACelda c ∈ l → sucia c = false.
Proof.
  induction l as [|obj l IH]; simpl.
  - split; [|reflexivity]. intros _ c Hc. apply elem_of_nil in Hc. destruct Hc.
  - rewrite orb_false_iff, IH. split.
    + intros [Hobj Hl] c Hc. apply elem_of_cons in Hc as [<-|Hc]; [exact Hobj|].
      exact (Hl c Hc).
    + intros H. split.
      * destruct obj as [c|k]; [|reflexivity]. apply (H c). left.
      * intros c Hc. apply (H c). right. exact Hc.
Qed.

(** A call of [step] that returns either stopped the simulation, leaving
    everything but the data collector and the flag alone, or ran the steps
    of all agents in the order of the schedule. *)
Lemma HabitacionModel_step_stop_or_round (m m' : HabitacionModel) :
  wf m → HabitacionModel_step m = Ok m' →
  0 < celdas_sucias m ∧
  ((celdas_sucias m ≤ total_limpias (grid m) (dirty_positions m) ∧
    m' = set_running (observado m) false) ∨
   (total_limpias (grid m) (dirty_positions m) < celdas_sucias m ∧
    ∃ m1, foldM LimpiadorAgent_step (unique_id <$> agents (schedule m)) (observado m) = Ok m1 ∧
          m' = set_schedule m1 {| agents := agents (schedule m1);
                                  steps := steps (schedule m1) + 1 |})).
Proof.
  intros Hwf Hstep.
  assert (HD : 0 < celdas_sucias m).
  { destruct (decide (celdas_sucias m = 0)) as [H0|H0].
    - rewrite (HabitacionModel_step_zero m Hwf H0) in Hstep. discriminate Hstep.
    - destruct Hwf as (_ & _ & _ & _ & ?). lia. }
  split; [exact HD|].
  destruct (HabitacionModel_step_wf m Hwf HD) as [Hfull Hpart].
  destruct (Z_le_gt_dec (celdas_sucias m) (total_limpias (grid m) (dirty_positions m))).
  - left. rewrite Hfull in Hstep by assumption. injection Hstep as <-. tauto.
  - right. split; [lia|]. rewrite Hpart in Hstep by lia.
    unfold SimultaneousActivation_step in Hstep.
    apply bind_Ok in Hstep as (m1 & Hfold & Hstep). injection Hstep as <-.
    exists m1. split; [exact Hfold | reflexivity].
Qed.

(** After its step an agent leaves no dirty cell on the coordinate it
    stepped from. *)
Lemma step_outcome_cleans (m m' : HabitacionModel) (self : LimpiadorAgent) :
  wf m → self ∈ agents (schedule m) → step_outcome m self m' →
  existsb es_celda_sucia (contents (grid m') (pos self)) = false.
Proof.
  intros Hwf Hself Hout. pose proof (wf_agent m self Hwf Hself) as [Hb Hin].
  assert (Hg : grid_shape (grid m)) by apply Hwf.
  destruct Hout as [g' Hdirty Hu ->|Hclean _ ->|q r g' Hclean Hch Hq Hmv ->]; simpl.
  - destruct (update_cell_inb limpiar_celda (grid m) (pos self) Hg Hb)
      as (g1 & Hu1 & _ & _ & _ & Hc & _).
    rewrite Hu1 in Hu. injection Hu as <-. rewrite Hc. apply limpiar_celda_clean.
  - exact Hclean.
  - apply elem_of_libres in Hq as [Hqn _].
    apply elem_of_get_neighborhood in Hqn as (Hqb & Hqne & _).
    destruct (move_agent_inb (grid m) (ALimpiador (unique_id self)) (pos self) q)
      as (g1 & l' & Hmv1 & Hrm & _ & _ & _ & Hcf & _); try assumption; [congruence|].
    rewrite Hmv1 in Hmv. injection Hmv as <-. rewrite Hcf.
    apply existsb_sucia_false. intros c Hc.
    apply (proj1 (existsb_sucia_false _) Hclean).
    eapply list_remove_subseteq; [exact Hrm | exact Hc].
Qed.

Lemma no_ensucia_clean (g g' : MultiGrid) (q : Coordinate) :
  no_ensucia g g' → out_of_bounds g q = false →
  existsb es_celda_sucia (contents g q) = false →
  existsb es_celda_sucia (contents g' q) = false.
Proof.
  intros Hmono Hq Hclean. apply existsb_sucia_false. intros c Hc.
  destruct (sucia c) eqn:Hs; [|reflexivity].
  destruct (Hmono q Hq) as [_ Hkeep].
  rewrite <- Hs. apply (proj1 (existsb_sucia_false _) Hclean). apply Hkeep; assumption.
Qed.

(** After the steps of the agents [keys], each taken once, no cell is
    dirty under the place where one of these agents stood before. *)
Lemma round_cleans (keys : list Z) (m m' : HabitacionModel) (a : LimpiadorAgent) :
  wf m → NoDup keys → keys ⊆ unique_id <$> agents (schedule m) →
  foldM LimpiadorAgent_step keys m = Ok m' →
  a ∈ agents (schedule m) → unique_id a ∈ keys →
  existsb es_celda_sucia (contents (grid m') (pos a)) = false.
Proof.
  intros Hwf Hnd Hsub Hfold Ha Hkey.
  apply list_elem_of_split in Hkey as (l1 & l2 & ->).
  rewrite foldM_app in Hfold. apply bind_Ok in Hfold as (m1 & Hfold1 & Hfold).
  simpl in Hfold. apply bind_Ok in Hfold as (m2 & Hstep & Hfold2).
  apply NoDup_app in Hnd as (Hnd1 & Hdisj & Hnd2).
  assert (Hsub1 : l1 ⊆ unique_id <$> agents (schedule m)).
  { intros k Hk. apply Hsub, elem_of_app. left. exact Hk. }
  destruct (round_total m l1 Hwf Hsub1) as (m1' & Hfold1' & Hwf1 & Hsame1 & _).
  rewrite Hfold1 in Hfold1'. injection Hfold1' as <-.
  destruct (round_agents l1 m m1 a Hwf Hnd1 Hsub1 Hfold1 Ha) as (a1 & Ha1 & _ & Hkeep & _).
  assert (a1 = a) as ->.
  { apply Hkeep. intros Hin. apply (Hdisj _ Hin). left. }
  pose proof (LimpiadorAgent_step_outcome m1 m2 a Hwf1 Ha1 Hstep) as Hout.
  destruct (step_outcome_wf m1 m2 a Hwf1 Ha1 Hout) as [Hwf2 Hsame2].
  pose proof (step_outcome_cleans m1 m2 a Hwf1 Ha1 Hout) as Hclean.
  destruct Hsame1 as (_ & _ & _ & _ & _ & _ & _ & _ & Hw1 & Hh1 & Hids1).
  destruct Hsame2 as (_ & _ & _ & _ & _ & _ & _ & _ & Hw2 & Hh2 & Hids2).
  destruct (round_total m2 l2 Hwf2) as (m3 & Hfold3 & _ & _ & Hmono).
  { rewrite Hids2, Hids1. intros k Hk. apply Hsub, elem_of_app. right. right. exact Hk. }
  rewrite Hfold2 in Hfold3. injection Hfold3 as <-.
  apply (no_ensucia_clean (grid m2)); [exact Hmono| |exact Hclean].
  rewrite (inb_same_dims _ _ _ Hw2 Hh2). apply (wf_agent m1 a Hwf1 Ha1).
Qed.

(** After a call of [step] that leaves [running] true, no cell is dirty
    at a coordinate where a cleaner stood when the call began: a cleaner
    never walks away from dirt. *)
Theorem round_cleans_under_agents (m m' : HabitacionModel) (a : LimpiadorAgent) :
  reachable m → HabitacionModel_step m = Ok m' → running m' = true →
  a ∈ agents (schedule m) →
  existsb es_celda_sucia (contents (grid m') (pos a)) = false.
Proof.
  intros Hreach Hstep Hrun Ha. pose proof (reachable_wf m Hreach) as Hwf.
  destruct (HabitacionModel_step_stop_or_round m m' Hwf Hstep)
    as (_ & [[_ ->]|(_ & m1 & Hfold & ->)]); [discriminate Hrun|]. simpl.
  assert (Hwf1 : wf (observado m)) by (revert Hwf; apply wf_ext; reflexivity).
  apply (round_cleans (unique_id <$> agents (schedule m)) (observado m) m1 a Hwf1).
  - apply Hwf.
  - intros k Hk. exact Hk.
  - exact Hfold.
  - exact Ha.
  - apply list_elem_of_fmap_2. exact Ha.
Qed.

Lemma round_cleans_under_agents_witness :
  ∃ m m', (m0 ← HabitacionModel_init false 3 3 2 1 [0%nat; 0%nat; 0%nat; 0%nat; 0%nat];
           run 1 m0) = Ok m ∧
          HabitacionModel_step m = Ok m' ∧
          existsb es_celda_sucia (contents (grid m) (0, 0)) = true ∧
          existsb es_celda_sucia (contents (grid m') (0, 0)) = false.
Proof.
  destruct (m0 ← HabitacionModel_init false 3 3 2 1 [0%nat; 0%nat; 0%nat; 0%nat; 0%nat];
            run 1 m0) as [m|e] eqn:Hrun; [|vm_compute in Hrun; discriminate Hrun].
  destruct (HabitacionModel_step m) as [m'|e] eqn:Hstep.
  2:{ vm_compute in Hrun. injection Hrun as <-. vm_compute in Hstep. discriminate Hstep. }
  exists m, m'. split; [reflexivity|]. split; [exact Hstep|].
  pose proof (reachable_init_run _ _ _ _ _ _ _ _ Hrun) as Hreach.
  pose proof Hstep as Hstep'.
  vm_compute in Hrun. injection Hrun as <-.
  vm_compute in Hstep. injection Hstep as <-.
  split; [reflexivity|].
  apply (round_cleans_under_agents _ _ (mkLimpiador 0 (0, 0) 1) Hreach Hstep').
  - reflexivity.
  - left.
Defined.

Lemma total_limpias_lt (g g' : MultiGrid) (dirty : list Coordinate) (p : Coordinate) :
  no_ensucia g g' → Forall (λ q, out_of_bounds g q = false) dirty →
  p ∈ dirty → limpias_en g p < limpias_en g' p →
  total_limpias g dirty < total_limpias g' dirty.
Proof.
  intros Hmono Hd Hp Hlt. induction Hd as [|q dirty Hq Hd IH]; simpl.
  - apply elem_of_nil in Hp. destruct Hp.
  - pose proof (total_limpias_mono g g' dirty Hmono Hd) as Hle.
    destruct (Hmono q Hq) as [Hleq _].
    apply elem_of_cons in Hp as [->|Hp]; [lia|]. specialize (IH Hp). lia.
Qed.

(** A call of [step] made while a cleaner stands on a dirty cell of a
    reachable model of positive size strictly raises the value of
    [contar_celdas_limpias]. *)
Theorem cleaning_makes_progress (m m' : HabitacionModel) (a : LimpiadorAgent) :
  reachable m → 0 < M m → 0 < N m →
  a ∈ agents (schedule m) →
  existsb es_celda_sucia (contents (grid m) (pos a)) = true →
  HabitacionModel_step m = Ok m' →
  ∃ p p', contar_celdas_limpias m = Ok p ∧ contar_celdas_limpias m' = Ok p' ∧
          (p < p')%Q.
Proof.
  intros Hreach HM HN Ha Hs Hstep.
  pose proof (reachable_inv m Hreach) as Hinv.
  pose proof (HabitacionModel_step_inv m m' Hinv Hstep) as Hinv'.
  destruct Hinv as (Hwf & Hcells & Hlen & Hw & Hh & _).
  destruct Hinv' as (Hwf' & Hcells' & _).
  pose proof (wf_agent m a Hwf Ha) as [Hq _].
  assert (Hd : Forall (λ p, out_of_bounds (grid m) p = false) (dirty_positions m))
    by apply Hwf.
  destruct (HabitacionModel_step_Ok m m' Hwf Hstep) as (_ & Hmono & HD' & Hd' & Hw' & Hh' & _).
  assert (Hin : pos a ∈ dirty_positions m).
  { destruct (Hcells (pos a) Hq) as (c & ls & Hc & _ & Hdirty & _).
    apply Hdirty. rewrite Hc, existsb_sucia_refs in Hs. exact Hs. }
  assert (Hbefore : limpias_en (grid m) (pos a) = 0).
  { rewrite (cell_ok_limpias m (pos a) (Hcells (pos a) Hq)), Hs. reflexivity. }
  destruct (HabitacionModel_step_stop_or_round m m' Hwf Hstep)
    as (HD & [[Hfull Hm']|(_ & m1 & Hfold & Hm')]).
  { exfalso. rewrite <- Hlen in Hfull by lia.
    pose proof (total_limpias_full m _ Hcells Hd Hfull (pos a) Hin). congruence. }
  assert (Hafter : limpias_en (grid m') (pos a) = 1).
  { assert (Hq' : out_of_bounds (grid m') (pos a) = false)
      by (rewrite (inb_same_dims _ _ _ Hw' Hh'); exact Hq).
    rewrite (cell_ok_limpias m' (pos a) (Hcells' (pos a) Hq')).
    assert (Hwf1 : wf (observado m)) by (revert Hwf; apply wf_ext; reflexivity).
    rewrite Hm'. simpl.
    rewrite (round_cleans (unique_id <$> agents (schedule m)) (observado m) m1 a Hwf1);
      [reflexivity | apply Hwf | intros k Hk; exact Hk | exact Hfold | exact Ha
      | apply list_elem_of_fmap_2; exact Ha]. }
  rewrite (contar_celdas_limpias_wf m Hwf), (contar_celdas_limpias_wf m' Hwf'), HD', Hd'.
  rewrite (proj2 (Z.eqb_neq _ _)) by lia.
  eexists _, _. split; [reflexivity|]. split; [reflexivity|].
  apply porcentaje_lt; [exact HD|].
  apply (total_limpias_lt _ _ _ (pos a)); [exact Hmono | exact Hd | exact Hin | lia].
Qed.

Lemma cleaning_makes_progress_witness :
  ∃ m m' p p',
    (m0 ← HabitacionModel_init false 3 3 2 1 [0%nat; 0%nat; 0%nat; 0%nat; 0%nat];
     run 1 m0) = Ok m ∧
    HabitacionModel_step m = Ok m' ∧
    contar_celdas_limpias m = Ok p ∧ contar_celdas_limpias m' = Ok p' ∧ (p < p')%Q.
Proof.
  destruct (m0 ← HabitacionModel_init false 3 3 2 1 [0%nat; 0%nat; 0%nat; 0%nat; 0%nat];
            run 1 m0) as [m|e] eqn:Hrun; [|vm_compute in Hrun; discriminate Hrun].
  destruct (HabitacionModel_step m) as [m'|e] eqn:Hstep.
  2:{ vm_compute in Hrun. injection Hrun as <-. vm_compute in Hstep. discriminate Hstep. }
  pose proof (reachable_init_run _ _ _ _ _ _ _ _ Hrun) as Hreach.
  destruct (cleaning_makes_progress m m' (mkLimpiador 0 (0, 0) 1) Hreach)
    as (p & p' & Hp);
    try (vm_compute in Hrun; injection Hrun as <-; first [reflexivity | left]).
  - exact Hstep.
  - exists m, m', p, p'. split; [reflexivity|]. split; [exact Hstep | exact Hp].
Defined.

(** ** Moves and their counters *)

Lemma Forall2_by_id (R : LimpiadorAgent → LimpiadorAgent → Prop) (l : list LimpiadorAgent) :
  ∀ l', unique_id <$> l' = unique_id <$> l →
        (∀ a a', a ∈ l → a' ∈ l' → unique_id a' = unique_id a → R a a') →
        Forall2 R l l'.
Proof.
  induction l as [|a l IH]; intros [|a' l'] Hids HR; try discriminate Hids.
  - constructor.
  - rewrite !fmap_cons in Hids. injection Hids as Hid Hids. constructor.
    + apply HR; [left | left | exact Hid].
    + apply IH; [exact Hids|]. intros b b' Hb Hb'. apply HR; right; assumption.
Qed.

(** Through the steps of the agents [keys], each taken once, a cleaner
    either is where it was with the same counter, or stands on a neighbour
    with its counter one higher. *)
Lemma round_moved_or_stayed (keys : list Z) :
  ∀ (m m' : HabitacionModel) (a : LimpiadorAgent),
    wf m → NoDup keys → keys ⊆ unique_id <$> agents (schedule m) →
    foldM LimpiadorAgent_step keys m = Ok m' →
    a ∈ agents (schedule m) →
    ∃ a', a' ∈ agents (schedule m') ∧
          (unique_id a ∉ keys → a' = a) ∧ moved_or_stayed (grid m) a a'.
Proof.
  induction keys as [|key keys IH]; intros m m' a Hwf Hnd Hsub Hfold Ha.
  - simpl in Hfold. injection Hfold as <-. exists a.
    split; [exact Ha|]. split; [reflexivity|]. split; [reflexivity|]. left. tauto.
  - simpl in Hfold. apply bind_Ok in Hfold as (m1 & Hstep & Hfold).
    apply NoDup_cons in Hnd as [Hkey Hnd].
    assert (Hk : key ∈ unique_id <$> agents (schedule m)) by (apply Hsub; left).
    apply elem_of_ids in Hk as (self & Hself & <-).
    pose proof (LimpiadorAgent_step_outcome m m1 self Hwf Hself Hstep) as Hout.
    destruct (step_outcome_wf m m1 self Hwf Hself Hout) as [Hwf1 Hsame].
    destruct Hsame as (_ & _ & _ & _ & _ & _ & _ & _ & Hw & Hh & Hids).
    destruct (step_outcome_agents m m1 self a Hwf Hself Hout Ha)
      as (a1 & Ha1 & Hid1 & Hother & Hmoved).
    destruct (IH m1 m' a1 Hwf1 Hnd) as (a' & Ha' & Hkeep & Hid' & Hcase);
      [rewrite Hids; intros k Hk; apply Hsub; right; exact Hk | exact Hfold | exact Ha1 |].
    rewrite (get_neighborhood_dims (grid m) (grid m1) _ Hw Hh) in Hcase.
    exists a'. split; [exact Ha'|].
    destruct (decide (unique_id a = unique_id self)) as [Heq|Hne].
    + assert (a' = a1) as ->.
      { apply Hkeep. rewrite Hid1, Heq. exact Hkey. }
      split; [intros Hnot; exfalso; apply Hnot; rewrite Heq; left|].
      split; [exact Hid1|].
      destruct Hmoved as [->|(-> & Hlib & Hm1)]; [left; tauto|right].
      apply elem_of_libres in Hlib as [Hn _]. split; [|tauto].
      apply elem_of_get_neighborhood in Hn. tauto.
    + rewrite (Hother Hne) in *. split.
      * intros Hnot. apply Hkeep. intros Hin. apply Hnot. right. exact Hin.
      * split; [exact Hid'|exact Hcase].
Qed.

Lemma HabitacionModel_step_agents (m m' : HabitacionModel) :
  wf m → HabitacionModel_step m = Ok m' →
  Forall2 (moved_or_stayed (grid m)) (agents (schedule m)) (agents (schedule m')).
Proof.
  intros Hwf Hstep.
  destruct (HabitacionModel_step_Ok m m' Hwf Hstep) as (Hwf' & _ & _ & _ & _ & _ & Hids).
  apply Forall2_by_id; [exact Hids|]. intros a a' Ha Ha' Hid.
  destruct (HabitacionModel_step_stop_or_round m m' Hwf Hstep)
    as (_ & [[_ ->]|(_ & m1 & Hfold & ->)]); simpl in Ha'.
  - assert (a' = a) as ->.
    { destruct Hwf as (_ & _ & Hnd & _). eapply agent_by_id; eassumption. }
    split; [reflexivity|]. left. tauto.
  - assert (Hwf1 : wf (observado m)) by (revert Hwf; apply wf_ext; reflexivity).
    destruct (round_moved_or_stayed (unique_id <$> agents (schedule m)) (observado m) m1 a Hwf1)
      as (a1 & Ha1 & _ & Hcase);
      [apply Hwf | intros k Hk; exact Hk | exact Hfold | exact Ha |].
    assert (a' = a1) as ->; [|exact Hcase].
    destruct Hwf' as (_ & _ & Hnd' & _). simpl in Hnd'.
    destruct Hcase as [Hid1 _].
    eapply agent_by_id; [exact Hnd' | exact Ha' | exact Ha1 | congruence].
Qed.

(** Across a call of [step], cleaner by cleaner in the order of the
    schedule: either [pos] and [movimientos] are both unchanged, or [pos]
    is a different coordinate of the Moore neighbourhood and [movimientos]
    is exactly one higher.  The counter counts the changes of position. *)
Theorem movimientos_counts_moves (m m' : HabitacionModel) :
  reachable m → HabitacionModel_step m = Ok m' →
  Forall2 (moved_or_stayed (grid m)) (agents (schedule m)) (agents (schedule m')).
Proof.
  intros Hreach Hstep. apply HabitacionModel_step_agents; [|exact Hstep].
  apply reachable_wf, Hreach.
Qed.

Lemma movimientos_counts_moves_witness :
  ∃ m m', HabitacionModel_init false 3 3 2 1 [8%nat; 0%nat; 0%nat] = Ok m ∧
          HabitacionModel_step m = Ok m' ∧
          Forall2 (moved_or_stayed (grid m)) (agents (schedule m)) (agents (schedule m')).
Proof.
  destruct (HabitacionModel_init false 3 3 2 1 [8%nat; 0%nat; 0%nat]) as [m|e] eqn:Hinit;
    [|vm_compute in Hinit; discriminate Hinit].
  destruct (HabitacionModel_step m) as [m'|e] eqn:Hstep.
  2:{ vm_compute in Hinit. injection Hinit as <-. vm_compute in Hstep. discriminate Hstep. }
  exists m, m'. split; [reflexivity|]. split; [exact Hstep|].
  apply (movimientos_counts_moves m m'); [|exact Hstep].
  eapply reachable_init. exact Hinit.
Defined.

Lemma moved_or_stayed_sum (g : MultiGrid) (l l' : list LimpiadorAgent) :
  Forall2 (moved_or_stayed g) l l' →
  foldr Z.add 0 (movimientos <$> l) ≤ foldr Z.add 0 (movimientos <$> l') ∧
  foldr Z.add 0 (movimientos <$> l') ≤
    foldr Z.add 0 (movimientos <$> l) + Z.of_nat (length l).
Proof.
  induction 1 as [|a a' l l' [_ Ha] _ IH]; [simpl; lia|].
  rewrite !fmap_cons. simpl foldr. simpl length. lia.
Qed.

(** What a call of [step] does to the flag, the counters and the rows. *)
Lemma HabitacionModel_step_bookkeeping (m m' : HabitacionModel) :
  wf m → HabitacionModel_step m = Ok m' →
  datacollector m' = datacollector (observado m) ∧
  ((running m' = false ∧ steps (schedule m') = steps (schedule m)) ∨
   (running m' = running m ∧ steps (schedule m') = steps (schedule m) + 1)).
Proof.
  intros Hwf Hstep.
  destruct (HabitacionModel_step_stop_or_round m m' Hwf Hstep)
    as (_ & [[_ ->]|(_ & m1 & Hfold & ->)]); simpl.
  - split; [reflexivity|]. left. tauto.
  - assert (Hwf1 : wf (observado m)) by (revert Hwf; apply wf_ext; reflexivity).
    destruct (round_total (observado m) (unique_id <$> agents (schedule m)) Hwf1)
      as (m1' & Hfold' & _ & Hsame & _); [intros k Hk; exact Hk|].
    rewrite Hfold in Hfold'. injection Hfold' as <-.
    destruct Hsame as (_ & _ & _ & _ & _ & Hr & Hdc & Hst & _).
    split; [exact Hdc|]. right. split; [exact Hr|]. rewrite Hst. reflexivity.
Qed.

(** The total of the move counters of a reachable model is at most the
    number of completed rounds times the number of cleaners, and it is never
    negative: a cleaner moves at most once per round. *)
Theorem total_moves_bounded (m : HabitacionModel) :
  reachable m →
  0 ≤ contar_movimientos m ≤
  steps (schedule m) * Z.of_nat (length (agents (schedule m))).
Proof.
  induction 1 as [strict M0 N0 k d seed m Hinit|m m' Hreach IH Hstep].
  - apply init_Ok in Hinit as (ps & gc & _ & _ & _ & _ & Hdone & _).
    destruct Hdone as (_ & _ & _ & _ & _ & Hag & Hst). simpl in Hag, Hst.
    unfold contar_movimientos. rewrite Hag, Hst.
    assert (H0 : ∀ l, foldr Z.add 0 (movimientos <$> (limpiador_inicial <$> l)) = 0).
    { intros l. induction l as [|i l IHl]; [reflexivity|].
      rewrite !fmap_cons. simpl. exact IHl. }
    rewrite H0. lia.
  - pose proof (reachable_wf m Hreach) as Hwf.
    pose proof (HabitacionModel_step_agents m m' Hwf Hstep) as Hag.
    pose proof (Forall2_length _ _ _ Hag) as Hlen.
    apply moved_or_stayed_sum in Hag.
    destruct (HabitacionModel_step_Ok m m' Hwf Hstep) as (Hwf' & _).
    destruct (HabitacionModel_step_stop_or_round m m' Hwf Hstep)
      as (_ & [[_ ->]|(_ & m1 & Hfold & Hm')]).
    + exact IH.
    + destruct (HabitacionModel_step_bookkeeping m m' Hwf Hstep) as (_ & [[Hr Hst]|[_ Hst]]).
      * exfalso. rewrite Hm' in Hst. simpl in Hst.
        assert (Hwf1 : wf (observado m)) by (revert Hwf; apply wf_ext; reflexivity).
        destruct (round_total (observado m) (unique_id <$> agents (schedule m)) Hwf1)
          as (m1' & Hfold' & _ & Hsame & _); [intros j Hj; exact Hj|].
        rewrite Hfold in Hfold'. injection Hfold' as <-.
        destruct Hsame as (_ & _ & _ & _ & _ & _ & _ & Hst1 & _). simpl in Hst1. lia.
      * unfold contar_movimientos in *. rewrite Hst, <- Hlen. nia.
Qed.

Lemma total_moves_bounded_witness :
  ∃ m, (m0 ← HabitacionModel_init false 3 3 2 1 [8%nat; 0%nat; 0%nat; 0%nat; 0%nat];
        run 2 m0) = Ok m ∧
       0 ≤ contar_movimientos m ≤ steps (schedule m) * Z.of_nat (length (agents (schedule m))).
Proof.
  destruct (m0 ← HabitacionModel_init false 3 3 2 1 [8%nat; 0%nat; 0%nat; 0%nat; 0%nat];
            run 2 m0) as [m|e] eqn:Hrun; [|vm_compute in Hrun; discriminate Hrun].
  exists m. split; [reflexivity|].
  apply (total_moves_bounded m). eapply reachable_init_run. exact Hrun.
Defined.

(** ** The data collector *)

(** In a reachable model the data collector holds one row for every call
    of [step] that returned, the step counter counts the calls that ran a
    round, and the two agree as long as [running] is true. *)
Theorem rows_and_steps (m : HabitacionModel) :
  reachable m →
  0 ≤ steps (schedule m) ≤ Z.of_nat (length (datacollector m)) ∧
  (running m = true → steps (schedule m) = Z.of_nat (length (datacollector m))).
Proof.
  induction 1 as [strict M0 N0 k d seed m Hinit|m m' Hreach IH Hstep].
  - apply init_Ok in Hinit as (ps & gc & _ & (_ & _ & _ & _ & _ & Hdc) & _ & _ & Hdone & _).
    destruct Hdone as (_ & _ & _ & _ & _ & _ & Hst). simpl in Hst.
    rewrite Hdc, Hst. simpl. lia.
  - pose proof (reachable_wf m Hreach) as Hwf.
    destruct (HabitacionModel_step_bookkeeping m m' Hwf Hstep) as (Hdc & Hcase).
    rewrite Hdc. unfold observado. simpl. rewrite length_app. simpl.
    destruct Hcase as [[Hr Hst]|[Hr Hst]]; rewrite Hst, Hr.
    + split; [lia | discriminate].
    + split; [lia|]. intros Hrun. destruct IH as [_ IH]. rewrite (IH Hrun). lia.
Qed.

Lemma rows_and_steps_witness :
  ∃ m, (m0 ← HabitacionModel_init false 3 3 2 1 [0%nat; 0%nat; 0%nat; 0%nat; 0%nat];
        run 3 m0) = Ok m ∧
       0 ≤ steps (schedule m) ≤ Z.of_nat (length (datacollector m)).
Proof.
  destruct (m0 ← HabitacionModel_init false 3 3 2 1 [0%nat; 0%nat; 0%nat; 0%nat; 0%nat];
            run 3 m0) as [m|e] eqn:Hrun; [|vm_compute in Hrun; discriminate Hrun].
  exists m. split; [reflexivity|].
  apply (rows_and_steps m). eapply reachable_init_run. exact Hrun.
Defined.

Lemma rows_below_snoc (rows : list Observation) (p p' : Q) (t t' : Z) :
  rows_below rows p t → (p <= p')%Q → t ≤ t' →
  rows_below (rows ++ [mkObservation p t]) p' t'.
Proof.
  intros [Hsorted Hbelow] Hp Ht. split.
  - intros i j r r' Hij Hi Hj.
    apply lookup_snoc_Some in Hi as [[Hil Hi]|[Hil <-]];
      apply lookup_snoc_Some in Hj as [[Hjl Hj]|[Hjl <-]].
    + apply (Hsorted i j); assumption.
    + apply Hbelow. eapply list_elem_of_lookup_2. exact Hi.
    + lia.
    + simpl. split; [apply Qle_refl | lia].
  - intros r Hr. apply elem_of_app in Hr as [Hr|Hr].
    + destruct (Hbelow r Hr) as [Hrp Hrt]. split; [|lia].
      eapply Qle_trans; [exact Hrp | exact Hp].
    + apply list_elem_of_singleton in Hr as ->. simpl. split; [exact Hp | exact Ht].
Qed.

(** The rows that the data collector of a reachable model holds never go
    down, in the percentage of clean cells and in the total of moves, and no
    row is above the present values of the two reporters. *)
Theorem collected_series_monotone (m : HabitacionModel) :
  reachable m →
  rows_below (datacollector m)
    (porcentaje (total_limpias (grid m) (dirty_positions m)) (celdas_sucias m))
    (contar_movimientos m).
Proof.
  induction 1 as [strict M0 N0 k d seed m Hinit|m m' Hreach IH Hstep].
  - apply init_Ok in Hinit as (ps & gc & _ & (_ & _ & _ & _ & _ & Hdc) & _).
    rewrite Hdc. split.
    + intros i j r r' _ Hi. discriminate Hi.
    + intros r Hr. apply elem_of_nil in Hr. destruct Hr.
  - pose proof (reachable_wf m Hreach) as Hwf.
    destruct (HabitacionModel_step_bookkeeping m m' Hwf Hstep) as (Hdc & _).
    destruct (HabitacionModel_step_Ok m m' Hwf Hstep) as (_ & Hmono & HD & Hd & _).
    destruct (HabitacionModel_step_stop_or_round m m' Hwf Hstep) as (Hpos & _).
    pose proof (HabitacionModel_step_agents m m' Hwf Hstep) as Hag.
    apply moved_or_stayed_sum in Hag as [Hag _].
    rewrite Hdc, HD, Hd. unfold observado. simpl.
    apply rows_below_snoc; [exact IH| |exact Hag].
    apply porcentaje_mono; [exact Hpos|].
    apply total_limpias_mono; [exact Hmono | apply Hwf].
Qed.

Lemma collected_series_monotone_witness :
  ∃ m, (m0 ← HabitacionModel_init false 3 3 2 1 [0%nat; 0%nat; 0%nat; 0%nat; 0%nat];
        run 3 m0) = Ok m ∧
       ∀ r, r ∈ datacollector m → movimientos_totales r ≤ contar_movimientos m.
Proof.
  destruct (m0 ← HabitacionModel_init false 3 3 2 1 [0%nat; 0%nat; 0%nat; 0%nat; 0%nat];
            run 3 m0) as [m|e] eqn:Hrun; [|vm_compute in Hrun; discriminate Hrun].
  exists m. split; [reflexivity|].
  intros r Hr.
  apply (proj2 (collected_series_monotone m (reachable_init_run _ _ _ _ _ _ _ _ Hrun)) r Hr).
Defined.

(** ** The portrayal *)

(** The portrayal chooses the shape and the layer by the class of the
    object and the colour of a cell by its flag. *)
Lemma agent_portrayal_color (obj : Agent) (s : string) :
  dict_get "Color" (agent_portrayal obj) = Some (VStr s) →
  match obj with
  | ALimpiador _ => s = "blue"%string
  | ACelda c => s = (if sucia c then "red" else "white")%string
  end.
Proof.
  destruct obj as [c|k]; unfold dict_get, agent_portrayal; simpl;
    intros H; injection H as <-; reflexivity.
Qed.

(** In a reachable model of positive size an object of the grid is drawn
    red only if it is a dirty cell, standing on one of the coordinates that
    the constructor drew, in a simulation that is still running. *)
Theorem red_only_for_initial_dirt (m : HabitacionModel) (q : Coordinate) (obj : Agent) :
  reachable m → 0 < M m → 0 < N m →
  out_of_bounds (grid m) q = false → obj ∈ contents (grid m) q →
  dict_get "Color" (agent_portrayal obj) = Some (VStr "red") →
  (∃ c, obj = ACelda c ∧ sucia c = true) ∧
  q ∈ dirty_positions m ∧ running m = true.
Proof.
  intros Hreach HM HN Hq Hobj Hred.
  apply agent_portrayal_color in Hred.
  destruct obj as [c'|k]; [|discriminate Hred].
  destruct (sucia c') eqn:Hs; [clear Hred|discriminate Hred].
  destruct (reachable_inv m Hreach) as (Hwf & Hcells & Hlen & Hw & Hh & _).
  destruct (Hcells q Hq) as (c & ls & Hc & _ & Hdirty & _).
  rewrite Hc in Hobj. apply celda_of_refs in Hobj as ->.
  split; [exists c; split; [reflexivity | exact Hs]|].
  split; [exact (Hdirty Hs)|].
  destruct (running m) eqn:Hrun; [reflexivity|exfalso].
  destruct (reachable_stopped m Hreach Hrun) as [HD Hfull].
  rewrite <- Hlen in Hfull by lia.
  pose proof (total_limpias_full m (dirty_positions m) Hcells
                (proj1 (proj2 (proj2 (proj2 Hwf)))) Hfull q (Hdirty Hs)) as Hclean.
  rewrite Hc, existsb_sucia_refs in Hclean. congruence.
Qed.

Lemma red_only_for_initial_dirt_witness :
  ∃ m, HabitacionModel_init false 3 3 2 1 [0%nat; 0%nat; 0%nat; 0%nat; 0%nat] = Ok m ∧
       (0, 0) ∈ dirty_positions m ∧ running m = true.
Proof.
  destruct (HabitacionModel_init false 3 3 2 1 [0%nat; 0%nat; 0%nat; 0%nat; 0%nat])
    as [m|e] eqn:Hinit; [|vm_compute in Hinit; discriminate Hinit].
  pose proof (reachable_init _ _ _ _ _ _ _ Hinit) as Hreach.
  exists m. split; [reflexivity|].
  apply (red_only_for_initial_dirt m (0, 0) (ACelda (mkCelda 0 true)) Hreach);
    vm_compute in Hinit; injection Hinit as <-;
    first [reflexivity | apply list_elem_of_here].
Defined.

(** In a reachable model the objects of a square that are drawn as blue
    circles on layer 1 are exactly the references of the scheduled cleaners
    whose position is that square; the one other object of the square is its
    cell, drawn as a rectangle on layer 0. *)
Theorem blue_circles_are_the_cleaners (m : HabitacionModel) (q : Coordinate) (obj : Agent) :
  reachable m → out_of_bounds (grid m) q = false →
  obj ∈ contents (grid m) q →
  (dict_get "Color" (agent_portrayal obj) = Some (VStr "blue") ∧
   dict_get "Shape" (agent_portrayal obj) = Some (VStr "circle") ∧
   dict_get "Layer" (agent_portrayal obj) = Some (VInt 1) ∧
   ∃ a, a ∈ agents (schedule m) ∧ obj = ALimpiador (unique_id a) ∧ pos a = q) ∨
  (dict_get "Shape" (agent_portrayal obj) = Some (VStr "rect") ∧
   dict_get "Layer" (agent_portrayal obj) = Some (VInt 0) ∧
   head (contents (grid m) q) = Some obj ∧
   ∀ a, a ∈ agents (schedule m) → obj ≠ ALimpiador (unique_id a)).
Proof.
  intros Hreach Hq Hobj.
  destruct (reachable_inv m Hreach) as (Hwf & Hcells & _).
  destruct (Hcells q Hq) as (c & ls & Hc & _ & _ & _ & Hat & _).
  rewrite Hc in Hobj |- *.
  destruct obj as [c'|k].
  - right. apply celda_of_refs in Hobj as ->.
    repeat split; try reflexivity. intros a _ H. discriminate H.
  - left. apply elem_of_refs, Hat in Hobj as (a & Ha & <- & Hpos).
    repeat split; try reflexivity. exists a. auto.
Qed.

Lemma blue_circles_are_the_cleaners_witness :
  ∃ m, HabitacionModel_init false 3 3 2 1 [0%nat; 0%nat; 0%nat; 0%nat; 0%nat] = Ok m ∧
       ∃ a, a ∈ agents (schedule m) ∧ unique_id a = 1 ∧ pos a = (1, 1).
Proof.
  destruct (HabitacionModel_init false 3 3 2 1 [0%nat; 0%nat; 0%nat; 0%nat; 0%nat])
    as [m|e] eqn:Hinit; [|vm_compute in Hinit; discriminate Hinit].
  pose proof (reachable_init _ _ _ _ _ _ _ Hinit) as Hreach.
  exists m. split; [reflexivity|].
  destruct (blue_circles_are_the_cleaners m (1, 1) (ALimpiador 1) Hreach)
    as [(_ & _ & _ & a & Ha & Hid & Hpos)|(Hshape & _)].
  - vm_compute in Hinit. injection Hinit as <-. reflexivity.
  - vm_compute in Hinit. injection Hinit as <-.
    apply list_elem_of_further, list_elem_of_further, list_elem_of_here.
  - exists a. injection Hid as Hid. auto.
  - discriminate Hshape.
Defined.

(** ** What a round leaves alone *)

Lemma step_outcome_keeps_dirt (m m' : HabitacionModel) (self : LimpiadorAgent)
    (q : Coordinate) :
  wf m → self ∈ agents (schedule m) → step_outcome m self m' →
  out_of_bounds (grid m) q = false → pos self ≠ q →
  existsb es_celda_sucia (contents (grid m) q) = true →
  existsb es_celda_sucia (contents (grid m') q) = true.
Proof.
  intros Hwf Hself Hout Hq Hne Hs.
  pose proof (wf_agent m self Hwf Hself) as [Hb Hin].
  assert (Hg : grid_shape (grid m)) by apply Hwf.
  destruct Hout as [g' _ Hu ->|_ _ ->|r rnd g' _ _ Hr Hmv ->]; simpl.
  - destruct (update_cell_inb limpiar_celda (grid m) (pos self) Hg Hb)
      as (g1 & Hu1 & _ & _ & _ & _ & Hother).
    rewrite Hu1 in Hu. injection Hu as <-. rewrite Hother; [exact Hs|exact Hq|].
    intros H. apply Hne. symmetry. exact H.
  - exact Hs.
  - apply elem_of_libres in Hr as [Hrn _].
    apply elem_of_get_neighborhood in Hrn as (Hrb & Hrne & _).
    destruct (move_agent_inb (grid m) (ALimpiador (unique_id self)) (pos self) r)
      as (g1 & l' & Hmv1 & _ & _ & _ & _ & _ & Hto & Hother); try assumption; [congruence|].
    rewrite Hmv1 in Hmv. injection Hmv as <-.
    destruct (decide (q = r)) as [->|Hqr].
    + rewrite Hto, existsb_app, Hs. reflexivity.
    + rewrite Hother; [exact Hs|exact Hq| |exact Hqr].
      intros H. apply Hne. symmetry. exact H.
Qed.

Lemma step_outcome_others (m m' : HabitacionModel) (self a' : LimpiadorAgent) :
  step_outcome m self m' → a' ∈ agents (schedule m') →
  unique_id a' ≠ unique_id self → a' ∈ agents (schedule m).
Proof.
  intros Hout Ha' Hne.
  destruct Hout as [g' _ _ ->|_ _ ->|r rnd g' _ _ _ _ ->]; simpl in Ha'; try exact Ha'.
  apply elem_of_store_agent in Ha' as [[-> _]|[Ha' _]]; [|exact Ha'].
  exfalso. apply Hne. reflexivity.
Qed.

(** The steps of the agents [keys], each taken once, leave a cell dirty
    when none of these agents stands on it at the start. *)
Lemma round_keeps_dirt (q : Coordinate) (keys : list Z) :
  ∀ (m m' : HabitacionModel),
    wf m → NoDup keys → keys ⊆ unique_id <$> agents (schedule m) →
    foldM LimpiadorAgent_step keys m = Ok m' →
    out_of_bounds (grid m) q = false →
    (∀ a, a ∈ agents (schedule m) → unique_id a ∈ keys → pos a ≠ q) →
    existsb es_celda_sucia (contents (grid m) q) = true →
    existsb es_celda_sucia (contents (grid m') q) = true.
Proof.
  induction keys as [|key keys IH]; intros m m' Hwf Hnd Hsub Hfold Hq Hfree Hs.
  - simpl in Hfold. injection Hfold as <-. exact Hs.
  - simpl in Hfold. apply bind_Ok in Hfold as (m1 & Hstep & Hfold).
    apply NoDup_cons in Hnd as [Hkey Hnd].
    assert (Hk : key ∈ unique_id <$> agents (schedule m)) by (apply Hsub; left).
    apply list_elem_of_fmap in Hk as (self & -> & Hself).
    pose proof (LimpiadorAgent_step_outcome m m1 self Hwf Hself Hstep) as Hout.
    destruct (step_outcome_wf m m1 self Hwf Hself Hout) as [Hwf1 Hsame].
    destruct Hsame as (_ & _ & _ & _ & _ & _ & _ & _ & Hw & Hh & Hids).
    apply (IH m1 m' Hwf1 Hnd); [|exact Hfold| | |].
    + rewrite Hids. intros k Hk. apply Hsub. right. exact Hk.
    + rewrite (inb_same_dims _ _ _ Hw Hh). exact Hq.
    + intros a' Ha' Hin.
      assert (Hne : unique_id a' ≠ unique_id self) by (intros H; rewrite H in Hin; tauto).
      apply Hfree; [|right; exact Hin].
      apply (step_outcome_others m m1 self a' Hout Ha' Hne).
    + apply (step_outcome_keeps_dirt m m1 self q Hwf Hself Hout Hq); [|exact Hs].
      apply Hfree; [exact Hself | left].
Qed.

(** A call of [step] on a reachable model leaves a cell dirty when no
    cleaner stands on it as the call begins: a cleaner that arrives during
    the round cleans only in a later one. *)
Theorem dirt_without_cleaner_stays (m m' : HabitacionModel) (q : Coordinate) :
  reachable m → HabitacionModel_step m = Ok m' →
  out_of_bounds (grid m) q = false →
  (∀ a, a ∈ agents (schedule m) → pos a ≠ q) →
  existsb es_celda_sucia (contents (grid m) q) = true →
  existsb es_celda_sucia (contents (grid m') q) = true.
Proof.
  intros Hreach Hstep Hq Hfree Hs. pose proof (reachable_wf m Hreach) as Hwf.
  destruct (HabitacionModel_step_stop_or_round m m' Hwf Hstep)
    as (_ & [[_ ->]|(_ & m1 & Hfold & ->)]); simpl; [exact Hs|].
  assert (Hwf1 : wf (observado m)) by (revert Hwf; apply wf_ext; reflexivity).
  apply (round_keeps_dirt q (unique_id <$> agents (schedule m)) (observado m) m1 Hwf1).
  - apply Hwf.
  - intros k Hk. exact Hk.
  - exact Hfold.
  - exact Hq.
  - intros a Ha _. apply Hfree. exact Ha.
  - exact Hs.
Qed.

Lemma dirt_without_cleaner_stays_witness :
  ∃ m m', HabitacionModel_init false 3 3 2 1 [0%nat; 0%nat; 0%nat; 0%nat; 0%nat] = Ok m ∧
          HabitacionModel_step m = Ok m' ∧
          existsb es_celda_sucia (contents (grid m') (0, 0)) = true.
Proof.
  destruct (HabitacionModel_init false 3 3 2 1 [0%nat; 0%nat; 0%nat; 0%nat; 0%nat])
    as [m|e] eqn:Hinit; [|vm_compute in Hinit; discriminate Hinit].
  destruct (HabitacionModel_step m) as [m'|e] eqn:Hstep.
  2:{ vm_compute in Hinit. injection Hinit as <-. vm_compute in Hstep. discriminate Hstep. }
  exists m, m'. split; [reflexivity|]. split; [exact Hstep|].
  pose proof (reachable_init _ _ _ _ _ _ _ Hinit) as Hreach.
  apply (dirt_without_cleaner_stays m m' (0, 0) Hreach Hstep).
  - vm_compute in Hinit. injection Hinit as <-. reflexivity.
  - vm_compute in Hinit. injection Hinit as <-. intros a Ha.
    apply elem_of_cons in Ha as [->|Ha]; [discriminate|].
    apply list_elem_of_singleton in Ha as ->. discriminate.
  - vm_compute in Hinit. injection Hinit as <-. reflexivity.
Defined.

Lemma total_limpias_all_clean (m : HabitacionModel) (dirty : list Coordinate) :
  (∀ q, out_of_bounds (grid m) q = false → cell_ok m q) →
  Forall (λ p, out_of_bounds (grid m) p = false) dirty →
  Forall (λ p, existsb es_celda_sucia (contents (grid m) p) = false) dirty →
  total_limpias (grid m) dirty = Z.of_nat (length dirty).
Proof.
  intros Hcells Hd Hclean. induction Hd as [|q dirty Hq Hd IH]; [reflexivity|].
  apply Forall_cons in Hclean as [Hc Hclean]. simpl total_limpias.
  rewrite (cell_ok_limpias m q (Hcells q Hq)), Hc, (IH Hclean). simpl length. lia.
Qed.

(** A call of [step] on a reachable model of positive size with a positive
    initial number of dirty cells, in which every cell on the coordinates
    drawn by the constructor is clean, only records a row and sets [running]
    to false: no agent acts and the step counter stays. *)
Theorem clean_means_stop (m : HabitacionModel) :
  reachable m → 0 < M m → 0 < N m → 0 < celdas_sucias m →
  Forall (λ p, existsb es_celda_sucia (contents (grid m) p) = false) (dirty_positions m) →
  ∃ m', HabitacionModel_step m = Ok m' ∧ running m' = false ∧
        grid m' = grid m ∧ schedule m' = schedule m ∧ random m' = random m ∧
        length (datacollector m') = S (length (datacollector m)).
Proof.
  intros Hreach HM HN HD Hclean.
  destruct (reachable_inv m Hreach) as (Hwf & Hcells & Hlen & Hw & Hh & _).
  assert (Hd : Forall (λ p, out_of_bounds (grid m) p = false) (dirty_positions m))
    by apply Hwf.
  pose proof (total_limpias_all_clean m _ Hcells Hd Hclean) as Htot.
  rewrite Hlen in Htot by lia.
  destruct (HabitacionModel_step_wf m Hwf HD) as [Hstop _].
  exists (set_running (observado m) false).
  split; [apply Hstop; lia|]. simpl.
  repeat split; try reflexivity. rewrite length_app. simpl. lia.
Qed.

Lemma clean_means_stop_witness :
  ∃ m m', (m0 ← HabitacionModel_init false 3 3 2 1 [0%nat; 0%nat; 0%nat; 0%nat; 0%nat];
           run 2 m0) = Ok m ∧
          running m = true ∧
          HabitacionModel_step m = Ok m' ∧ running m' = false.
Proof.
  destruct (m0 ← HabitacionModel_init false 3 3 2 1 [0%nat; 0%nat; 0%nat; 0%nat; 0%nat];
            run 2 m0) as [m|e] eqn:Hrun; [|vm_compute in Hrun; discriminate Hrun].
  pose proof (reachable_init_run _ _ _ _ _ _ _ _ Hrun) as Hreach.
  destruct (clean_means_stop m Hreach) as (m' & Hstep & Hr & _).
  - vm_compute in Hrun. injection Hrun as <-. reflexivity.
  - vm_compute in Hrun. injection Hrun as <-. reflexivity.
  - vm_compute in Hrun. injection Hrun as <-. reflexivity.
  - vm_compute in Hrun. injection Hrun as <-. repeat constructor.
  - exists m, m'. split; [reflexivity|].
    split; [vm_compute in Hrun; injection Hrun as <-; reflexivity|].
    split; [exact Hstep | exact Hr].
Defined.
